(** * Stickfight: the session and connection layer

    A shallow embedding of the relay server ([src/server/relay.js]), the
    signaling server and the client networking hooks, with the properties
    the specification states about them.

    Conventions of the embedding.
    - A WebSocket object is a key of the socket store; [===] on sockets is
      equality of keys.  The fields the servers attach to a socket
      ([role], [session], [room], [remoteAddress]) are fields of the stored
      record.
    - [Date.now()] is an argument [now] of every handler: one reading per
      handler run.
    - A handler that can [throw] is a computation in a state-and-exception
      monad: what was written before the [throw] stays written, as in
      JavaScript.
    - [ws.send] and [ws.close] follow the [ws] package: [send] transmits
      only on an OPEN socket, [close] moves an OPEN socket to CLOSING. *)

From Stdlib Require Import ZArith QArith Lqa List String Ascii Lia.
From Stdlib Require Import Strings.Byte.
From Stdlib Require Import Sorting.Sorted.
From stdpp Require Import base option gmap strings list fin_maps.

Local Open Scope string_scope.
Local Open Scope Z_scope.

(** JavaScript truthiness of a value that is a string or absent. *)
Definition truthy (o : option string) : bool :=
  match o with
  | Some s => negb (String.eqb s EmptyString)
  | None => false
  end.

(** The [readyState] of a server-side socket of the [ws] package (a socket
    handed to a ['connection'] listener is never CONNECTING). *)
Inductive ReadyState := OPEN | CLOSING | CLOSED.

Definition is_open (r : ReadyState) : bool :=
  match r with OPEN => true | _ => false end.

(** Socket objects are named by positive numbers. *)
Abbreviation sockid := positive.

(** ** The state-and-exception monad of the handlers

    A handler over a store [S] returns a value or the [message] of the
    [Error] it threw, and the store as it left it. *)

Definition Handler (S A : Type) : Type := S -> (A + string) * S.

Definition ret {S A} (a : A) : Handler S A := fun st => (inl a, st).
Definition throw {S A} (e : string) : Handler S A := fun st => (inr e, st).
Definition bind {S A B} (m : Handler S A) (k : A -> Handler S B) : Handler S B :=
  fun st => match m st with
            | (inl a, st') => k a st'
            | (inr e, st') => (inr e, st')
            end.
Definition exec {S} (f : S -> S) : Handler S unit := fun st => (inl tt, f st).
Definition gets {S A} (f : S -> A) : Handler S A := fun st => (inl (f st), st).

Notation "m ;;; k" := (bind m (fun _ => k))
  (at level 100, k at level 200, right associativity).
Notation "'let*' x ':=' m 'in' k" := (bind m (fun x => k))
  (at level 10, x name, m at level 100, k at level 200).

(** ** The relay server, [src/server/relay.js] *)
Module Relay.

Definition MAX_MESSAGE_SIZE : Z := 8 * 1024.
Definition MAX_MESSAGES_PER_SECOND : nat := 60.


(** A parsed JSON message.  [m_rest] stands for the fields the relay never
    reads ([seq], [ts], [payload]). *)
Record message := Message {
  m_type : string;
  m_role : option string;
  m_room : option string;
  m_rest : string
}.

(** What arrives on the wire: its length, and what [JSON.parse] followed by
    reading [message.type] makes of it ([inl e]: an exception whose
    [message] is [e]). *)
Record rawdata := RawData {
  d_length : Z;
  d_json : string + message
}.

(** The frames the server writes with [ws.send(JSON.stringify(...))]. *)
Inductive frame :=
| RoleAck (role room : string)
| Pong
| ErrorFrame (code : string)
| Forwarded (m : message)
| PlayerDisconnected (role : option string).

(** The [console.warn] and [console.error] lines of the handlers. *)
Inductive logline :=
| ErrInvalidRoleMessage
| ErrHandling (e : string)
| WarnHostInput (session : string)
| WarnInputNotForwarded (session : string)
| WarnGuestState (session : string)
| WarnStateNotForwarded (session : string)
| WarnUnknownType (t : string).

Record Socket := mkSocket {
  remoteAddress : string;
  readyState : ReadyState;
  role : option string;
  session : option string;
  sent : list frame;
  closeCalls : list (Z * string)
}.

Record RelaySession := mkSession {
  roomCode : string;
  host : option sockid;
  guest : option sockid;
  createdAt : Z;
  lastActivity : Z;
  messageCount : nat
}.

Record RateEntry := mkRate {
  messages : list Z;
  lastReset : Z
}.

Record State := mkState {
  sessions : gmap string RelaySession;
  rateLimits : gmap string RateEntry;
  sockets : gmap positive Socket;
  console : list logline
}.

Definition set_sessions (f : gmap string RelaySession -> gmap string RelaySession)
  (st : State) : State :=
  mkState (f (sessions st)) (rateLimits st) (sockets st) (console st).

Definition set_rateLimits (f : gmap string RateEntry -> gmap string RateEntry)
  (st : State) : State :=
  mkState (sessions st) (f (rateLimits st)) (sockets st) (console st).

Definition set_sockets (f : gmap positive Socket -> gmap positive Socket)
  (st : State) : State :=
  mkState (sessions st) (rateLimits st) (f (sockets st)) (console st).

Definition log (l : logline) (st : State) : State :=
  mkState (sessions st) (rateLimits st) (sockets st) (console st ++ [l]).

Definition M : Type -> Type := Handler State.

(** *** Sockets *)

(** [ws.send(frame)]: transmitted when the socket is OPEN, dropped
    otherwise. *)
Definition send_on (f : frame) (s : Socket) : Socket :=
  if is_open (readyState s)
  then mkSocket (remoteAddress s) (readyState s) (role s) (session s)
         (sent s ++ [f]) (closeCalls s)
  else s.

Definition ws_send (ws : sockid) (f : frame) (st : State) : State :=
  set_sockets (alter (send_on f) ws) st.

(** [ws.close(code, reason)]: the call is recorded; an OPEN socket starts
    its closing handshake. *)
Definition close_on (code : Z) (reason : string) (s : Socket) : Socket :=
  mkSocket (remoteAddress s)
    (if is_open (readyState s) then CLOSING else readyState s)
    (role s) (session s) (sent s) (closeCalls s ++ [(code, reason)]).

Definition ws_close (ws : sockid) (code : Z) (reason : string) (st : State) : State :=
  set_sockets (alter (close_on code reason) ws) st.

(** [ws.role = role; ws.session = roomCode] *)
Definition assign (r room : string) (s : Socket) : Socket :=
  mkSocket (remoteAddress s) (readyState s) (Some r) (Some room) (sent s) (closeCalls s).

(** The socket once its connection is gone. *)
Definition mark_closed (s : Socket) : Socket :=
  mkSocket (remoteAddress s) CLOSED (role s) (session s) (sent s) (closeCalls s).

Definition ws_isOpen (ws : sockid) (st : State) : bool :=
  match sockets st !! ws with
  | Some s => is_open (readyState s)
  | None => false
  end.

Definition ws_session (ws : sockid) (st : State) : option string :=
  match sockets st !! ws with
  | Some s => session s
  | None => None
  end.

Definition ws_role (ws : sockid) (st : State) : option string :=
  match sockets st !! ws with
  | Some s => role s
  | None => None
  end.

Definition ws_remoteAddress (ws : sockid) (st : State) : string :=
  match sockets st !! ws with
  | Some s => remoteAddress s
  | None => EmptyString
  end.

Definition same_socket (a : option sockid) (ws : sockid) : bool :=
  match a with
  | Some x => Pos.eqb x ws
  | None => false
  end.

(** *** class RelaySession *)

Definition set_host (ws : option sockid) (s : RelaySession) : RelaySession :=
  mkSession (roomCode s) ws (guest s) (createdAt s) (lastActivity s) (messageCount s).

Definition set_guest (ws : option sockid) (s : RelaySession) : RelaySession :=
  mkSession (roomCode s) (host s) ws (createdAt s) (lastActivity s) (messageCount s).

(** [this.lastActivity = Date.now()] *)
Definition touch (now : Z) (s : RelaySession) : RelaySession :=
  mkSession (roomCode s) (host s) (guest s) (createdAt s) now (messageCount s).

(** [this.messageCount++; this.lastActivity = Date.now()] *)
Definition count_forward (now : Z) (s : RelaySession) : RelaySession :=
  mkSession (roomCode s) (host s) (guest s) (createdAt s) now (S (messageCount s)).

Definition new_RelaySession (now : Z) (room : string) : RelaySession :=
  mkSession room None None now now 0.

(** [addPlayer(ws, role)] on the session stored under [room]. *)
Definition addPlayer (now : Z) (room : string) (ws : sockid) (r : string)
  (st : State) : State :=
  match sessions st !! room with
  | None => st
  | Some s =>
    let st1 :=
      if String.eqb r "host" then
        let st0 := match host s with
                   | Some old => ws_close old 1000 "Replaced by new host" st
                   | None => st
                   end in
        set_sessions (alter (set_host (Some ws)) room) st0
      else if String.eqb r "guest" then
        let st0 := match guest s with
                   | Some old => ws_close old 1000 "Replaced by new guest" st
                   | None => st
                   end in
        set_sessions (alter (set_guest (Some ws)) room) st0
      else st in
    let st2 := set_sockets (alter (assign r (roomCode s)) ws) st1 in
    set_sessions (alter (touch now) room) st2
  end.

(** The body of [removePlayer(ws)], on the session record. *)
Definition vacate (now : Z) (ws : sockid) (s : RelaySession) : RelaySession :=
  touch now
    (if same_socket (host s) ws then set_host None s
     else if same_socket (guest s) ws then set_guest None s
     else s).

(** [removePlayer(ws)] on the session stored under [room]. *)
Definition removePlayer (now : Z) (room : string) (ws : sockid) (st : State) : State :=
  set_sessions (alter (vacate now ws) room) st.

Definition isEmpty (s : RelaySession) : bool :=
  negb (bool_decide (is_Some (host s))) && negb (bool_decide (is_Some (guest s))).

Definition isExpired (now : Z) (s : RelaySession) : bool :=
  Z.ltb (5 * 60 * 1000) (now - lastActivity s).

(** [forwardMessage(fromWs, message)] on the session stored under [room];
    the result is the method's boolean. *)
Definition forwardMessage (now : Z) (room : string) (fromWs : sockid) (m : message)
  (st : State) : bool * State :=
  match sessions st !! room with
  | None => (false, st)
  | Some s =>
    let targetWs := if same_socket (host s) fromWs then guest s else host s in
    match targetWs with
    | Some t =>
      if ws_isOpen t st then
        (true,
         set_sessions (alter (count_forward now) room) (ws_send t (Forwarded m) st))
      else (false, st)
    | None => (false, st)
    end
  end.

(** *** checkRateLimit *)
Definition checkRateLimit (now : Z) (ws : sockid) : M unit := fun st =>
  let ip := ws_remoteAddress ws st in
  let st1 := match rateLimits st !! ip with
             | Some _ => st
             | None => set_rateLimits (insert ip (mkRate [] now)) st
             end in
  let limits := default (mkRate [] now) (rateLimits st1 !! ip) in
  let limits1 := if Z.leb 1000 (now - lastReset limits)
                 then mkRate [] now else limits in
  let st2 := set_rateLimits (insert ip limits1) st1 in
  if Nat.leb MAX_MESSAGES_PER_SECOND (length (messages limits1))
  then (inr "RATE_LIMITED", st2)
  else (inl tt, set_rateLimits
                  (insert ip (mkRate (messages limits1 ++ [now]) (lastReset limits1))) st2).

(** *** The message handlers *)

Definition handleRoleMessage (now : Z) (ws : sockid) (m : message) : M unit :=
  if negb (truthy (m_role m)) || negb (truthy (m_room m)) then
    exec (log ErrInvalidRoleMessage) ;;; throw "INVALID_ROLE_MESSAGE"
  else
    let r := default EmptyString (m_role m) in
    let room := default EmptyString (m_room m) in
    if negb (String.eqb r "host") && negb (String.eqb r "guest") then
      throw "INVALID_ROLE"
    else
      exec (fun st => match sessions st !! room with
                      | Some _ => st
                      | None => set_sessions (insert room (new_RelaySession now room)) st
                      end) ;;;
      exec (addPlayer now room ws r) ;;;
      exec (ws_send ws (RoleAck r room)).

Definition handleInputMessage (now : Z) (ws : sockid) (m : message) : M unit :=
  fun st =>
  if negb (truthy (ws_session ws st)) then (inr "NOT_IN_SESSION", st)
  else
    let room := default EmptyString (ws_session ws st) in
    match sessions st !! room with
    | None => (inr "SESSION_NOT_FOUND", st)
    | Some _ =>
      if negb (bool_decide (ws_role ws st = Some "guest")) then
        (inl tt, log (WarnHostInput room) st)
      else
        match forwardMessage now room ws m st with
        | (true, st') => (inl tt, st')
        | (false, st') => (inl tt, log (WarnInputNotForwarded room) st')
        end
    end.

Definition handleStateMessage (now : Z) (ws : sockid) (m : message) : M unit :=
  fun st =>
  if negb (truthy (ws_session ws st)) then (inr "NOT_IN_SESSION", st)
  else
    let room := default EmptyString (ws_session ws st) in
    match sessions st !! room with
    | None => (inr "SESSION_NOT_FOUND", st)
    | Some _ =>
      if negb (bool_decide (ws_role ws st = Some "host")) then
        (inl tt, log (WarnGuestState room) st)
      else
        match forwardMessage now room ws m st with
        | (true, st') => (inl tt, st')
        | (false, st') => (inl tt, log (WarnStateNotForwarded room) st')
        end
    end.

Definition handlePingMessage (now : Z) (ws : sockid) : M unit :=
  exec (ws_send ws Pong) ;;;
  exec (fun st =>
    if truthy (ws_session ws st) then
      set_sessions (alter (touch now) (default EmptyString (ws_session ws st))) st
    else st).

Definition sendError (ws : sockid) (code : string) (st : State) : State :=
  if ws_isOpen ws st then ws_send ws (ErrorFrame code) st else st.

(** The body of the [try] block of [handleMessage]. *)
Definition handleMessage_try (now : Z) (ws : sockid) (data : rawdata) : M unit :=
  (if Z.ltb MAX_MESSAGE_SIZE (d_length data)
   then throw "MESSAGE_TOO_LARGE" else ret tt) ;;;
  checkRateLimit now ws ;;;
  match d_json data with
  | inl e => throw e
  | inr m =>
    if String.eqb (m_type m) "role" then handleRoleMessage now ws m
    else if String.eqb (m_type m) "input" then handleInputMessage now ws m
    else if String.eqb (m_type m) "state" then handleStateMessage now ws m
    else if String.eqb (m_type m) "ping" then handlePingMessage now ws
    else exec (log (WarnUnknownType (m_type m)))
  end.

(** [handleMessage(ws, data)]: the result keeps what the [catch] caught. *)
Definition handleMessage (now : Z) (ws : sockid) (data : rawdata) : M unit :=
  fun st =>
  match handleMessage_try now ws data st with
  | (inl tt, st') => (inl tt, st')
  | (inr e, st') =>
    (inr e, sendError ws (if String.eqb e EmptyString then "INTERNAL_ERROR" else e)
              (log (ErrHandling e) st'))
  end.

(** The ['close'] listener of a connection.  The socket is CLOSED when the
    event is delivered. *)
Definition onClose (now : Z) (ws : sockid) (st : State) : State :=
  let st0 := set_sockets (alter mark_closed ws) st in
  if truthy (ws_session ws st0) then
    let room := default EmptyString (ws_session ws st0) in
    match sessions st0 !! room with
    | None => st0
    | Some _ =>
      let st1 := removePlayer now room ws st0 in
      match sessions st1 !! room with
      | None => st1
      | Some s =>
        let otherWs := if same_socket (host s) ws then guest s else host s in
        match otherWs with
        | Some o =>
          if ws_isOpen o st1
          then ws_send o (PlayerDisconnected (ws_role ws st1)) st1
          else st1
        | None => st1
        end
      end
    end
  else st0.

(** [cleanupExpiredSessions], the 30-second sweep. *)
Definition cleanupExpiredSessions (now : Z) (st : State) : State :=
  set_rateLimits (filter (fun kv => negb (Z.ltb (lastReset (snd kv)) (now - 60 * 1000)) = true))
    (set_sessions (filter (fun kv => (isEmpty (snd kv) || isExpired now (snd kv)) = false)) st).

(** Field [proj] of socket [k] reads the same in [st'] as in [st]. *)
Definition keeps {A : Type} (proj : Socket -> A) (k : sockid) (st st' : State) : Prop :=
  proj <$> (sockets st' !! k) = proj <$> (sockets st !! k).

(** *** The server as a transition system *)

(** What the event loop delivers, one handler run at a time. *)
Inductive event :=
| Connection (ws : sockid) (ip : string)
| Incoming (now : Z) (ws : sockid) (data : rawdata)
| Closed (now : Z) (ws : sockid)
| Sweep (now : Z).

Definition init : State := mkState ∅ ∅ ∅ [].

(** [wss.on('connection')] creates a socket object that did not exist. *)
Definition onConnection (ws : sockid) (ip : string) (st : State) : State :=
  match sockets st !! ws with
  | Some _ => st
  | None => set_sockets (insert ws (mkSocket ip OPEN None None [] [])) st
  end.

Definition step (st : State) (e : event) : State :=
  match e with
  | Connection ws ip => onConnection ws ip st
  | Incoming now ws data => snd (handleMessage now ws data st)
  | Closed now ws => onClose now ws st
  | Sweep now => cleanupExpiredSessions now st
  end.

Definition run (evs : list event) (st : State) : State := fold_left step evs st.

(** [ws] sends no [role] message in the trace. *)
Definition role_from (ws : sockid) (e : event) : bool :=
  match e with
  | Incoming _ ws' data =>
    Pos.eqb ws' ws &&
    match d_json data with
    | inr m => String.eqb (m_type m) "role"
    | inl _ => false
    end
  | _ => false
  end.

(** *** Role replacement *)

(** The slot of a session a role names. *)
Definition slot (r : string) (s : RelaySession) : option sockid :=
  if String.eqb r "host" then host s
  else if String.eqb r "guest" then guest s
  else None.



(** *** Bursts of messages *)

(** A message on the wire: arrival time, socket, data. *)
Definition arrival : Type := Z * sockid * rawdata.
Definition a_now (a : arrival) : Z := fst (fst a).
Definition a_ws (a : arrival) : sockid := snd (fst a).
Definition a_data (a : arrival) : rawdata := snd a.

Definition deliver (st : State) (a : arrival) : State :=
  snd (handleMessage (a_now a) (a_ws a) (a_data a) st).

Definition deliver_all (l : list arrival) (st : State) : State :=
  fold_left deliver l st.

(** The limiter lets the message through: it reaches [JSON.parse] and the
    dispatch. *)
Definition processed (st : State) (a : arrival) : Prop :=
  d_length (a_data a) <= MAX_MESSAGE_SIZE /\
  fst (checkRateLimit (a_now a) (a_ws a) st) = inl tt.

(** The message is refused by the limiter: the handler catches
    [RATE_LIMITED], the sender is sent the [error] frame when its socket
    is OPEN, and nothing closes the socket. *)
Definition rate_limited (st : State) (a : arrival) : Prop :=
  exists st', handleMessage (a_now a) (a_ws a) (a_data a) st = (inr "RATE_LIMITED", st') /\
    sessions st' = sessions st /\
    forall sk, sockets st !! a_ws a = Some sk ->
      exists sk', sockets st' !! a_ws a = Some sk' /\
        readyState sk' = readyState sk /\ closeCalls sk' = closeCalls sk /\
        (readyState sk = OPEN -> sent sk' = (sent sk ++ [ErrorFrame "RATE_LIMITED"])%list).

(** The first message of a burst at [t0] opens a window of the limiter: the
    address has no entry, or its window began a second or more before. *)
Definition fresh_window (ip : string) (t0 : Z) (st : State) : Prop :=
  match rateLimits st !! ip with
  | None => True
  | Some e => 1000 <= t0 - lastReset e
  end.

(** A burst of [ip]: every message comes from a socket of that address, is
    within the size limit, and arrives less than a second after [t0]. *)
Definition burst_of (ip : string) (t0 : Z) (st : State) (l : list arrival) : Prop :=
  Forall (fun a => remoteAddress <$> (sockets st !! a_ws a) = Some ip /\
                   d_length (a_data a) <= MAX_MESSAGE_SIZE /\
                   t0 <= a_now a < t0 + 1000) l.

(** The window of [ip] after [j] messages of a burst at [t0]. *)
Definition window_state (ip : string) (t0 : Z) (j : nat) (st : State) : Prop :=
  match j with
  | O => fresh_window ip t0 st
  | S _ => exists e, rateLimits st !! ip = Some e /\ t0 <= lastReset e /\
                     length (messages e) = j
  end.

(** The scenario of the specification, for any 61 messages of one address
    that arrive within one second. *)
Definition sixty_one_scenario (ip : string) (t0 : Z) (st : State)
  (l : list arrival) (a : arrival) : Prop :=
  (forall k ak, l !! k = Some ak -> processed (deliver_all (take k l) st) ak) /\
  rate_limited (deliver_all l st) a.


(** *** Replies to [input] *)

(** The reply to an [input] of a socket without a session. *)
Definition not_in_session_reply (now : Z) (ws : sockid) (data : rawdata)
  (st : State) (sk : Socket) : Prop :=
  exists st', handleMessage now ws data st = (inr "NOT_IN_SESSION", st') /\
    sessions st' = sessions st /\
    exists sk', sockets st' !! ws = Some sk' /\
      sent sk' = (sent sk ++ [ErrorFrame "NOT_IN_SESSION"])%list.

(** The soft-fail policy of [input] for a sender whose session is [room]
    and exists: dropped with a warning when the sender's role is not
    [guest], or when it is and the host slot is empty or holds another
    socket that is not OPEN; in both cases the handler returns, so that no
    [error] frame is written.  A message that changes the socket store was
    sent by a socket whose role is [guest]. *)
Definition input_soft_fail (now : Z) (ws : sockid) (data : rawdata) (st : State)
  (sk : Socket) (room : string) (s : RelaySession) : Prop :=
  let st1 := snd (checkRateLimit now ws st) in
  (role sk <> Some "guest" ->
     handleMessage now ws data st = (inl tt, log (WarnHostInput room) st1)) /\
  (role sk = Some "guest" ->
     host s = None \/ (exists h, host s = Some h /\ h <> ws /\ ws_isOpen h st = false) ->
     handleMessage now ws data st = (inl tt, log (WarnInputNotForwarded room) st1)) /\
  (sockets (snd (handleMessage now ws data st)) <> sockets st -> role sk = Some "guest").

(** *** Scenarios *)

Definition role_msg (r room : string) : message :=
  Message "role" (Some r) (Some room) EmptyString.
Definition input_msg : message := Message "input" None None "seq=1".
Definition ping_msg : message := Message "ping" None None EmptyString.
Definition json (m : message) : rawdata := RawData 64 (inr m).

(** One connection, nothing sent. *)
Definition connected : State := run [Connection 1 "10.0.0.1"] init.

(** Socket 1 is the host of session R. *)
Definition host_joined : State :=
  run [Connection 1 "10.0.0.1"; Incoming 0 1 (json (role_msg "host" "R"))] init.

(** Socket 1 is the host of session R and socket 2 is connected. *)
Definition host_and_newcomer : State :=
  run [Connection 1 "10.0.0.1"; Incoming 0 1 (json (role_msg "host" "R"));
       Connection 2 "10.0.0.2"] init.

(** The address of socket 1 sent one message at time 0. *)
Definition window_open_at_0 : State :=
  run [Connection 1 "10.0.0.1"; Incoming 0 1 (json ping_msg)] init.

Definition pings (n : nat) (now : Z) : list arrival :=
  replicate n (now, 1%positive, json ping_msg).

(** *** Silent drops of [input] *)

(** The sender of a dropped message is sent nothing. *)
Definition silently_dropped (now : Z) (ws : sockid) (data : rawdata) (st : State) : Prop :=
  forall sk, sockets st !! ws = Some sk ->
    exists sk', sockets (snd (handleMessage now ws data st)) !! ws = Some sk' /\
                sent sk' = sent sk.


(** *** Messages that fail *)

(** [error.message || 'INTERNAL_ERROR'] *)
Definition error_code (e : string) : string :=
  if String.eqb e EmptyString then "INTERNAL_ERROR" else e.

(** What a message that ended in the error [e] leaves behind: the sessions
    as they were, and the socket store as [sendError] to the sender makes
    it. *)
Definition only_error_reply (ws : sockid) (e : string) (st st' : State) : Prop :=
  sessions st' = sessions st /\
  sockets st' = sockets (sendError ws (error_code e) st).

(** *** Joining a session *)

(** The slot a role does not name. *)
Definition other_slot (r : string) (s : RelaySession) : option sockid :=
  if String.eqb r "host" then guest s else host s.

(** [ws] joined the session of [room] as [r]: the session exists, created
    by this message if it did not, [ws] is in the slot and labelled, the
    other slot and the other sessions are as they were, and [ws] was sent
    the [role-ack] unless the handler closed it. *)
Record joined (now : Z) (r room : string) (ws : sockid) (st st' : State) : Prop := {
  j_session : exists s',
    sessions st' !! room = Some s' /\ slot r s' = Some ws /\ lastActivity s' = now /\
    match sessions st !! room with
    | Some s => other_slot r s' = other_slot r s /\ createdAt s' = createdAt s /\
                messageCount s' = messageCount s /\ roomCode s' = roomCode s
    | None => other_slot r s' = None /\ createdAt s' = now /\
              messageCount s' = 0%nat /\ roomCode s' = room
    end;
  j_others : forall k, k <> room -> sessions st' !! k = sessions st !! k;
  j_socket : forall sk, sockets st !! ws = Some sk ->
    exists sk', sockets st' !! ws = Some sk' /\
      role sk' = Some r /\
      session sk' = roomCode <$> (sessions st' !! room) /\
      sent sk' = if is_open (readyState sk') then (sent sk ++ [RoleAck r room])%list
                 else sent sk;
  j_bystanders : forall k, k <> ws ->
    (forall s, sessions st !! room = Some s -> slot r s <> Some k) ->
    sockets st' !! k = sockets st !! k
}.

(** The three ways a [role] message ends. *)
Definition role_outcome (now : Z) (ws : sockid) (m : message) (st : State)
  (res : (unit + string) * State) : Prop :=
  match m_role m, m_room m with
  | Some r, Some room =>
    if String.eqb r EmptyString || String.eqb room EmptyString
    then fst res = inr "INVALID_ROLE_MESSAGE" /\ only_error_reply ws "INVALID_ROLE_MESSAGE" st (snd res)
    else if String.eqb r "host" || String.eqb r "guest"
    then fst res = inl tt /\ joined now r room ws st (snd res)
    else fst res = inr "INVALID_ROLE" /\ only_error_reply ws "INVALID_ROLE" st (snd res)
  | _, _ => fst res = inr "INVALID_ROLE_MESSAGE" /\
            only_error_reply ws "INVALID_ROLE_MESSAGE" st (snd res)
  end.

(** *** Forwarding *)

(** The message [m] reached [t]: it was written to [t] as it came, the
    session of [room] counted it, and nothing else was written. *)
Definition forwarded_to (now : Z) (room : string) (t : sockid) (m : message)
  (st st' : State) : Prop :=
  sockets st' = alter (send_on (Forwarded m)) t (sockets st) /\
  sessions st' = alter (count_forward now) room (sessions st) /\
  console st' = console st.

Definition delivers (now : Z) (ws : sockid) (data : rawdata) (m : message)
  (room : string) (t : sockid) (st : State) : Prop :=
  exists st', handleMessage now ws data st = (inl tt, st') /\
              forwarded_to now room t m st st'.

(** A session with its two players: [h] in the host slot and labelled
    host, [g] in the guest slot and labelled guest, both OPEN. *)
Record paired (room : string) (h g : sockid) (st : State) : Prop := {
  p_room : room <> EmptyString;
  p_session : exists s, sessions st !! room = Some s /\ host s = Some h /\ guest s = Some g;
  p_distinct : h <> g;
  p_host : exists sk, sockets st !! h = Some sk /\ role sk = Some "host" /\
                      session sk = Some room /\ readyState sk = OPEN;
  p_guest : exists sk, sockets st !! g = Some sk /\ role sk = Some "guest" /\
                       session sk = Some room /\ readyState sk = OPEN
}.

(** Both directions of the relay. *)
Definition exchange (now : Z) (room : string) (h g : sockid) (data : rawdata)
  (m : message) (st : State) : Prop :=
  (m_type m = "input" -> processed st (now, g, data) -> delivers now g data m room h st) /\
  (m_type m = "state" -> processed st (now, h, data) -> delivers now h data m room g st).

(** *** The ['close'] event *)

(** What the ['close'] event of [ws] does to the session [s] of [room] it
    belongs to.  From the host slot: the slot is emptied and no socket is
    written to.  From the guest slot, the host slot being held by [h]: the
    slot is emptied and [h], when OPEN, is sent [player_disconnected]. *)
Definition close_outcome (now : Z) (ws : sockid) (sk : Socket) (room : string)
  (s : RelaySession) (st : State) : Prop :=
  (host s = Some ws ->
     sockets (onClose now ws st) = alter mark_closed ws (sockets st) /\
     sessions (onClose now ws st) !! room = Some (touch now (set_host None s))) /\
  (forall h, host s = Some h -> h <> ws -> guest s = Some ws ->
     sockets (onClose now ws st) =
       (if ws_isOpen h st
        then alter (send_on (PlayerDisconnected (role sk))) h (alter mark_closed ws (sockets st))
        else alter mark_closed ws (sockets st)) /\
     sessions (onClose now ws st) !! room = Some (touch now (set_guest None s))).

(** *** The sweep *)

(** After the sweep removed the session of a socket, the socket's [input]
    and [state] are answered [SESSION_NOT_FOUND], and its [ping] is
    answered without the session coming back. *)
Definition session_gone (now : Z) (ws : sockid) (data : rawdata) (m : message)
  (room : string) (st : State) : Prop :=
  sessions st !! room = None /\
  (m_type m = "input" \/ m_type m = "state" ->
     fst (handleMessage now ws data st) = inr "SESSION_NOT_FOUND" /\
     only_error_reply ws "SESSION_NOT_FOUND" st (snd (handleMessage now ws data st))) /\
  (m_type m = "ping" ->
     fst (handleMessage now ws data st) = inl tt /\
     sessions (snd (handleMessage now ws data st)) = sessions st /\
     sockets (snd (handleMessage now ws data st)) = alter (send_on Pong) ws (sockets st)).

(** *** Invariants of the server *)

(** The limiter never holds more than the limit for an address. *)
Definition limiter_bounded (st : State) : Prop :=
  forall ip e, rateLimits st !! ip = Some e ->
    (length (messages e) <= MAX_MESSAGES_PER_SECOND)%nat.

(** Sessions are stored under their own code, which is not empty, and a
    socket that has a session is labelled host or guest. *)
Record consistent (st : State) : Prop := {
  c_key : forall k s, sessions st !! k = Some s -> roomCode s = k /\ k <> EmptyString;
  c_label : forall ws sk room, sockets st !! ws = Some sk -> session sk = Some room ->
    room <> EmptyString /\ (role sk = Some "host" \/ role sk = Some "guest");
  c_unlabelled : forall ws sk, sockets st !! ws = Some sk -> session sk = None ->
    role sk = None
}.

(** *** More scenarios *)

Definition state_msg : message := Message "state" None None "seq=1".

(** Socket 1 is the host and socket 2 the guest of session R. *)
Definition duel : State :=
  run [Connection 1 "10.0.0.1"; Incoming 0 1 (json (role_msg "host" "R"));
       Connection 2 "10.0.0.2"; Incoming 0 2 (json (role_msg "guest" "R"))] init.

(** Socket 3 replaced socket 1 as the host of the duel. *)
Definition rehosted : State :=
  run [Connection 3 "10.0.0.3"; Incoming 10 3 (json (role_msg "host" "R"))] duel.

(** A [ping] at time [t] of a socket in the session [s] of [room]: the
    [pong] is written to the sender, the session records the time, and a
    sweep at [now] keeps it. *)
Definition kept_alive (t now : Z) (ws : sockid) (room : string) (s : RelaySession)
  (st st' : State) : Prop :=
  sockets st' = alter (send_on Pong) ws (sockets st) /\
  sessions st' !! room = Some (touch t s) /\
  sessions (cleanupExpiredSessions now st') !! room = Some (touch t s).

(** The slot [ws] held in the session of [room] after [ws] moved to
    another session with the message [m], and after its ['close'] event
    at [now']: [ws] is still in it. *)
Definition slot_left_behind (now now' : Z) (ws : sockid) (data : rawdata) (r room : string)
  (st : State) : Prop :=
  let st' := snd (handleMessage now ws data st) in
  (exists s, sessions st' !! room = Some s /\ slot r s = Some ws) /\
  (exists s, sessions (onClose now' ws st') !! room = Some s /\ slot r s = Some ws /\
             isEmpty s = false).

(** What the limiter's table is after a message: an oversized message is
    refused before the limiter and leaves the table alone; any other
    message leaves it as [checkRateLimit] made it, whatever the parser and
    the handlers did. *)
Definition limiter_charge (now : Z) (ws : sockid) (data : rawdata) (st : State) : Prop :=
  let res := handleMessage now ws data st in
  if Z.ltb MAX_MESSAGE_SIZE (d_length data)
  then fst res = inr "MESSAGE_TOO_LARGE" /\ rateLimits (snd res) = rateLimits st /\
       only_error_reply ws "MESSAGE_TOO_LARGE" st (snd res)
  else rateLimits (snd res) = rateLimits (snd (checkRateLimit now ws st)).

(** A message of 9000 bytes. *)
Definition oversized : rawdata := RawData 9000 (inr ping_msg).
End Relay.

(** ** The signaling server (the [ws] server with [rooms], port 3001) *)
Module Signaling.

Definition ROOM_TTL_IDLE : Z := 2 * 60 * 1000.
Definition ROOM_TTL_MAX : Z := 30 * 60 * 1000.

Definition BASE32_ALPHABET : string := "ABCDEFGHJKLMNPQRSTUVWXYZ23456".

(** A parsed JSON message; [m_payload] stands for the payload of a
    [signal], which the server never reads. *)
Record message := Message {
  m_type : string;
  m_role : option string;
  m_room : option string;
  m_payload : string
}.

(** [generateTurnCredentials]: the credential is the hex text of 16 random
    bytes, kept here as the bytes. *)
Record TurnCredentials := mkTurn {
  urls : list string;
  username : string;
  credential : list byte
}.

Inductive frame :=
| HelloAck (room role : string) (turn : TurnCredentials)
| ErrorFrame (code : string)
| Ping
| Relayed (m : message)
| PlayerDisconnected (role : option string).

Record Socket := mkSocket {
  remoteAddress : string;
  readyState : ReadyState;
  role : option string;
  room : option string;
  sent : list frame
}.

Record Room := mkRoom {
  code : string;
  host : option sockid;
  guest : option sockid;
  createdAt : Z;
  lastActivity : Z;
  heartbeatTimer : bool
}.

Record RateLimit := mkLimit {
  handshakes : list Z;
  roomCount : nat
}.

(** The process: the two tables, the sockets, and the bytes that
    [crypto.randomBytes] will return, [drawn] of them being used up. *)
Record State := mkState {
  rooms : gmap string Room;
  rateLimits : gmap string RateLimit;
  sockets : gmap positive Socket;
  entropy : nat -> byte;
  drawn : nat
}.

Definition M : Type -> Type := Handler State.

Definition set_rooms (f : gmap string Room -> gmap string Room) (st : State) : State :=
  mkState (f (rooms st)) (rateLimits st) (sockets st) (entropy st) (drawn st).

Definition set_rateLimits (f : gmap string RateLimit -> gmap string RateLimit)
  (st : State) : State :=
  mkState (rooms st) (f (rateLimits st)) (sockets st) (entropy st) (drawn st).

Definition set_sockets (f : gmap positive Socket -> gmap positive Socket)
  (st : State) : State :=
  mkState (rooms st) (rateLimits st) (f (sockets st)) (entropy st) (drawn st).

(** [crypto.randomBytes(n)] *)
Definition randomBytes (n : nat) : M (list byte) := fun st =>
  (inl (map (entropy st) (seq (drawn st) n)),
   mkState (rooms st) (rateLimits st) (sockets st) (entropy st) (drawn st + n)).

(** *** Sockets *)

Definition send_on (f : frame) (s : Socket) : Socket :=
  if is_open (readyState s)
  then mkSocket (remoteAddress s) (readyState s) (role s) (room s) (sent s ++ [f])
  else s.

Definition ws_send (ws : sockid) (f : frame) (st : State) : State :=
  set_sockets (alter (send_on f) ws) st.

(** [ws.role = role; ws.room = this.code] *)
Definition assign (r c : string) (s : Socket) : Socket :=
  mkSocket (remoteAddress s) (readyState s) (Some r) (Some c) (sent s).

Definition ws_isOpen (ws : sockid) (st : State) : bool :=
  match sockets st !! ws with
  | Some s => is_open (readyState s)
  | None => false
  end.

Definition ws_room (ws : sockid) (st : State) : option string :=
  match sockets st !! ws with
  | Some s => room s
  | None => None
  end.

Definition ws_remoteAddress (ws : sockid) (st : State) : string :=
  match sockets st !! ws with
  | Some s => remoteAddress s
  | None => EmptyString
  end.

(** *** class Room *)

Definition new_Room (now : Z) (c : string) : Room :=
  mkRoom c None None now now false.

(** [addPlayer(ws, role)] on a room object; the result is the object after
    the call.  [startHeartbeat] arms the interval timer once. *)
Definition addPlayer (now : Z) (ws : sockid) (r : string) (rm : Room) : M Room :=
  if String.eqb r "host" then
    match host rm with
    | Some _ => throw "ROOM_FULL"
    | None =>
      exec (set_sockets (alter (assign "host" (code rm)) ws)) ;;;
      ret (mkRoom (code rm) (Some ws) (guest rm) (createdAt rm) now true)
    end
  else if String.eqb r "guest" then
    match guest rm with
    | Some _ => throw "ROOM_FULL"
    | None =>
      exec (set_sockets (alter (assign "guest" (code rm)) ws)) ;;;
      ret (mkRoom (code rm) (host rm) (Some ws) (createdAt rm) now (heartbeatTimer rm))
    end
  else
    ret (mkRoom (code rm) (host rm) (guest rm) (createdAt rm) now (heartbeatTimer rm)).

Definition isExpired (now : Z) (rm : Room) : bool :=
  Z.ltb ROOM_TTL_IDLE (now - lastActivity rm) || Z.ltb ROOM_TTL_MAX (now - createdAt rm).

(** [broadcast(message, excludeWs)] *)
Definition broadcast (rm : Room) (f : frame) (excludeWs : option sockid) (st : State) : State :=
  let to (slot : option sockid) (st : State) : State :=
    match slot with
    | Some p =>
      if negb (bool_decide (Some p = excludeWs)) && ws_isOpen p st
      then ws_send p f st else st
    | None => st
    end in
  to (guest rm) (to (host rm) st).

(** *** generateRoomCode *)

(** [s[i]] appended to a string: a character, or the text of [undefined]
    past the end. *)
Definition charAt (s : string) (i : nat) : string :=
  match String.get i s with
  | Some c => String c EmptyString
  | None => "undefined"
  end.

Definition byte_at (bytes : list byte) (i : nat) : nat :=
  Byte.to_nat (nth i bytes Byte.x00).

(** The loop of [generateRoomCode] over the four bytes drawn. *)
Definition code_of_bytes (bytes : list byte) : string :=
  fold_left
    (fun code i =>
       let index := (byte_at bytes (i mod 4) mod String.length BASE32_ALPHABET)%nat in
       code +:+ charAt BASE32_ALPHABET index)
    (seq 0 6) EmptyString.

Definition generateRoomCode : M string :=
  let* bytes := randomBytes 4 in ret (code_of_bytes bytes).

Definition generateTurnCredentials (roomCode : string) : M TurnCredentials :=
  let* bytes := randomBytes 16 in
  ret (mkTurn ["stun:stun.l.google.com:19302"; "stun:stun1.l.google.com:19302"]
         ("user_" +:+ roomCode) bytes).

(** *** checkRateLimit *)
Definition checkRateLimit (now : Z) (ip : string) : M unit := fun st =>
  let windowSize := 10 * 60 * 1000 in
  let maxHandshakes := 30%nat in
  let maxConcurrentRooms := 5%nat in
  let limits := default (mkLimit [] 0) (rateLimits st !! ip) in
  let limits1 := mkLimit (List.filter (fun time => Z.ltb (now - time) windowSize)
                            (handshakes limits)) (roomCount limits) in
  let st1 := set_rateLimits (insert ip limits1) st in
  if Nat.leb maxHandshakes (length (handshakes limits1)) then (inr "RATE_LIMITED", st1)
  else if Nat.leb maxConcurrentRooms (roomCount limits1) then (inr "RATE_LIMITED", st1)
  else (inl tt, set_rateLimits
                  (insert ip (mkLimit (handshakes limits1 ++ [now]) (roomCount limits1))) st1).

(** [limits.rooms++] on the entry of [ip]. *)
Definition count_room (ip : string) (st : State) : State :=
  set_rateLimits (alter (fun l => mkLimit (handshakes l) (S (roomCount l))) ip) st.

(** *** handleHello *)

(** The [do ... while (rooms.has(code))] loop.  [left] is the number of
    further candidates the loop may still test: the body that runs with
    [left = 0] is the one whose increment makes [attempts > 10]. *)
Fixpoint uniqueCode (left : nat) : M string :=
  let* c := generateRoomCode in
  match left with
  | O => throw "ROOM_GENERATION_FAILED"
  | S left' =>
    let* taken := gets (fun st => bool_decide (is_Some (rooms st !! c))) in
    if taken then uniqueCode left' else ret c
  end.

Definition handleHello (now : Z) (ws : sockid) (m : message) : M unit :=
  let* ip := gets (ws_remoteAddress ws) in
  checkRateLimit now ip ;;;
  if bool_decide (m_role m = Some "host") then
    let* c := uniqueCode 10 in
    let* rm := addPlayer now ws "host" (new_Room now c) in
    exec (set_rooms (insert c rm)) ;;;
    exec (count_room ip) ;;;
    let* turn := generateTurnCredentials c in
    exec (ws_send ws (HelloAck c "host" turn))
  else if bool_decide (m_role m = Some "guest") then
    if negb (truthy (m_room m)) then throw "ROOM_CODE_REQUIRED"
    else
      let roomCode := default EmptyString (m_room m) in
      let* found := gets (fun st => rooms st !! roomCode) in
      match found with
      | None => throw "ROOM_NOT_FOUND"
      | Some rm =>
        if isExpired now rm then
          exec (set_rooms (delete roomCode)) ;;; throw "ROOM_EXPIRED"
        else
          let* rm' := addPlayer now ws "guest" rm in
          exec (set_rooms (insert roomCode rm')) ;;;
          exec (count_room ip) ;;;
          let* turn := generateTurnCredentials roomCode in
          exec (ws_send ws (HelloAck roomCode "guest" turn))
      end
  else throw "INVALID_ROLE".

Definition handleSignal (now : Z) (ws : sockid) (m : message) : M unit := fun st =>
  if negb (truthy (ws_room ws st)) then (inr "NOT_IN_ROOM", st)
  else
    let c := default EmptyString (ws_room ws st) in
    match rooms st !! c with
    | None => (inr "ROOM_NOT_FOUND", st)
    | Some rm =>
      (inl tt,
       set_rooms (alter (fun rm => mkRoom (code rm) (host rm) (guest rm) (createdAt rm)
                                     now (heartbeatTimer rm)) c)
         (broadcast rm (Relayed m) (Some ws) st))
    end.

Definition sendError (ws : sockid) (c : string) (st : State) : State :=
  if ws_isOpen ws st then ws_send ws (ErrorFrame c) st else st.

(** [handleMessage(ws, data)]; [data] is what [JSON.parse] makes of the
    text ([inl e]: it throws, with message [e]). *)
Definition handleMessage (now : Z) (ws : sockid) (data : string + message) : M unit :=
  fun st =>
  let body : M unit :=
    match data with
    | inl e => throw e
    | inr m =>
      if String.eqb (m_type m) "hello" then handleHello now ws m
      else if String.eqb (m_type m) "signal" then handleSignal now ws m
      else if String.eqb (m_type m) "pong" then
        exec (fun st =>
          if truthy (ws_room ws st) then
            set_rooms (alter (fun rm => mkRoom (code rm) (host rm) (guest rm) (createdAt rm)
                                          now (heartbeatTimer rm))
                         (default EmptyString (ws_room ws st))) st
          else st)
      else ret tt
    end in
  match body st with
  | (inl tt, st') => (inl tt, st')
  | (inr e, st') => (inr e, sendError ws (if String.eqb e EmptyString then "INTERNAL_ERROR" else e) st')
  end.

(** *** Properties of room codes *)

(** The characters of the alphabet. *)
Definition in_alphabet (c : ascii) : Prop :=
  In c (list_ascii_of_string BASE32_ALPHABET).

(** A code the generator can return: six characters of the alphabet. *)
Definition well_formed_code (c : string) : Prop :=
  String.length c = 6%nat /\ Forall in_alphabet (list_ascii_of_string c).

(** The [k]-th candidate the loop of [handleHello] draws in [st]. *)
Definition candidate (st : State) (k : nat) : string :=
  code_of_bytes (map (entropy st) (seq (drawn st + 4 * k) 4)).

(** The specification's reading of a second [hello(role=host)] that names
    an occupied room: [ROOM_FULL], and the table of rooms as it was. *)
Definition second_host_rejected (now : Z) (ws : sockid) (m : message) (st : State) : Prop :=
  exists st', handleMessage now ws (inr m) st = (inr "ROOM_FULL", st') /\
              rooms st' = rooms st.

(** The index into the alphabet of position [i] of a code. *)
Definition alphabet_index (bytes : list byte) (i : nat) : nat :=
  (byte_at bytes i mod 29)%nat.

(** The code of four indices: what the loop of [generateRoomCode] builds. *)
Definition code_of_indices (q : nat * nat * nat * nat) : string :=
  let '(i, j, k, l) := q in
  ((((((EmptyString +:+ charAt BASE32_ALPHABET i) +:+ charAt BASE32_ALPHABET j) +:+
       charAt BASE32_ALPHABET k) +:+ charAt BASE32_ALPHABET l) +:+
     charAt BASE32_ALPHABET i) +:+ charAt BASE32_ALPHABET j).

Definition all_codes : list string :=
  let ix := seq 0 29 in
  map code_of_indices (list_prod (list_prod (list_prod ix ix) ix) ix).

(** The state after one call of [generateRoomCode]. *)
Definition draw4 (st : State) : State :=
  mkState (rooms st) (rateLimits st) (sockets st) (entropy st) (drawn st + 4).

(** The state a successful [hello(role=host)] builds from the state [st2]
    the loop left, for the code [c] it returned. *)
Definition host_room (now : Z) (ws : sockid) (ip c : string) (st2 : State) : State :=
  let st3 := count_room ip
               (set_rooms (insert c (mkRoom c (Some ws) None now now true))
                  (set_sockets (alter (assign "host" c) ws) st2)) in
  ws_send ws
    (HelloAck c "host"
       (mkTurn ["stun:stun.l.google.com:19302"; "stun:stun1.l.google.com:19302"]
          ("user_" +:+ c) (map (entropy st3) (seq (drawn st3) 16))))
    (mkState (rooms st3) (rateLimits st3) (sockets st3) (entropy st3) (drawn st3 + 16)).

(** The three ways a [hello(role=host)] ends. *)
Inductive host_hello_outcome (now : Z) (ws : sockid) (st : State) :
  unit + string -> State -> Prop :=
| host_rate_limited st' :
    rooms st' = rooms st -> sockets st' = sockets st ->
    host_hello_outcome now ws st (inr "RATE_LIMITED") st'
| host_generation_failed st' :
    rooms st' = rooms st -> sockets st' = sockets st ->
    (forall j, (j < 10)%nat -> is_Some (rooms st !! candidate st j)) ->
    drawn st' = (drawn st + 4 * 11)%nat ->
    host_hello_outcome now ws st (inr "ROOM_GENERATION_FAILED") st'
| host_room_created st' k c turn :
    (k < 10)%nat -> c = candidate st k -> rooms st !! c = None ->
    (forall j, (j < k)%nat -> is_Some (rooms st !! candidate st j)) ->
    rooms st' = <[c := mkRoom c (Some ws) None now now true]> (rooms st) ->
    sockets st' = alter (send_on (HelloAck c "host" turn)) ws
                    (alter (assign "host" c) ws (sockets st)) ->
    drawn st' = (drawn st + 4 * S k + 16)%nat ->
    host_hello_outcome now ws st (inl tt) st'.


(** *** Occupied slots *)

Definition slot (r : string) (rm : Room) : option sockid :=
  if String.eqb r "host" then host rm
  else if String.eqb r "guest" then guest rm
  else None.

(** The reject policy as the code has it, for a [hello] [m] of [ws] and a
    live room [rm] stored under [c]: a guest that names the room while its
    guest slot is taken is refused with [ROOM_FULL] and the table of rooms
    is as it was; [addPlayer] refuses either role whose slot is taken and
    writes nothing; a host never gets [ROOM_FULL] and the room is as it
    was. *)
Definition occupied_slot_policy (now : Z) (ws : sockid) (m : message) (st : State)
  (c : string) (rm : Room) : Prop :=
  (forall g, m_role m = Some "guest" -> m_room m = Some c -> guest rm = Some g ->
     isExpired now rm = false ->
     fst (checkRateLimit now (ws_remoteAddress ws st) st) = inl tt ->
     exists st', handleMessage now ws (inr m) st = (inr "ROOM_FULL", st') /\
       rooms st' = rooms st /\
       forall sk, sockets st !! ws = Some sk -> readyState sk = OPEN ->
         exists sk', sockets st' !! ws = Some sk' /\
           sent sk' = (sent sk ++ [ErrorFrame "ROOM_FULL"])%list /\
           role sk' = role sk /\ room sk' = room sk) /\
  (forall r other st0, slot r rm = Some other ->
     addPlayer now ws r rm st0 = (inr "ROOM_FULL", st0)) /\
  (m_role m = Some "host" ->
     fst (handleMessage now ws (inr m) st) <> inr "ROOM_FULL" /\
     rooms (snd (handleMessage now ws (inr m) st)) !! c = Some rm).

(** *** Scenarios *)

Definition hello (r : string) (c : option string) : message :=
  Message "hello" (Some r) c EmptyString.

(** Three connections and no room; [crypto.randomBytes] returns twenty
    zero bytes, then ones. *)
Definition lobby : State :=
  mkState ∅ ∅
    {[ 1%positive := mkSocket "10.0.0.1" OPEN None None [];
       2%positive := mkSocket "10.0.0.2" OPEN None None [];
       3%positive := mkSocket "10.0.0.3" OPEN None None [] ]}
    (fun n => if Nat.ltb n 20 then Byte.x00 else Byte.x01) 0.

(** Socket 1 created the room AAAAAA. *)
Definition first_host : State :=
  snd (handleMessage 0 1 (inr (hello "host" None)) lobby).

(** Socket 1 is the host and socket 2 the guest of AAAAAA. *)
Definition full_room : State :=
  snd (handleMessage 1 2 (inr (hello "guest" (Some "AAAAAA"))) first_host).


(** *** class Room: leaving *)

Definition same_socket (a : option sockid) (ws : sockid) : bool :=
  match a with
  | Some x => Pos.eqb x ws
  | None => false
  end.

(** [this.lastActivity = Date.now()] *)
Definition touch (now : Z) (rm : Room) : Room :=
  mkRoom (code rm) (host rm) (guest rm) (createdAt rm) now (heartbeatTimer rm).

(** [removePlayer(ws)]; leaving the host slot stops the heartbeat. *)
Definition removePlayer (now : Z) (ws : sockid) (rm : Room) : Room :=
  touch now
    (if same_socket (host rm) ws
     then mkRoom (code rm) None (guest rm) (createdAt rm) (lastActivity rm) false
     else if same_socket (guest rm) ws
     then mkRoom (code rm) (host rm) None (createdAt rm) (lastActivity rm) (heartbeatTimer rm)
     else rm).

Definition isEmpty (rm : Room) : bool :=
  negb (bool_decide (is_Some (host rm))) && negb (bool_decide (is_Some (guest rm))).

(** *** The connection listeners *)

Definition mark_closed (s : Socket) : Socket :=
  mkSocket (remoteAddress s) CLOSED (role s) (room s) (sent s).

Definition ws_role (ws : sockid) (st : State) : option string :=
  match sockets st !! ws with
  | Some s => role s
  | None => None
  end.

(** [limits.rooms = Math.max(0, limits.rooms - 1)] *)
Definition release_room (l : RateLimit) : RateLimit :=
  mkLimit (handshakes l) (Nat.pred (roomCount l)).

(** The ['close'] listener.  The socket is CLOSED when the event is
    delivered. *)
Definition onClose (now : Z) (ws : sockid) (st : State) : State :=
  let st0 := set_sockets (alter mark_closed ws) st in
  if truthy (ws_room ws st0) then
    let c := default EmptyString (ws_room ws st0) in
    match rooms st0 !! c with
    | None => st0
    | Some rm =>
      let rm' := removePlayer now ws rm in
      let st1 := set_rooms (insert c rm') st0 in
      let st2 := broadcast rm' (PlayerDisconnected (ws_role ws st1)) None st1 in
      set_rateLimits (alter release_room (ws_remoteAddress ws st2)) st2
    end
  else st0.

(** [wss.on('connection')] *)
Definition onConnection (ws : sockid) (ip : string) (st : State) : State :=
  match sockets st !! ws with
  | Some _ => st
  | None => set_sockets (insert ws (mkSocket ip OPEN None None [])) st
  end.

(** *** cleanupExpiredRooms *)

(** [limits.handshakes.filter(time => time > oneHourAgo)] *)
Definition prune (oneHourAgo : Z) (l : RateLimit) : RateLimit :=
  mkLimit (List.filter (fun time => Z.ltb oneHourAgo time) (handshakes l)) (roomCount l).

(** [limits.handshakes.length === 0 && limits.rooms === 0] *)
Definition idle_limit (l : RateLimit) : bool :=
  Nat.eqb (length (handshakes l)) 0 && Nat.eqb (roomCount l) 0.

Definition cleanupExpiredRooms (now : Z) (st : State) : State :=
  let oneHourAgo := now - 60 * 60 * 1000 in
  set_rateLimits
    (fun m => filter (fun kv => idle_limit (snd kv) = false) (prune oneHourAgo <$> m))
    (set_rooms (filter (fun kv => (isEmpty (snd kv) || isExpired now (snd kv)) = false)) st).

(** *** The server as a transition system

    The events are those of the connection listeners and of the sweep.
    The ticks of the heartbeat interval write no table and no slot. *)
Inductive event :=
| Connection (ws : sockid) (ip : string)
| Incoming (now : Z) (ws : sockid) (data : string + message)
| Closed (now : Z) (ws : sockid)
| Sweep (now : Z).

Definition init (entropy : nat -> byte) : State := mkState ∅ ∅ ∅ entropy 0.

Definition step (st : State) (e : event) : State :=
  match e with
  | Connection ws ip => onConnection ws ip st
  | Incoming now ws data => snd (handleMessage now ws data st)
  | Closed now ws => onClose now ws st
  | Sweep now => cleanupExpiredRooms now st
  end.

Definition run (evs : list event) (st : State) : State := fold_left step evs st.

(** *** Joining as the guest *)

(** The room [rm] with [ws] in the guest slot. *)
Definition with_guest (now : Z) (ws : sockid) (rm : Room) : Room :=
  mkRoom (code rm) (host rm) (Some ws) (createdAt rm) now (heartbeatTimer rm).

(** The state a successful [hello(role=guest)] builds from the state
    [st1] the limiter left, for the room [rm] found under [c]. *)
Definition guest_room (now : Z) (ws : sockid) (ip c : string) (rm : Room) (st1 : State) : State :=
  let st3 := count_room ip
               (set_rooms (insert c (with_guest now ws rm))
                  (set_sockets (alter (assign "guest" (code rm)) ws) st1)) in
  ws_send ws
    (HelloAck c "guest"
       (mkTurn ["stun:stun.l.google.com:19302"; "stun:stun1.l.google.com:19302"]
          ("user_" +:+ c) (map (entropy st3) (seq (drawn st3) 16))))
    (mkState (rooms st3) (rateLimits st3) (sockets st3) (entropy st3) (drawn st3 + 16)).

(** [ws] joined the room [rm] stored under [c] as its guest: the room has
    [ws] in the guest slot and records the time, [ws] is labelled and was
    sent the [hello-ack] with the credentials of the room, and no other
    socket was written to. *)
Record guest_joined (now : Z) (ws : sockid) (c : string) (rm : Room) (st st' : State) : Prop := {
  gj_rooms : rooms st' = <[c := with_guest now ws rm]> (rooms st);
  gj_socket : forall sk, sockets st !! ws = Some sk ->
    exists sk' turn, sockets st' !! ws = Some sk' /\
      role sk' = Some "guest" /\ room sk' = Some (code rm) /\
      username turn = "user_" +:+ c /\
      sent sk' = if is_open (readyState sk) then (sent sk ++ [HelloAck c "guest" turn])%list
                 else sent sk;
  gj_others : forall k, k <> ws -> sockets st' !! k = sockets st !! k
}.

(** The handshake of [ip] at [now] is on record. *)
Definition handshake_recorded (now : Z) (ip : string) (st : State) : Prop :=
  exists l, rateLimits st !! ip = Some l /\ last (handshakes l) = Some now.

(** The ways a [hello(role=guest)] that the limiter lets through ends. *)
Definition guest_hello_result (now : Z) (ws : sockid) (m : message) (st : State)
  (res : (unit + string) * State) : Prop :=
  handshake_recorded now (ws_remoteAddress ws st) (snd res) /\
  if truthy (m_room m) then
    let c := default EmptyString (m_room m) in
    match rooms st !! c with
    | None => fst res = inr "ROOM_NOT_FOUND" /\ rooms (snd res) = rooms st
    | Some rm =>
      if isExpired now rm
      then fst res = inr "ROOM_EXPIRED" /\ rooms (snd res) = delete c (rooms st)
      else match guest rm with
           | Some _ => fst res = inr "ROOM_FULL" /\ rooms (snd res) = rooms st
           | None => fst res = inl tt /\ guest_joined now ws c rm st (snd res)
           end
    end
  else fst res = inr "ROOM_CODE_REQUIRED" /\ rooms (snd res) = rooms st.

(** *** Messages that fail *)

Definition reply_code (e : string) : string :=
  if String.eqb e EmptyString then "INTERNAL_ERROR" else e.

(** What a message that ended in the error [e] leaves behind: the socket
    store as [sendError] to the sender makes it, and the rooms as they
    were, but for [ROOM_EXPIRED], which deletes the room the [hello]
    named. *)
Definition error_effect (ws : sockid) (data : string + message) (e : string)
  (st st' : State) : Prop :=
  sockets st' = sockets (sendError ws (reply_code e) st) /\
  (rooms st' = rooms st \/
   e = "ROOM_EXPIRED" /\
   exists m c, data = inr m /\ m_room m = Some c /\ rooms st' = delete c (rooms st)).

(** *** Signals *)

(** A room with its two players, both OPEN. *)
Record room_paired (c : string) (h g : sockid) (st : State) : Prop := {
  p_code : c <> EmptyString;
  p_room : exists rm, rooms st !! c = Some rm /\ host rm = Some h /\ guest rm = Some g;
  p_distinct : h <> g;
  p_host : exists sk, sockets st !! h = Some sk /\ room sk = Some c /\ readyState sk = OPEN;
  p_guest : exists sk, sockets st !! g = Some sk /\ room sk = Some c /\ readyState sk = OPEN
}.

(** The [signal] [m] of [from] reached [to]: it was written to [to] as it
    came, to no other socket, and the room recorded the time. *)
Definition relayed (now : Z) (c : string) (from to : sockid) (m : message) (st : State) : Prop :=
  exists st', handleMessage now from (inr m) st = (inl tt, st') /\
    sockets st' = alter (send_on (Relayed m)) to (sockets st) /\
    rooms st' = alter (touch now) c (rooms st).

Definition signal_exchange (now : Z) (c : string) (h g : sockid) (m : message)
  (st : State) : Prop :=
  relayed now c h g m st /\ relayed now c g h m st.

(** The [signal] [m] of [ws] was dropped: the handler returned, no socket
    was written to, and the room recorded the time. *)
Definition signal_dropped (now : Z) (c : string) (ws : sockid) (m : message) (st : State) : Prop :=
  exists st', handleMessage now ws (inr m) st = (inl tt, st') /\
    sockets st' = sockets st /\ rooms st' = alter (touch now) c (rooms st).

(** The slot of the player other than [ws]. *)
Definition peer (rm : Room) (ws : sockid) : option sockid :=
  if same_socket (host rm) ws then guest rm else host rm.

(** *** The ['close'] event *)

(** What the ['close'] event of [ws] does when the room [rm] of [ws] is in
    the table under [c]: [ws] leaves its slot, the player that is left,
    when OPEN, is sent [player_disconnected] with the role of [ws], and
    the address of [ws] gets one room back. *)
Definition leave_outcome (now : Z) (ws : sockid) (sk : Socket) (c : string) (rm : Room)
  (st : State) : Prop :=
  let st' := onClose now ws st in
  rooms st' = <[c := removePlayer now ws rm]> (rooms st) /\
  rateLimits st' = alter release_room (remoteAddress sk) (rateLimits st) /\
  (forall p, (host rm = Some ws /\ guest rm = Some p \/ guest rm = Some ws /\ host rm = Some p) ->
     p <> ws ->
     sockets st' =
     if ws_isOpen p st
     then alter (send_on (PlayerDisconnected (role sk))) p (alter mark_closed ws (sockets st))
     else alter mark_closed ws (sockets st)).

(** *** Rooms an address holds *)

(** The number of rooms the limiter counts for [ip]. *)
Definition rooms_held (ip : string) (st : State) : option nat :=
  roomCount <$> (rateLimits st !! ip).

(** The sweep and the ['close'] event do not commute: when the sweep finds
    the room of [ws] empty or expired and removes it first, the close
    event gives the address no room back, and no later sweep removes the
    entry; when the close event comes first, it does. *)
Definition room_never_released (now now' : Z) (ws : sockid) (ip : string) (n : nat)
  (st : State) : Prop :=
  rooms_held ip (onClose now' ws (cleanupExpiredRooms now st)) = Some (S n) /\
  (forall later, rooms_held ip (cleanupExpiredRooms later
                                  (onClose now' ws (cleanupExpiredRooms now st))) = Some (S n)) /\
  rooms_held ip (onClose now' ws st) = Some n.

(** The address holds the five rooms the limiter allows. *)
Definition locked_out (ip : string) (st : State) : Prop :=
  exists l, rateLimits st !! ip = Some l /\ (5 <= roomCount l)%nat.

(** While an address is locked out every [hello] of its sockets is
    refused, and only a ['close'] event ends the lock-out. *)
Definition lock_out_persists (ip : string) (st : State) : Prop :=
  (forall now ws m, ws_remoteAddress ws st = ip -> m_type m = "hello" ->
     fst (handleMessage now ws (inr m) st) = inr "RATE_LIMITED") /\
  (forall e, (forall now ws, e <> Closed now ws) -> locked_out ip (step st e)).

(** *** Invariants of the server *)

(** The limiter never holds more than 30 handshakes and 5 rooms for an
    address. *)
Definition limits_bounded (st : State) : Prop :=
  forall ip l, rateLimits st !! ip = Some l ->
    (length (handshakes l) <= 30)%nat /\ (roomCount l <= 5)%nat.

(** Every room is stored under its own code, a code of the generator. *)
Definition rooms_well_formed (st : State) : Prop :=
  forall c rm, rooms st !! c = Some rm -> code rm = c /\ well_formed_code c.

(** *** More scenarios *)

Definition signal (payload : string) : message :=
  Message "signal" None None payload.

(** The full room, thirty-one minutes after it was created. *)
Definition late : Z := 31 * 60 * 1000.

(** The socket of the first host, after its [hello-ack]. *)
Definition first_host_socket : Socket :=
  mkSocket "10.0.0.1" OPEN (Some "host") (Some "AAAAAA")
    [HelloAck "AAAAAA" "host"
       (mkTurn ["stun:stun.l.google.com:19302"; "stun:stun1.l.google.com:19302"]
          "user_AAAAAA" (replicate 16 Byte.x00))].

(** The socket of the guest of the full room, after its [hello-ack]. *)
Definition first_guest_socket : Socket :=
  mkSocket "10.0.0.2" OPEN (Some "guest") (Some "AAAAAA")
    [HelloAck "AAAAAA" "guest"
       (mkTurn ["stun:stun.l.google.com:19302"; "stun:stun1.l.google.com:19302"]
          "user_AAAAAA" (replicate 16 Byte.x01))].

(** After a [hello(role=guest)] found the room of [h] expired: the hello
    failed with [ROOM_EXPIRED], the room is gone, and a [signal] of [h] is
    answered [ROOM_NOT_FOUND]. *)
Definition stranded (now now' : Z) (ws h : sockid) (m sig : message) (c : string)
  (st : State) : Prop :=
  let st' := snd (handleMessage now ws (inr m) st) in
  fst (handleMessage now ws (inr m) st) = inr "ROOM_EXPIRED" /\
  rooms st' !! c = None /\
  fst (handleMessage now' h (inr sig) st') = inr "ROOM_NOT_FOUND".

(** Twenty bytes of 0, then twenty of 1, and so on: a [hello(role=host)]
    whose first code is free uses up twenty. *)
Definition stepping : nat -> byte :=
  fun n => nth (n / 20) [Byte.x00; Byte.x01; Byte.x02; Byte.x03; Byte.x04] Byte.x05.

(** One socket asked for five rooms. *)
Definition five_rooms : State :=
  run (Connection 1 "10.0.0.1" :: replicate 5 (Incoming 0 1 (inr (hello "host" None))))
    (init stepping).
End Signaling.

(** ** The client: [GameStateContext], [useRelay], [useWebRTC], [useNetworking]

    The hooks are embedded as one record of the React state and of the
    refs, and one function per handler.  A timer is an entry of a table,
    with the delay it was armed with and its callback; the environment
    picks the timer that fires.  A callback that was created during a
    render keeps the values of that render: the closure of
    [initiateRelayFallback] is a record of the three values it captured.
    [Math.random()] reads the next element of a sequence of rationals, and
    arithmetic on delays is exact.  The promise [connect] returns and the
    inbound message handler are not part of the record: no handler below
    reads them. *)
Module Client.

Local Open Scope Q_scope.

Definition WEBRTC_TIMEOUT : Q := 6000.
Definition RECONNECT_TIMEOUT : Q := 5000.
Definition SNAPSHOT_RATE : Z := 100.
Definition INPUT_RATE : Z := 33.
Definition RECONNECT_DELAY_BASE : Z := 1000.
Definition MAX_RECONNECT_DELAY : Z := 30000.

(** *** GameStateContext *)

Inductive GAME_STATES := LOBBY | CONNECTING_STATE | FIGHTING | POST_MATCH | ERROR.

Record GameState := mkGame {
  gameState : GAME_STATES;
  role : option string;
  roomCode : option string;
  isConnected : bool;
  connectionType : option string;
  error : option string
}.

Definition initialState : GameState := mkGame LOBBY None None false None None.

Inductive action :=
| CONNECTION_ESTABLISHED (type : string)
| CONNECTION_LOST
| SET_ERROR (message : string) (critical : bool).

Definition gameStateReducer (state : GameState) (a : action) : GameState :=
  match a with
  | CONNECTION_ESTABLISHED type =>
    mkGame FIGHTING (role state) (roomCode state) true (Some type) (error state)
  | CONNECTION_LOST =>
    mkGame (gameState state) (role state) (roomCode state) false None (error state)
  | SET_ERROR message critical =>
    mkGame (if critical then ERROR else gameState state) (role state) (roomCode state)
      (isConnected state) (connectionType state) (Some message)
  end.

(** *** Timers, sockets, channels *)

(** What [initiateRelayFallback] captured from the render it was created
    in. *)
Record Closure := mkClosure {
  cl_connectionType : option string;
  cl_role : option string;
  cl_roomCode : option string
}.

Inductive callback :=
| WebrtcTimeout (cl : Closure)
| StableTimeout
| RelayConnectTimeout (ws : nat)
| RelayReconnect (role roomCode : option string).

Record Timer := mkTimer {
  t_id : nat;
  t_delay : Q;
  t_callback : callback
}.

Inductive WsState := WS_CONNECTING | WS_OPEN | WS_CLOSING | WS_CLOSED.

Definition ws_open (s : WsState) : bool :=
  match s with WS_OPEN => true | _ => false end.

(** An application message. *)
Record gameMessage := mkGameMessage {
  g_type : string;
  g_seq : Z;
  g_ts : Z;
  g_payload : string
}.

Inductive relayFrame :=
| RoleFrame (role roomCode : option string)
| PingFrame
| GameFrame (m : gameMessage).

(** A [WebSocket] to the relay, with what its handlers captured. *)
Record RelaySocket := mkRelaySocket {
  rs_state : WsState;
  rs_role : option string;
  rs_roomCode : option string;
  rs_timeout : nat;
  rs_sent : list relayFrame
}.

Record DataChannel := mkChannel {
  dc_open : bool;
  dc_sent : list gameMessage
}.

(** *** The refs of the hooks *)

Record RelayRefs := mkRelay {
  sockets : list RelaySocket;
  wsRef : option nat;
  reconnectAttemptsRef : nat;
  reconnectTimerRef : option nat;
  heartbeatTimerRef : bool
}.

Record WebRTCRefs := mkWebRTC {
  dataChannelRef : option DataChannel;
  stableTimerRef : option nat
}.

Record NetRefs := mkNet {
  webrtcTimeoutRef : option nat;
  sequenceRef : Z;
  lastSnapshotRef : Z;
  lastInputRef : Z
}.

Record Env := mkEnv {
  timers : list Timer;
  nextTimer : nat;
  randoms : nat -> Q;
  randomsDrawn : nat
}.

Record Client := mkClient {
  game : GameState;
  relay : RelayRefs;
  webrtc : WebRTCRefs;
  net : NetRefs;
  env : Env
}.

Definition with_game (f : GameState -> GameState) (c : Client) : Client :=
  mkClient (f (game c)) (relay c) (webrtc c) (net c) (env c).
Definition with_relay (f : RelayRefs -> RelayRefs) (c : Client) : Client :=
  mkClient (game c) (f (relay c)) (webrtc c) (net c) (env c).
Definition with_webrtc (f : WebRTCRefs -> WebRTCRefs) (c : Client) : Client :=
  mkClient (game c) (relay c) (f (webrtc c)) (net c) (env c).
Definition with_net (f : NetRefs -> NetRefs) (c : Client) : Client :=
  mkClient (game c) (relay c) (webrtc c) (f (net c)) (env c).
Definition with_env (f : Env -> Env) (c : Client) : Client :=
  mkClient (game c) (relay c) (webrtc c) (net c) (f (env c)).

Definition dispatch (a : action) : Client -> Client :=
  with_game (fun g => gameStateReducer g a).

Definition connectionEstablished (type : string) : Client -> Client :=
  dispatch (CONNECTION_ESTABLISHED type).
Definition connectionLost : Client -> Client := dispatch CONNECTION_LOST.
Definition setError (message : string) : Client -> Client :=
  dispatch (SET_ERROR message false).

(** [setTimeout(callback, delay)]: the identifier, and the client with the
    timer pending. *)
Definition setTimeout (cb : callback) (delay : Q) (c : Client) : nat * Client :=
  let id := nextTimer (env c) in
  (id, with_env (fun e => mkEnv (timers e ++ [mkTimer id delay cb]) (S id)
                            (randoms e) (randomsDrawn e)) c).

Definition clearTimeout (id : nat) : Client -> Client :=
  with_env (fun e => mkEnv (List.filter (fun t => negb (Nat.eqb (t_id t) id)) (timers e))
                       (nextTimer e) (randoms e) (randomsDrawn e)).

Definition clear_ref (r : option nat) (c : Client) : Client :=
  match r with
  | Some id => clearTimeout id c
  | None => c
  end.


Definition update_socket (ws : nat) (f : RelaySocket -> RelaySocket) : Client -> Client :=
  with_relay (fun r => mkRelay (alter f ws (sockets r)) (wsRef r) (reconnectAttemptsRef r)
                         (reconnectTimerRef r) (heartbeatTimerRef r)).

Definition socket_state (s : WsState) (k : RelaySocket) : RelaySocket :=
  mkRelaySocket s (rs_role k) (rs_roomCode k) (rs_timeout k) (rs_sent k).

Definition socket_send (f : relayFrame) (k : RelaySocket) : RelaySocket :=
  mkRelaySocket (rs_state k) (rs_role k) (rs_roomCode k) (rs_timeout k) (rs_sent k ++ [f]).

(** [ws.close()] of a browser socket. *)
Definition socket_close (k : RelaySocket) : RelaySocket :=
  match rs_state k with
  | WS_CLOSED => k
  | _ => socket_state WS_CLOSING k
  end.

(** [wsRef.current?.readyState === WebSocket.OPEN] *)
Definition relay_is_open (c : Client) : bool :=
  match wsRef (relay c) with
  | Some ws =>
    match sockets (relay c) !! ws with
    | Some k => ws_open (rs_state k)
    | None => false
    end
  | None => false
  end.

(** *** useRelay *)





Definition backoff_base (attempts : nat) : Z :=
  Z.min (RECONNECT_DELAY_BASE * 2 ^ Z.of_nat attempts) MAX_RECONNECT_DELAY.



(** [connect(role, roomCode)], up to the construction of the socket. *)
Definition connect (r rc : option string) (c : Client) : Client :=
  if negb (truthy r) || negb (truthy rc) then c
  else if relay_is_open c then c
  else
    let ws := length (sockets (relay c)) in
    let (timeout, c1) := setTimeout (RelayConnectTimeout ws) 10000 c in
    with_relay (fun k => mkRelay (sockets k ++ [mkRelaySocket WS_CONNECTING r rc timeout []])
                           (Some ws) (reconnectAttemptsRef k) (reconnectTimerRef k)
                           (heartbeatTimerRef k)) c1.

Definition timeout_of (ws : nat) (c : Client) : option nat :=
  rs_timeout <$> (sockets (relay c) !! ws).


(** [ws.onerror] *)
Definition relay_onerror (ws : nat) (c : Client) : Client :=
  clear_ref (timeout_of ws c) c.




(** [relay.sendGameMessage(message)] *)
Definition relay_sendGameMessage (m : gameMessage) (c : Client) : bool * Client :=
  if relay_is_open c then
    (true, match wsRef (relay c) with
           | Some ws => update_socket ws (socket_send (GameFrame m)) c
           | None => c
           end)
  else (false, c).

(** *** useWebRTC *)

Definition set_stableTimer (v : option nat) : Client -> Client :=
  with_webrtc (fun w => mkWebRTC (dataChannelRef w) v).

(** [pc.oniceconnectionstatechange], with [pc.iceConnectionState]. *)
Definition oniceconnectionstatechange (state : string) (c : Client) : Client :=
  if String.eqb state "connected" || String.eqb state "completed" then
    let c1 := connectionEstablished "webrtc" c in
    let c2 := clear_ref (stableTimerRef (webrtc c1)) c1 in
    let (id, c3) := setTimeout StableTimeout RECONNECT_TIMEOUT c2 in
    set_stableTimer (Some id) c3
  else if String.eqb state "failed" || String.eqb state "disconnected" then
    let c1 := connectionLost c in
    match stableTimerRef (webrtc c1) with
    | Some id => set_stableTimer None (clearTimeout id c1)
    | None => c1
    end
  else c.

(** [webrtc.sendGameMessage(message)] *)
Definition webrtc_sendGameMessage (m : gameMessage) (c : Client) : bool * Client :=
  match dataChannelRef (webrtc c) with
  | Some ch =>
    if dc_open ch then
      (true, with_webrtc (fun w => mkWebRTC (Some (mkChannel true (dc_sent ch ++ [m])))
                                     (stableTimerRef w)) c)
    else (false, c)
  | None => (false, c)
  end.

(** *** useNetworking *)

Definition closure_of (c : Client) : Closure :=
  mkClosure (connectionType (game c)) (role (game c)) (roomCode (game c)).

Definition initiateRelayFallback (cl : Closure) (c : Client) : Client :=
  if bool_decide (cl_connectionType cl = Some "relay") then c
  else if negb (truthy (cl_role cl)) || negb (truthy (cl_roomCode cl)) then c
  else connect (cl_role cl) (cl_roomCode cl) c.

(** The end of the [try] block that follows [createOffer] (host) or
    [createAnswer] (guest): the timeout is armed.  [ok] is false when a
    step of the block threw, and the [catch] runs instead. *)
Definition negotiate (cl : Closure) (ok : bool) (c : Client) : Client :=
  if ok then
    let (id, c1) := setTimeout (WebrtcTimeout cl) WEBRTC_TIMEOUT c in
    with_net (fun n => mkNet (Some id) (sequenceRef n) (lastSnapshotRef n) (lastInputRef n)) c1
  else initiateRelayFallback cl c.

(** [initializeConnection(turnCredentials)], called on [hello-ack]. *)
Definition initializeConnection (cl : Closure) (ok : bool) (c : Client) : Client :=
  if bool_decide (cl_role cl = Some "host") then negotiate cl ok c else c.


Definition send_first_webrtc (m : gameMessage) (c : Client) : Client :=
  match webrtc_sendGameMessage m c with
  | (true, c') => c'
  | (false, c') => snd (relay_sendGameMessage m c')
  end.

Definition sendSnapshot (now : Z) (payload : string) (c : Client) : Client :=
  if negb (bool_decide (role (game c) = Some "host")) then c
  else if Z.ltb (now - lastSnapshotRef (net c)) SNAPSHOT_RATE then c
  else
    let seq := (sequenceRef (net c) + 1)%Z in
    let c1 := with_net (fun n => mkNet (webrtcTimeoutRef n) seq (lastSnapshotRef n)
                                   (lastInputRef n)) c in
    let c2 := send_first_webrtc (mkGameMessage "state" seq now payload) c1 in
    with_net (fun n => mkNet (webrtcTimeoutRef n) (sequenceRef n) now (lastInputRef n)) c2.

Definition sendInput (now : Z) (payload : string) (c : Client) : Client :=
  if negb (bool_decide (role (game c) = Some "guest")) then c
  else if Z.ltb (now - lastInputRef (net c)) INPUT_RATE then c
  else
    let seq := (sequenceRef (net c) + 1)%Z in
    let c1 := with_net (fun n => mkNet (webrtcTimeoutRef n) seq (lastSnapshotRef n)
                                   (lastInputRef n)) c in
    let c2 := send_first_webrtc (mkGameMessage "input" seq now payload) c1 in
    with_net (fun n => mkNet (webrtcTimeoutRef n) (sequenceRef n) (lastSnapshotRef n) now) c2.


(** *** Timers that fire *)

Definition run_callback (cb : callback) (c : Client) : Client :=
  match cb with
  | WebrtcTimeout cl => initiateRelayFallback cl c
  | StableTimeout => c
  | RelayConnectTimeout ws => update_socket ws socket_close c
  | RelayReconnect r rc =>
    if Nat.ltb (reconnectAttemptsRef (relay c)) 10
    then connect r rc c
    else setError "Failed to maintain relay connection after multiple attempts" c
  end.

Definition find_timer (id : nat) (c : Client) : option Timer :=
  List.find (fun t => Nat.eqb (t_id t) id) (timers (env c)).

(** The pending timer [id] fires: it leaves the table and its callback
    runs. *)
Definition fire (id : nat) (c : Client) : Client :=
  match find_timer id c with
  | Some t => run_callback (t_callback t) (clearTimeout id c)
  | None => c
  end.

(** *** Reconnection *)










(** *** Scenarios *)

(** A guest that joined room ABCDAB, before any connection. *)
Definition guest0 : Client :=
  mkClient (mkGame CONNECTING_STATE (Some "guest") (Some "ABCDAB") false None None)
    (mkRelay [] None 0 None false) (mkWebRTC None None) (mkNet None 0 0 0)
    (mkEnv [] 0 (fun _ => 1 # 2) 0).





(** *** useRelay: leaving *)



(** *** The transports of game messages *)

(** The game messages written to a relay socket. *)
Definition game_frames (k : RelaySocket) : list gameMessage :=
  omap (fun f => match f with GameFrame m => Some m | _ => None end) (rs_sent k).

Definition channel_sent (c : Client) : list gameMessage :=
  match dataChannelRef (webrtc c) with
  | Some ch => dc_sent ch
  | None => []
  end.

(** Every game message the client wrote, on the data channel and on the
    relay sockets. *)
Definition all_sent (c : Client) : list gameMessage :=
  (channel_sent c ++ concat (map game_frames (sockets (relay c))))%list.

Definition sendInputs (calls : list (Z * string)) (c : Client) : Client :=
  fold_left (fun c call => sendInput (fst call) (snd call) c) calls c.



Definition channel_open (c : Client) : bool :=
  match dataChannelRef (webrtc c) with
  | Some ch => dc_open ch
  | None => false
  end.

(** Where an input that is due goes: to the data channel when it is open,
    else to the relay socket when that is open, else nowhere; the
    sequence number and the time of the last input advance in all three
    cases. *)
Definition input_routed (now : Z) (payload : string) (c : Client) : Prop :=
  let c' := sendInput now payload c in
  let m := mkGameMessage "input" (sequenceRef (net c) + 1) now payload in
  sequenceRef (net c') = (sequenceRef (net c) + 1)%Z /\ lastInputRef (net c') = now /\
  if channel_open c
  then channel_sent c' = (channel_sent c ++ [m])%list /\ relay c' = relay c
  else webrtc c' = webrtc c /\
       match wsRef (relay c) with
       | Some ws =>
         if relay_is_open c
         then sockets (relay c') = alter (socket_send (GameFrame m)) ws (sockets (relay c))
         else relay c' = relay c
       | None => relay c' = relay c
       end.

(** *** WebRTC and the fallback *)



(** *** More scenarios *)

(** The guest on WebRTC: the data channel is open. *)
Definition on_webrtc : Client :=
  with_webrtc (fun w => mkWebRTC (Some (mkChannel true [])) (stableTimerRef w))
    (oniceconnectionstatechange "connected" guest0).


End Client.

(** ** The reducer of [GameStateContext], in full

    The hooks above use three of its actions; here are the state with
    [matchResult] and all the actions.  A payload is what the dispatching
    function was given: possibly nothing. *)
Module GameStateContext.

Inductive GAME_STATES := LOBBY | CONNECTING | FIGHTING | POST_MATCH | ERROR.

Record MatchResult := mkResult {
  winner : string;
  reason : string
}.

Record State := mkState {
  gameState : GAME_STATES;
  role : option string;
  roomCode : option string;
  isConnected : bool;
  connectionType : option string;
  error : option string;
  matchResult : option MatchResult
}.

Definition initialState : State := mkState LOBBY None None false None None None.

Inductive action :=
| SET_ROLE (payload : option string)
| SET_ROOM_CODE (payload : option string)
| START_CONNECTING
| CONNECTION_ESTABLISHED (type : option string)
| CONNECTION_LOST
| MATCH_ENDED (payload : option MatchResult)
| START_REMATCH
| RETURN_TO_LOBBY
| SET_ERROR (message : option string) (critical : bool)
| CLEAR_ERROR
| OTHER (type : string).

Definition gameStateReducer (state : State) (a : action) : State :=
  match a with
  | SET_ROLE payload =>
    mkState (gameState state) payload (roomCode state) (isConnected state)
      (connectionType state) (error state) (matchResult state)
  | SET_ROOM_CODE payload =>
    mkState (gameState state) (role state) payload (isConnected state)
      (connectionType state) (error state) (matchResult state)
  | START_CONNECTING =>
    mkState CONNECTING (role state) (roomCode state) (isConnected state)
      (connectionType state) None (matchResult state)
  | CONNECTION_ESTABLISHED type =>
    mkState FIGHTING (role state) (roomCode state) true type (error state)
      (matchResult state)
  | CONNECTION_LOST =>
    mkState (gameState state) (role state) (roomCode state) false None (error state)
      (matchResult state)
  | MATCH_ENDED payload =>
    mkState POST_MATCH (role state) (roomCode state) (isConnected state)
      (connectionType state) (error state) payload
  | START_REMATCH =>
    mkState FIGHTING (role state) (roomCode state) (isConnected state)
      (connectionType state) (error state) None
  | RETURN_TO_LOBBY => initialState
  | SET_ERROR message critical =>
    mkState (if critical then ERROR else gameState state) (role state) (roomCode state)
      (isConnected state) (connectionType state) message (matchResult state)
  | CLEAR_ERROR =>
    mkState (gameState state) (role state) (roomCode state) (isConnected state)
      (connectionType state) None (matchResult state)
  | OTHER _ => state
  end.

(** The state after a sequence of dispatches. *)
Definition dispatched (acts : list action) (state : State) : State :=
  fold_left gameStateReducer acts state.

(** The action names a transport, as the three calls of
    [connectionEstablished] in the hooks do. *)
Definition names_transport (a : action) : bool :=
  match a with
  | CONNECTION_ESTABLISHED None => false
  | _ => true
  end.

Definition is_critical (a : action) : bool :=
  match a with
  | SET_ERROR _ critical => critical
  | _ => false
  end.

(** The part of the state the hooks of the client read. *)
Definition seen_by_hooks (s : State) : Client.GameState :=
  Client.mkGame
    (match gameState s with
     | LOBBY => Client.LOBBY
     | CONNECTING => Client.CONNECTING_STATE
     | FIGHTING => Client.FIGHTING
     | POST_MATCH => Client.POST_MATCH
     | ERROR => Client.ERROR
     end)
    (role s) (roomCode s) (isConnected s) (connectionType s) (error s).

(** The three actions of the hooks, as actions of the reducer. *)
Definition of_hook (a : Client.action) : action :=
  match a with
  | Client.CONNECTION_ESTABLISHED type => CONNECTION_ESTABLISHED (Some type)
  | Client.CONNECTION_LOST => CONNECTION_LOST
  | Client.SET_ERROR message critical => SET_ERROR (Some message) critical
  end.

(** What holds of the state after any sequence of dispatches from the
    initial state: the flag and the type of the connection agree, and the
    error screen needs a critical error. *)
Record coherent (acts : list action) (s : State) : Prop := {
  co_connected : isConnected s = true <-> is_Some (connectionType s);
  co_error : gameState s = ERROR -> existsb is_critical acts = true
}.

End GameStateContext.

(** * Properties *)

Lemma truthy_intro (s : string) : s <> EmptyString -> truthy (Some s) = true.
Proof.
  intros H. simpl. destruct (String.eqb_spec s EmptyString); [contradiction|reflexivity].
Qed.

(** ** The relay server *)
Module RelayTheory.
Import Relay.

Lemma same_socket_true a ws : same_socket a ws = true <-> a = Some ws.
Proof.
  destruct a as [x|]; simpl; [|split; discriminate].
  rewrite Pos.eqb_eq. split; congruence.
Qed.

(** **** What a handler leaves alone in the socket store *)
Section Frame.
Context {A : Type} (proj : Socket -> A) (k : sockid).

Local Abbreviation keeps := (Relay.keeps proj k).

Hypothesis proj_send : forall f s, proj (send_on f s) = proj s.
Hypothesis proj_close : forall c r s, proj (close_on c r s) = proj s.
Hypothesis proj_closed : forall s, proj (mark_closed s) = proj s.

Lemma keeps_refl st : keeps st st.
Proof. reflexivity. Qed.

Lemma keeps_alter f ws st0 st :
  (forall s, proj (f s) = proj s) \/ ws <> k ->
  keeps st0 st -> keeps st0 (set_sockets (alter f ws) st).
Proof.
  unfold Relay.keeps. intros Hf <-. simpl. rewrite lookup_alter.
  case_decide as E; [|reflexivity]. subst ws.
  destruct Hf as [Hf|Hf]; [|contradiction].
  destruct (sockets st !! k); simpl; [f_equal; apply Hf|reflexivity].
Qed.

Lemma keeps_send ws f st0 st : keeps st0 st -> keeps st0 (ws_send ws f st).
Proof. apply keeps_alter. left. apply proj_send. Qed.

Lemma keeps_close ws c r st0 st : keeps st0 st -> keeps st0 (ws_close ws c r st).
Proof. apply keeps_alter. left. apply proj_close. Qed.

Lemma keeps_sessions f st0 st : keeps st0 st -> keeps st0 (set_sessions f st).
Proof. exact id. Qed.

Lemma keeps_rateLimits f st0 st : keeps st0 st -> keeps st0 (set_rateLimits f st).
Proof. exact id. Qed.

Lemma keeps_log l st0 st : keeps st0 st -> keeps st0 (log l st).
Proof. exact id. Qed.

Lemma keeps_sendError ws c st0 st : keeps st0 st -> keeps st0 (sendError ws c st).
Proof.
  intros H. unfold sendError. destruct (ws_isOpen ws st); [apply keeps_send|]; exact H.
Qed.

Lemma keeps_checkRateLimit now ws st0 st :
  keeps st0 st -> keeps st0 (snd (checkRateLimit now ws st)).
Proof.
  intros H. unfold checkRateLimit.
  destruct (rateLimits st !! ws_remoteAddress ws st);
    match goal with |- context [if ?b then _ else _] => destruct b end; exact H.
Qed.

Lemma keeps_forwardMessage now room ws m st0 st :
  keeps st0 st -> keeps st0 (snd (forwardMessage now room ws m st)).
Proof.
  intros H. unfold forwardMessage.
  destruct (sessions st !! room) as [s|]; [|exact H].
  destruct (if same_socket (host s) ws then guest s else host s) as [t|]; [|exact H].
  destruct (ws_isOpen t st); [|exact H].
  simpl. apply keeps_sessions, keeps_send, H.
Qed.

Lemma keeps_handleInputMessage now ws m st0 st :
  keeps st0 st -> keeps st0 (snd (handleInputMessage now ws m st)).
Proof.
  intros H. unfold handleInputMessage.
  destruct (negb (truthy (ws_session ws st))); [exact H|].
  destruct (sessions st !! _); [|exact H].
  destruct (negb (bool_decide _)); [exact H|].
  pose proof (keeps_forwardMessage now (default EmptyString (ws_session ws st)) ws m st0 st H) as Hf.
  destruct (forwardMessage _ _ _ _ _) as [[] st']; exact Hf.
Qed.

Lemma keeps_handleStateMessage now ws m st0 st :
  keeps st0 st -> keeps st0 (snd (handleStateMessage now ws m st)).
Proof.
  intros H. unfold handleStateMessage.
  destruct (negb (truthy (ws_session ws st))); [exact H|].
  destruct (sessions st !! _); [|exact H].
  destruct (negb (bool_decide _)); [exact H|].
  pose proof (keeps_forwardMessage now (default EmptyString (ws_session ws st)) ws m st0 st H) as Hf.
  destruct (forwardMessage _ _ _ _ _) as [[] st']; exact Hf.
Qed.

Lemma keeps_handlePingMessage now ws st0 st :
  keeps st0 st -> keeps st0 (snd (handlePingMessage now ws st)).
Proof.
  intros H. unfold handlePingMessage, bind, exec. simpl.
  destruct (truthy _); [apply keeps_sessions|]; apply keeps_send, H.
Qed.

Lemma keeps_addPlayer now room ws r st0 st :
  (forall r room s, proj (assign r room s) = proj s) \/ ws <> k ->
  keeps st0 st -> keeps st0 (addPlayer now room ws r st).
Proof.
  intros Ha H. unfold addPlayer.
  destruct (sessions st !! room) as [s|]; [|exact H].
  apply keeps_sessions, keeps_alter.
  { destruct Ha as [Ha|Ha]; [left; intros; apply Ha|right; exact Ha]. }
  destruct (r =? "host")%string; [|destruct (r =? "guest")%string].
  - apply keeps_sessions. destruct (host s); [apply keeps_close|]; exact H.
  - apply keeps_sessions. destruct (guest s); [apply keeps_close|]; exact H.
  - exact H.
Qed.

Lemma keeps_handleRoleMessage now ws m st0 st :
  (forall r room s, proj (assign r room s) = proj s) \/ ws <> k ->
  keeps st0 st -> keeps st0 (snd (handleRoleMessage now ws m st)).
Proof.
  intros Ha H. unfold handleRoleMessage.
  destruct (_ || _); [exact H|].
  destruct (_ && _); [exact H|].
  unfold bind, exec. simpl.
  apply keeps_send, keeps_addPlayer; [exact Ha|].
  destruct (sessions st !! _); [exact H|apply keeps_sessions, H].
Qed.

Lemma keeps_handleMessage now ws data st :
  (forall r room s, proj (assign r room s) = proj s) \/
  role_from k (Incoming now ws data) = false ->
  keeps st (snd (handleMessage now ws data st)).
Proof.
  intros Ha.
  assert (Ht : keeps st (snd (handleMessage_try now ws data st))).
  { unfold handleMessage_try, bind.
    destruct (MAX_MESSAGE_SIZE <? d_length data); [apply keeps_refl|].
    unfold ret.
    pose proof (keeps_checkRateLimit now ws st st (keeps_refl st)) as Hc.
    destruct (checkRateLimit now ws st) as [[[]|e] st1]; [|exact Hc].
    simpl in Hc. simpl in Ha.
    destruct (d_json data) as [e|m]; [exact Hc|].
    destruct (m_type m =? "role")%string eqn:Er.
    { apply keeps_handleRoleMessage; [|exact Hc].
      destruct Ha as [Ha|Ha]; [left; exact Ha|right].
      rewrite andb_true_r in Ha. apply Pos.eqb_neq. exact Ha. }
    destruct (m_type m =? "input")%string; [apply keeps_handleInputMessage, Hc|].
    destruct (m_type m =? "state")%string; [apply keeps_handleStateMessage, Hc|].
    destruct (m_type m =? "ping")%string; [apply keeps_handlePingMessage, Hc|].
    exact Hc. }
  unfold handleMessage.
  destruct (handleMessage_try now ws data st) as [[[]|e] st1]; [exact Ht|].
  simpl. apply keeps_sendError, keeps_log, Ht.
Qed.

Lemma keeps_onClose now ws st : keeps st (onClose now ws st).
Proof.
  unfold onClose.
  set (st0 := set_sockets (alter mark_closed ws) st).
  assert (H0 : keeps st st0).
  { apply keeps_alter; [left; exact proj_closed|apply keeps_refl]. }
  destruct (truthy (ws_session ws st0)); [|exact H0].
  destruct (sessions st0 !! _); [|exact H0].
  set (st1 := removePlayer _ _ _ _).
  assert (H1 : keeps st st1) by exact H0.
  destruct (sessions st1 !! _) as [s|]; [|exact H1].
  destruct (if same_socket (host s) ws then guest s else host s) as [o|]; [|exact H1].
  destruct (ws_isOpen o st1); [apply keeps_send|]; exact H1.
Qed.

End Frame.

(** **** What the handlers leave alone outside the socket store *)

Ltac break_match :=
  match goal with
  | |- context [match ?x with _ => _ end] => destruct x eqn:?
  end.

Ltac by_cases := repeat (simpl; try reflexivity; break_match).

Lemma forwardMessage_rateLimits now room ws m st :
  rateLimits (snd (forwardMessage now room ws m st)) = rateLimits st.
Proof. unfold forwardMessage. by_cases. Qed.

Lemma addPlayer_rateLimits now room ws r st :
  rateLimits (addPlayer now room ws r st) = rateLimits st.
Proof. unfold addPlayer. by_cases. Qed.

Lemma dispatch_rateLimits now ws m st :
  rateLimits (snd (handleRoleMessage now ws m st)) = rateLimits st /\
  rateLimits (snd (handleInputMessage now ws m st)) = rateLimits st /\
  rateLimits (snd (handleStateMessage now ws m st)) = rateLimits st /\
  rateLimits (snd (handlePingMessage now ws st)) = rateLimits st.
Proof.
  repeat split.
  - unfold handleRoleMessage, bind, exec, throw.
    destruct (_ || _); [reflexivity|]. destruct (_ && _); [reflexivity|].
    simpl. rewrite addPlayer_rateLimits. by_cases.
  - unfold handleInputMessage.
    destruct (negb (truthy _)); [reflexivity|].
    destruct (sessions st !! _); [|reflexivity].
    destruct (negb (bool_decide _)); [reflexivity|].
    pose proof (forwardMessage_rateLimits now (default EmptyString (ws_session ws st)) ws m st) as H.
    destruct (forwardMessage _ _ _ _ _) as [[] ?]; exact H.
  - unfold handleStateMessage.
    destruct (negb (truthy _)); [reflexivity|].
    destruct (sessions st !! _); [|reflexivity].
    destruct (negb (bool_decide _)); [reflexivity|].
    pose proof (forwardMessage_rateLimits now (default EmptyString (ws_session ws st)) ws m st) as H.
    destruct (forwardMessage _ _ _ _ _) as [[] ?]; exact H.
  - unfold handlePingMessage, bind, exec. by_cases.
Qed.

Lemma sendError_rateLimits ws c st : rateLimits (sendError ws c st) = rateLimits st.
Proof. unfold sendError. by_cases. Qed.

Lemma checkRateLimit_frame now ws st :
  sessions (snd (checkRateLimit now ws st)) = sessions st /\
  sockets (snd (checkRateLimit now ws st)) = sockets st /\
  console (snd (checkRateLimit now ws st)) = console st.
Proof. unfold checkRateLimit. by_cases; repeat split; reflexivity. Qed.

(** A message within the size limit changes the limiter's table as
    [checkRateLimit] does, whatever the handler does next. *)
Lemma handleMessage_rateLimits now ws data st :
  d_length data <= MAX_MESSAGE_SIZE ->
  rateLimits (snd (handleMessage now ws data st)) =
  rateLimits (snd (checkRateLimit now ws st)).
Proof.
  intros Hsize.
  assert (Ht : rateLimits (snd (handleMessage_try now ws data st)) =
               rateLimits (snd (checkRateLimit now ws st))).
  { unfold handleMessage_try, bind, ret, throw.
    destruct (Z.ltb_spec MAX_MESSAGE_SIZE (d_length data)); [lia|].
    destruct (checkRateLimit now ws st) as [[[]|e] st1]; [|reflexivity].
    simpl. destruct (dispatch_rateLimits now ws (match d_json data with inr m => m | inl _ => Message EmptyString None None EmptyString end) st1)
      as (Hr & Hi & Hs & Hp).
    destruct (d_json data) as [e|m]; [reflexivity|].
    destruct (m_type m =? "role")%string; [exact Hr|].
    destruct (m_type m =? "input")%string; [exact Hi|].
    destruct (m_type m =? "state")%string; [exact Hs|].
    destruct (m_type m =? "ping")%string; [exact Hp|]. reflexivity. }
  unfold handleMessage.
  destruct (handleMessage_try now ws data st) as [[[]|e] st1]; [exact Ht|].
  simpl in *. rewrite sendError_rateLimits. exact Ht.
Qed.


(** **** The limiter's window *)

Local Arguments Nat.leb : simpl never.
Local Arguments Z.leb : simpl never.
Local Arguments Z.sub : simpl never.

Lemma checkRateLimit_admits ip t0 j now ws st :
  remoteAddress <$> (sockets st !! ws) = Some ip ->
  t0 <= now < t0 + 1000 ->
  window_state ip t0 j st -> (j < 60)%nat ->
  fst (checkRateLimit now ws st) = inl tt /\
  window_state ip t0 (S j) (snd (checkRateLimit now ws st)).
Proof.
  intros Hip Hnow Hw Hj.
  assert (Ha : ws_remoteAddress ws st = ip).
  { unfold ws_remoteAddress. destruct (sockets st !! ws); simpl in Hip; congruence. }
  unfold checkRateLimit. rewrite Ha.
  destruct j as [|j]; simpl in Hw.
  - unfold fresh_window in Hw.
    destruct (rateLimits st !! ip) as [e|] eqn:E.
    + rewrite E. simpl.
      destruct (Z.leb_spec 1000 (now - lastReset e)); [|lia].
      simpl. split; [reflexivity|].
      eexists. rewrite lookup_insert_eq. split; [reflexivity|]. simpl. split; [lia|reflexivity].
    + simpl. rewrite lookup_insert_eq. simpl.
      destruct (Z.leb_spec 1000 (now - now)); [lia|].
      simpl. split; [reflexivity|].
      eexists. rewrite lookup_insert_eq. split; [reflexivity|]. simpl. split; [lia|reflexivity].
  - destruct Hw as (e & E & Hreset & Hlen).
    rewrite E. simpl. rewrite E. simpl.
    destruct (Z.leb_spec 1000 (now - lastReset e)); [lia|].
    unfold MAX_MESSAGES_PER_SECOND.
    destruct (Nat.leb_spec 60 (length (messages e))); [lia|].
    simpl. split; [reflexivity|].
    eexists. rewrite lookup_insert_eq. split; [reflexivity|]. simpl.
    split; [lia|]. rewrite length_app. simpl. lia.
Qed.

Lemma checkRateLimit_rejects ip t0 now ws st :
  remoteAddress <$> (sockets st !! ws) = Some ip ->
  t0 <= now < t0 + 1000 ->
  window_state ip t0 60 st ->
  fst (checkRateLimit now ws st) = inr "RATE_LIMITED".
Proof.
  intros Hip Hnow (e & E & Hreset & Hlen).
  assert (Ha : ws_remoteAddress ws st = ip).
  { unfold ws_remoteAddress. destruct (sockets st !! ws); simpl in Hip; congruence. }
  unfold checkRateLimit. rewrite Ha, E. simpl. rewrite E. simpl.
  destruct (Z.leb_spec 1000 (now - lastReset e)); [lia|].
  unfold MAX_MESSAGES_PER_SECOND.
  destruct (Nat.leb_spec 60 (length (messages e))); [reflexivity|lia].
Qed.

Lemma send_on_fields f s :
  remoteAddress (send_on f s) = remoteAddress s /\
  session (send_on f s) = session s /\ role (send_on f s) = role s /\
  readyState (send_on f s) = readyState s /\ closeCalls (send_on f s) = closeCalls s.
Proof. unfold send_on. destruct (is_open (readyState s)); repeat split; reflexivity. Qed.

Lemma deliver_keeps_address k st a :
  keeps remoteAddress k st (deliver st a).
Proof.
  unfold deliver. apply keeps_handleMessage.
  - intros f s. apply send_on_fields.
  - reflexivity.
  - left. reflexivity.
Qed.

Lemma burst_of_deliver ip t0 st a l :
  burst_of ip t0 st l -> burst_of ip t0 (deliver st a) l.
Proof.
  unfold burst_of. intros H. eapply Forall_impl; [exact H|]. intros b (Hb & Hrest).
  split; [|exact Hrest]. rewrite <- Hb. apply deliver_keeps_address.
Qed.

Lemma deliver_window ip t0 j st a :
  burst_of ip t0 st [a] -> window_state ip t0 j st -> (j < 60)%nat ->
  processed st a /\ window_state ip t0 (S j) (deliver st a).
Proof.
  intros Hb Hw Hj. apply Forall_inv in Hb. destruct Hb as (Hip & Hsize & Hnow).
  destruct (checkRateLimit_admits ip t0 j (a_now a) (a_ws a) st Hip Hnow Hw Hj) as [Hok Hw'].
  split; [split; assumption|].
  unfold deliver, window_state.
  rewrite handleMessage_rateLimits by exact Hsize. exact Hw'.
Qed.

Lemma burst_processed ip t0 l : forall j st,
  burst_of ip t0 st l -> window_state ip t0 j st -> (j + length l <= 60)%nat ->
  (forall k ak, l !! k = Some ak -> processed (deliver_all (take k l) st) ak) /\
  window_state ip t0 (j + length l) (deliver_all l st) /\
  (forall b, burst_of ip t0 st b -> burst_of ip t0 (deliver_all l st) b).
Proof.
  induction l as [|a l IH]; intros j st Hb Hw Hlen.
  - simpl. rewrite Nat.add_0_r. split; [|split; [exact Hw|auto]].
    intros k ak Hk. rewrite lookup_nil in Hk. discriminate.
  - simpl in Hlen.
    destruct (deliver_window ip t0 j st a) as [Hp Hw']; [|exact Hw|lia|].
    { constructor; [|constructor]. exact (Forall_inv Hb). }
    destruct (IH (S j) (deliver st a)) as (IH1 & IH2 & IH3); [|exact Hw'|lia|].
    { apply burst_of_deliver. exact (Forall_inv_tail Hb). }
    split; [|split].
    + intros [|k] ak Hk; simpl in Hk.
      * injection Hk as ->. exact Hp.
      * simpl. apply IH1. exact Hk.
    + simpl. replace (j + S (length l))%nat with (S j + length l)%nat by lia. exact IH2.
    + intros b Hbb. simpl. apply IH3. apply burst_of_deliver. exact Hbb.
Qed.


(** **** The [catch] of [handleMessage] *)

(** What the sender sees when the [try] block throws [e]. *)
Lemma handleMessage_caught now ws data st e st1 :
  handleMessage_try now ws data st = (inr e, st1) -> e <> EmptyString ->
  handleMessage now ws data st = (inr e, sendError ws e (log (ErrHandling e) st1)).
Proof.
  intros Ht He. unfold handleMessage. rewrite Ht.
  destruct (String.eqb_spec e EmptyString); [contradiction|reflexivity].
Qed.

Lemma sendError_socket ws c st sk :
  sockets st !! ws = Some sk ->
  exists sk', sockets (sendError ws c st) !! ws = Some sk' /\
    readyState sk' = readyState sk /\ closeCalls sk' = closeCalls sk /\
    session sk' = session sk /\
    (readyState sk = OPEN -> sent sk' = (sent sk ++ [ErrorFrame c])%list).
Proof.
  intros Hsk. unfold sendError, ws_isOpen. rewrite Hsk.
  destruct (is_open (readyState sk)) eqn:Eo.
  - exists (send_on (ErrorFrame c) sk). simpl. rewrite lookup_alter_eq, Hsk.
    split; [reflexivity|]. unfold send_on. rewrite Eo. simpl. auto.
  - exists sk. repeat split; try assumption.
    intros Ho. rewrite Ho in Eo. discriminate.
Qed.

(** **** The sixty-first message *)

Lemma rejected_by_limiter ip t0 st a :
  burst_of ip t0 st [a] -> window_state ip t0 60 st -> rate_limited st a.
Proof.
  intros Hb Hw. apply Forall_inv in Hb. destruct Hb as (Hip & Hsize & Hnow).
  pose proof (checkRateLimit_rejects ip t0 _ _ st Hip Hnow Hw) as Hrej.
  destruct (checkRateLimit_frame (a_now a) (a_ws a) st) as (Hse & Hso & _).
  destruct (checkRateLimit (a_now a) (a_ws a) st) as [r st1] eqn:Ec.
  simpl in Hrej, Hse, Hso. subst r.
  assert (Ht : handleMessage_try (a_now a) (a_ws a) (a_data a) st = (inr "RATE_LIMITED", st1)).
  { unfold handleMessage_try, bind, ret, throw.
    destruct (Z.ltb_spec MAX_MESSAGE_SIZE (d_length (a_data a))); [lia|].
    rewrite Ec. reflexivity. }
  eexists. split; [apply handleMessage_caught; [exact Ht|discriminate]|].
  split.
  - unfold sendError. destruct (ws_isOpen _ _); exact Hse.
  - intros sk Hsk.
    destruct (sendError_socket (a_ws a) "RATE_LIMITED" (log (ErrHandling "RATE_LIMITED") st1) sk)
      as (sk' & H1 & H2 & H3 & _ & H4).
    { simpl. rewrite Hso. exact Hsk. }
    exists sk'. auto.
Qed.

(** C7 (as amended).  Sixty-one messages of one address, each within the
    size limit, arrive less than a second after [t0], and the first of
    them opens a window of the limiter (the address has no entry, or its
    window began a second or more before [t0]).  Then the first sixty pass
    the limiter and the sixty-first is refused with [RATE_LIMITED]: its
    sender is sent the [error] frame when its socket is OPEN, and the
    refusal closes no socket and changes no session. *)
Theorem burst_sixty_first_rate_limited ip t0 st l a :
  length l = 60%nat -> burst_of ip t0 st (l ++ [a]) -> fresh_window ip t0 st ->
  sixty_one_scenario ip t0 st l a.
Proof.
  intros Hlen Hb Hfresh. apply Forall_app in Hb. destruct Hb as [Hl Ha].
  destruct (burst_processed ip t0 l 0 st Hl Hfresh) as (Hp & Hw & Hk); [lia|].
  split; [exact Hp|].
  apply (rejected_by_limiter ip t0).
  - apply Hk. exact Ha.
  - simpl in Hw. rewrite Hlen in Hw. exact Hw.
Qed.

(** **** [input] before [role] *)

Lemma keeps_session_step ws st e :
  role_from ws e = false ->
  (forall ws' ip, e <> Connection ws' ip) ->
  keeps session ws st (step st e).
Proof.
  intros Hr Hc. destruct e as [ws' ip|now ws' data|now ws'|now]; simpl.
  - destruct (Hc ws' ip). reflexivity.
  - apply keeps_handleMessage.
    + intros f s. apply send_on_fields.
    + reflexivity.
    + right. exact Hr.
  - apply keeps_onClose; try reflexivity. intros f s. apply send_on_fields.
  - reflexivity.
Qed.

(** A socket that sent no [role] message has no [session]. *)
Lemma no_role_no_session ws evs : forall st,
  forallb (fun e => negb (role_from ws e)) evs = true ->
  session <$> (sockets st !! ws) = None \/ session <$> (sockets st !! ws) = Some None ->
  session <$> (sockets (run evs st) !! ws) = None \/
  session <$> (sockets (run evs st) !! ws) = Some None.
Proof.
  induction evs as [|e evs IH]; intros st Hall Hst; [exact Hst|].
  simpl in Hall. apply andb_prop in Hall. destruct Hall as [He Hall].
  simpl. apply IH; [exact Hall|].
  apply negb_true_iff in He.
  destruct e as [ws' ip|now ws' data|now ws'|now].
  - simpl. unfold onConnection.
    destruct (sockets st !! ws') eqn:E; [exact Hst|]. simpl.
    rewrite lookup_insert. case_decide; [right; reflexivity|exact Hst].
  - rewrite (keeps_session_step ws st _ He); [exact Hst|discriminate].
  - rewrite (keeps_session_step ws st _ He); [exact Hst|discriminate].
  - rewrite (keeps_session_step ws st _ He); [exact Hst|discriminate].
Qed.

(** C8.  A socket that sent no [role] message since the server started
    sends an [input] that the limiter lets through: the handler catches
    [NOT_IN_SESSION], the [error] frame with that code is written to the
    socket, and the table of sessions is as it was. *)
Theorem input_before_role_not_in_session evs now ws data m sk :
  forallb (fun e => negb (role_from ws e)) evs = true ->
  sockets (run evs init) !! ws = Some sk -> readyState sk = OPEN ->
  processed (run evs init) (now, ws, data) ->
  d_json data = inr m -> m_type m = "input" ->
  not_in_session_reply now ws data (run evs init) sk.
Proof.
  intros Hall Hsk Hopen [Hsize Hrate] Hjson Htype.
  unfold not_in_session_reply.
  set (st := run evs init) in *.
  assert (Hsess : session sk = None).
  { destruct (no_role_no_session ws evs init Hall) as [H|H].
    - left. reflexivity.
    - fold st in H. rewrite Hsk in H. discriminate.
    - fold st in H. rewrite Hsk in H. simpl in H. congruence. }
  destruct (checkRateLimit_frame now ws st) as (Hse & Hso & _).
  unfold a_now, a_ws, a_data in Hsize, Hrate. cbn [fst snd] in Hsize, Hrate.
  destruct (checkRateLimit now ws st) as [r st1] eqn:Ec.
  cbn [fst snd] in Hrate, Hse, Hso. subst r.
  assert (Ht : handleMessage_try now ws data st = (inr "NOT_IN_SESSION", st1)).
  { unfold handleMessage_try, bind, ret, throw.
    destruct (Z.ltb_spec MAX_MESSAGE_SIZE (d_length data)); [lia|].
    rewrite Ec, Hjson, Htype. simpl.
    unfold handleInputMessage, ws_session. rewrite Hso, Hsk, Hsess. reflexivity. }
  eexists. split; [apply handleMessage_caught; [exact Ht|discriminate]|].
  split.
  - unfold sendError. destruct (ws_isOpen _ _); exact Hse.
  - destruct (sendError_socket ws "NOT_IN_SESSION" (log (ErrHandling "NOT_IN_SESSION") st1) sk)
      as (sk' & H1 & _ & _ & _ & H4).
    { simpl. rewrite Hso. exact Hsk. }
    exists sk'. auto.
Qed.

(** **** The soft-fail policy of [input] *)

Lemma handleInputMessage_not_guest now ws m st sk room s :
  sockets st !! ws = Some sk -> session sk = Some room -> room <> EmptyString ->
  sessions st !! room = Some s -> role sk <> Some "guest" ->
  handleInputMessage now ws m st = (inl tt, log (WarnHostInput room) st).
Proof.
  intros Hsk Hsess Hroom Hs Hrole.
  unfold handleInputMessage, ws_session, ws_role.
  rewrite Hsk, Hsess, (truthy_intro room Hroom). simpl. rewrite Hs.
  rewrite bool_decide_eq_false_2 by exact Hrole. reflexivity.
Qed.

Lemma handleInputMessage_no_host now ws m st sk room s :
  sockets st !! ws = Some sk -> session sk = Some room -> room <> EmptyString ->
  sessions st !! room = Some s -> role sk = Some "guest" ->
  host s = None \/ (exists h, host s = Some h /\ h <> ws /\ ws_isOpen h st = false) ->
  handleInputMessage now ws m st = (inl tt, log (WarnInputNotForwarded room) st).
Proof.
  intros Hsk Hsess Hroom Hs Hrole Hhost.
  unfold handleInputMessage, ws_session, ws_role.
  rewrite Hsk, Hsess, (truthy_intro room Hroom). simpl. rewrite Hs.
  rewrite bool_decide_eq_true_2 by exact Hrole. simpl.
  unfold forwardMessage. rewrite Hs.
  destruct Hhost as [Hh|(h & Hh & Hne & Hclosed)]; rewrite Hh; simpl.
  - reflexivity.
  - destruct (Pos.eqb_spec h ws); [contradiction|]. rewrite Hclosed. reflexivity.
Qed.

(** A message the limiter lets through reaches the [input] handler. *)
Lemma handleMessage_input now ws data m st :
  processed st (now, ws, data) -> d_json data = inr m -> m_type m = "input" ->
  handleMessage_try now ws data st =
  handleInputMessage now ws m (snd (checkRateLimit now ws st)).
Proof.
  intros [Hsize Hrate] Hjson Htype.
  unfold a_now, a_ws, a_data in Hsize, Hrate. cbn [fst snd] in Hsize, Hrate.
  unfold handleMessage_try, bind, ret.
  destruct (Z.ltb_spec MAX_MESSAGE_SIZE (d_length data)); [lia|].
  destruct (checkRateLimit now ws st) as [r st1]. cbn [fst snd] in *. subst r.
  rewrite Hjson, Htype. reflexivity.
Qed.

(** C9 (as amended).  An [input] that the limiter lets through, from a
    socket whose session exists: it is dropped with a warning and the
    handler returns (nothing is written to any socket) when the sender's
    role is not [guest], and when the sender's role is [guest] and the
    host slot is empty or holds another socket that is not OPEN; and when
    the message does change the socket store, the sender's role is
    [guest]. *)
Theorem input_soft_fail_policy now ws data m st sk room s :
  sockets st !! ws = Some sk -> session sk = Some room -> room <> EmptyString ->
  sessions st !! room = Some s ->
  processed st (now, ws, data) -> d_json data = inr m -> m_type m = "input" ->
  input_soft_fail now ws data st sk room s.
Proof.
  intros Hsk Hsess Hroom Hs Hp Hjson Htype. unfold input_soft_fail.
  set (st1 := snd (checkRateLimit now ws st)).
  destruct (checkRateLimit_frame now ws st) as (Hse & Hso & _). fold st1 in Hse, Hso.
  assert (Hsk1 : sockets st1 !! ws = Some sk) by (rewrite Hso; exact Hsk).
  assert (Hs1 : sessions st1 !! room = Some s) by (rewrite Hse; exact Hs).
  pose proof (handleMessage_input now ws data m st Hp Hjson Htype) as Ht. fold st1 in Ht.
  assert (H1 : role sk <> Some "guest" ->
     handleMessage now ws data st = (inl tt, log (WarnHostInput room) st1)).
  { intros Hrole. unfold handleMessage. rewrite Ht.
    rewrite (handleInputMessage_not_guest now ws m st1 sk room s); auto. }
  split; [exact H1|]. split.
  - intros Hrole Hhost. unfold handleMessage. rewrite Ht.
    rewrite (handleInputMessage_no_host now ws m st1 sk room s); auto.
    destruct Hhost as [Hh|(h & Hh & Hne & Hclosed)]; [left; exact Hh|right].
    exists h. unfold ws_isOpen in *. rewrite Hso. auto.
  - intros Hchanged. destruct (decide (role sk = Some "guest")) as [|Hn]; [assumption|].
    exfalso. apply Hchanged. rewrite (H1 Hn). exact Hso.
Qed.

(** **** The replace policy of [role] *)





(** A [role] message with both fields and a role of the two: the session
    exists, so the handler adds the player and acknowledges. *)
Lemma handleRoleMessage_joins now ws r room m st s :
  r = "host" \/ r = "guest" -> room <> EmptyString ->
  m_role m = Some r -> m_room m = Some room -> sessions st !! room = Some s ->
  handleRoleMessage now ws m st =
  (inl tt, ws_send ws (RoleAck r room) (addPlayer now room ws r st)).
Proof.
  intros Hr Hroom Hmr Hmm Hs.
  assert (Hrt : truthy (Some r) = true) by (destruct Hr; subst; reflexivity).
  assert (Hrr : negb (r =? "host")%string && negb (r =? "guest")%string = false)
    by (destruct Hr; subst; reflexivity).
  unfold handleRoleMessage.
  rewrite Hmr, Hmm, (truthy_intro room Hroom), Hrt.
  change (default EmptyString (Some r)) with r.
  change (default EmptyString (Some room)) with room.
  rewrite Hrr. unfold bind, exec. cbn [negb orb andb]. cbv beta iota. rewrite Hs.
  reflexivity.
Qed.


(** **** Runs of the server *)




Lemma burst_of_pings ip t0 st n now :
  remoteAddress <$> (sockets st !! 1%positive) = Some ip ->
  t0 <= now < t0 + 1000 ->
  burst_of ip t0 st (pings n now).
Proof.
  intros Hip Hnow. unfold burst_of, pings. apply Forall_replicate.
  split; [exact Hip|]. split; [|exact Hnow].
  unfold a_data, json, MAX_MESSAGE_SIZE. cbn. lia.
Qed.

Lemma sixty_one_pings :
  (length (pings 60 0) = 60%nat /\
   burst_of "10.0.0.1" 0 connected (pings 60 0 ++ [(0, 1%positive, json ping_msg)]) /\
   fresh_window "10.0.0.1" 0 connected) /\
  sixty_one_scenario "10.0.0.1" 0 connected (pings 60 0) (0, 1%positive, json ping_msg).
Proof.
  assert (H : length (pings 60 0) = 60%nat /\
              burst_of "10.0.0.1" 0 connected (pings 60 0 ++ [(0, 1%positive, json ping_msg)]) /\
              fresh_window "10.0.0.1" 0 connected).
  { split; [reflexivity|]. split.
    - apply (burst_of_pings "10.0.0.1" 0 connected 61 0); [vm_compute; reflexivity|lia].
    - vm_compute. exact I. }
  split; [exact H|].
  destruct H as (H1 & H2 & H3).
  exact (burst_sixty_first_rate_limited "10.0.0.1" 0 connected _ _ H1 H2 H3).
Defined.

(** C7 as stated fails when the window of the limiter resets inside the
    second.  The address sent one message at time 0; thirty messages at
    500 and thirty-one at 1200 are sixty-one messages within 700 ms, and
    the limiter lets all of them through: the window that began at 0 ends
    at 1000 and the counter starts again. *)
Lemma straddling_burst_all_processed :
  length (pings 30 500 ++ pings 30 1200) = 60%nat /\
  burst_of "10.0.0.1" 500 window_open_at_0
    ((pings 30 500 ++ pings 30 1200) ++ [(1200, 1%positive, json ping_msg)]) /\
  ~ sixty_one_scenario "10.0.0.1" 500 window_open_at_0
      (pings 30 500 ++ pings 30 1200) (1200, 1%positive, json ping_msg).
Proof.
  split; [reflexivity|]. split.
  - unfold burst_of. rewrite !Forall_app. split; [split|].
    + apply (burst_of_pings "10.0.0.1" 500 window_open_at_0 30 500);
        [vm_compute; reflexivity|lia].
    + apply (burst_of_pings "10.0.0.1" 500 window_open_at_0 30 1200);
        [vm_compute; reflexivity|lia].
    + apply (burst_of_pings "10.0.0.1" 500 window_open_at_0 1 1200);
        [vm_compute; reflexivity|lia].
  - intros [_ (st' & Heq & _)]. vm_compute in Heq. discriminate.
Qed.

Lemma first_message_is_input :
  (forallb (fun e => negb (role_from 1 e)) [Connection 1 "10.0.0.1"] = true /\
   sockets connected !! 1%positive = Some (mkSocket "10.0.0.1" OPEN None None [] []) /\
   processed connected (0, 1%positive, json input_msg) /\
   d_json (json input_msg) = inr input_msg /\ m_type input_msg = "input") /\
  not_in_session_reply 0 1 (json input_msg) connected
    (mkSocket "10.0.0.1" OPEN None None [] []).
Proof.
  assert (H : forallb (fun e => negb (role_from 1 e)) [Connection 1 "10.0.0.1"] = true /\
              sockets connected !! 1%positive = Some (mkSocket "10.0.0.1" OPEN None None [] []) /\
              processed connected (0, 1%positive, json input_msg) /\
              d_json (json input_msg) = inr input_msg /\ m_type input_msg = "input").
  { split; [reflexivity|]. split; [vm_compute; reflexivity|]. split; [|split; reflexivity].
    split; [unfold a_data, json, MAX_MESSAGE_SIZE; cbn; lia|vm_compute; reflexivity]. }
  split; [exact H|].
  destruct H as (H1 & H2 & H3 & H4 & H5).
  exact (input_before_role_not_in_session [Connection 1 "10.0.0.1"] 0 1 (json input_msg)
           input_msg _ H1 H2 eq_refl H3 H4 H5).
Defined.

Lemma host_sends_input :
  (sockets host_joined !! 1%positive =
     Some (mkSocket "10.0.0.1" OPEN (Some "host") (Some "R") [RoleAck "host" "R"] []) /\
   sessions host_joined !! "R" = Some (mkSession "R" (Some 1%positive) None 0 0 0) /\
   "R" <> EmptyString /\
   processed host_joined (1, 1%positive, json input_msg)) /\
  input_soft_fail 1 1 (json input_msg) host_joined
    (mkSocket "10.0.0.1" OPEN (Some "host") (Some "R") [RoleAck "host" "R"] [])
    "R" (mkSession "R" (Some 1%positive) None 0 0 0).
Proof.
  assert (H : sockets host_joined !! 1%positive =
                Some (mkSocket "10.0.0.1" OPEN (Some "host") (Some "R") [RoleAck "host" "R"] []) /\
              sessions host_joined !! "R" = Some (mkSession "R" (Some 1%positive) None 0 0 0) /\
              "R" <> EmptyString /\
              processed host_joined (1, 1%positive, json input_msg)).
  { split; [vm_compute; reflexivity|]. split; [vm_compute; reflexivity|].
    split; [discriminate|].
    split; [unfold a_data, json, MAX_MESSAGE_SIZE; cbn; lia|vm_compute; reflexivity]. }
  split; [exact H|].
  destruct H as (H1 & H2 & H3 & H4).
  exact (input_soft_fail_policy 1 1 (json input_msg) input_msg host_joined _ "R" _
           H1 eq_refl H3 H2 H4 eq_refl eq_refl).
Defined.

(** C9 as stated fails for a socket with no session: its [input] is not
    dropped in silence, the [error] frame [NOT_IN_SESSION] is written to
    it. *)
Lemma input_without_session_is_answered :
  ws_session 1 connected = None /\
  ~ silently_dropped 0 1 (json input_msg) connected /\
  (exists sk, sockets (snd (handleMessage 0 1 (json input_msg) connected)) !! 1%positive
              = Some sk /\ sent sk = [ErrorFrame "NOT_IN_SESSION"]).
Proof.
  split; [vm_compute; reflexivity|]. split.
  - intros H.
    destruct (H (mkSocket "10.0.0.1" OPEN None None [] [])) as (sk' & H1 & H2);
      [vm_compute; reflexivity|].
    vm_compute in H1. injection H1 as <-. discriminate.
  - eexists. split; vm_compute; reflexivity.
Qed.


(** **** Messages that fail *)

Lemma sendError_sessions ws c st : sessions (sendError ws c st) = sessions st.
Proof. unfold sendError. destruct (ws_isOpen ws st); reflexivity. Qed.

Lemma sendError_sockets ws c st st1 :
  sockets st1 = sockets st ->
  sockets (sendError ws c st1) = sockets (sendError ws c st).
Proof.
  intros H. unfold sendError, ws_isOpen. rewrite H.
  destruct (sockets st !! ws) as [s|]; [|exact H].
  destruct (is_open (readyState s)); [|exact H].
  simpl. rewrite H. reflexivity.
Qed.

Lemma handleRoleMessage_error now ws m st e st1 :
  handleRoleMessage now ws m st = (inr e, st1) ->
  sessions st1 = sessions st /\ sockets st1 = sockets st.
Proof.
  unfold handleRoleMessage, bind, exec, throw.
  destruct (_ || _); [intros [= <- <-]; split; reflexivity|].
  destruct (_ && _); [intros [= <- <-]; split; reflexivity|].
  discriminate.
Qed.

Lemma handleInputMessage_error now ws m st e st1 :
  handleInputMessage now ws m st = (inr e, st1) -> st1 = st.
Proof.
  unfold handleInputMessage.
  destruct (negb (truthy _)); [congruence|].
  destruct (sessions st !! _); [|congruence].
  destruct (negb (bool_decide _)); [discriminate|].
  destruct (forwardMessage _ _ _ _ _) as [[] ?]; discriminate.
Qed.

Lemma handleStateMessage_error now ws m st e st1 :
  handleStateMessage now ws m st = (inr e, st1) -> st1 = st.
Proof.
  unfold handleStateMessage.
  destruct (negb (truthy _)); [congruence|].
  destruct (sessions st !! _); [|congruence].
  destruct (negb (bool_decide _)); [discriminate|].
  destruct (forwardMessage _ _ _ _ _) as [[] ?]; discriminate.
Qed.

(** When the [try] block throws, nothing but the limiter and the console
    was written. *)
Lemma handleMessage_try_error now ws data st e st1 :
  handleMessage_try now ws data st = (inr e, st1) ->
  sessions st1 = sessions st /\ sockets st1 = sockets st.
Proof.
  unfold handleMessage_try, bind, ret, throw.
  destruct (MAX_MESSAGE_SIZE <? d_length data); [intros [= <- <-]; split; reflexivity|].
  destruct (checkRateLimit_frame now ws st) as (Hse & Hso & _).
  destruct (checkRateLimit now ws st) as [[[]|e0] st0]; cbn [snd] in Hse, Hso;
    [|intros [= <- <-]; split; assumption].
  destruct (d_json data) as [e0|m]; [intros [= <- <-]; split; assumption|].
  rewrite <- Hse, <- Hso.
  destruct (m_type m =? "role")%string; [apply handleRoleMessage_error|].
  destruct (m_type m =? "input")%string;
    [intros H; apply handleInputMessage_error in H; subst; split; reflexivity|].
  destruct (m_type m =? "state")%string;
    [intros H; apply handleStateMessage_error in H; subst; split; reflexivity|].
  destruct (m_type m =? "ping")%string; discriminate.
Qed.

Lemma caught_only_error_reply now ws data st e st' :
  handleMessage now ws data st = (inr e, st') ->
  only_error_reply ws e st st'.
Proof.
  unfold handleMessage.
  destruct (handleMessage_try now ws data st) as [[[]|e0] st1] eqn:Et; [discriminate|].
  intros [= <- <-]. apply handleMessage_try_error in Et. destruct Et as [Hse Hso].
  split.
  - rewrite sendError_sessions. exact Hse.
  - apply sendError_sockets. exact Hso.
Qed.

(** X1.  A relay message whose handling ends in an error changed no
    session, and in the socket store it did what [sendError] does: the
    [error] frame is written to the sender when its socket is OPEN, and
    no other socket and no other field is touched. *)
Theorem failed_message_changes_nothing now ws data st e st' :
  handleMessage now ws data st = (inr e, st') ->
  only_error_reply ws e st st'.
Proof. apply caught_only_error_reply. Qed.

Lemma input_of_stranger_fails :
  handleMessage 0 1 (json input_msg) connected =
    (inr "NOT_IN_SESSION", snd (handleMessage 0 1 (json input_msg) connected)) /\
  only_error_reply 1 "NOT_IN_SESSION" connected
    (snd (handleMessage 0 1 (json input_msg) connected)).
Proof.
  assert (H : handleMessage 0 1 (json input_msg) connected =
              (inr "NOT_IN_SESSION", snd (handleMessage 0 1 (json input_msg) connected)))
    by (vm_compute; reflexivity).
  split; [exact H|].
  exact (failed_message_changes_nothing 0 1 (json input_msg) connected _ _ H).
Defined.

(** **** Joining a session *)

Lemma sessions_addPlayer now room ws r st s :
  r = "host" \/ r = "guest" -> sessions st !! room = Some s ->
  sessions (addPlayer now room ws r st) =
  alter (touch now) room
    (alter (if String.eqb r "host" then set_host (Some ws) else set_guest (Some ws)) room
       (sessions st)).
Proof.
  intros Hr Hs. unfold addPlayer. rewrite Hs.
  destruct Hr; subst r; cbn [String.eqb Ascii.eqb Bool.eqb]; cbn [sessions set_sessions set_sockets].
  - destruct (host s); reflexivity.
  - destruct (guest s); reflexivity.
Qed.

Lemma sockets_addPlayer now room ws r st s :
  r = "host" \/ r = "guest" -> sessions st !! room = Some s ->
  sockets (addPlayer now room ws r st) =
  alter (assign r (roomCode s)) ws
    (match slot r s with
     | Some old => alter (close_on 1000 ("Replaced by new " +:+ r)) old (sockets st)
     | None => sockets st
     end).
Proof.
  intros Hr Hs. unfold addPlayer, slot. rewrite Hs.
  destruct Hr; subst r; cbn [String.eqb Ascii.eqb Bool.eqb]; cbn [sessions set_sessions set_sockets sockets].
  - destruct (host s); reflexivity.
  - destruct (guest s); reflexivity.
Qed.

Lemma slot_set r ws s :
  r = "host" \/ r = "guest" ->
  slot r ((if String.eqb r "host" then set_host (Some ws) else set_guest (Some ws)) s) = Some ws /\
  other_slot r ((if String.eqb r "host" then set_host (Some ws) else set_guest (Some ws)) s) =
    other_slot r s.
Proof. intros [->| ->]; split; reflexivity. Qed.

Lemma addPlayer_joined now room ws r st s :
  r = "host" \/ r = "guest" -> sessions st !! room = Some s ->
  let st' := ws_send ws (RoleAck r room) (addPlayer now room ws r st) in
  (exists s', sessions st' !! room = Some s' /\ slot r s' = Some ws /\ lastActivity s' = now /\
     other_slot r s' = other_slot r s /\ createdAt s' = createdAt s /\
     messageCount s' = messageCount s /\ roomCode s' = roomCode s) /\
  (forall k, k <> room -> sessions st' !! k = sessions st !! k) /\
  (forall sk, sockets st !! ws = Some sk ->
     exists sk', sockets st' !! ws = Some sk' /\ role sk' = Some r /\
       session sk' = Some (roomCode s) /\
       sent sk' = if is_open (readyState sk') then (sent sk ++ [RoleAck r room])%list
                  else sent sk) /\
  (forall k, k <> ws -> slot r s <> Some k -> sockets st' !! k = sockets st !! k).
Proof.
  intros Hr Hs st'.
  assert (Hse : sessions st' = sessions (addPlayer now room ws r st)) by reflexivity.
  assert (Hso : sockets st' = alter (send_on (RoleAck r room)) ws
                                (sockets (addPlayer now room ws r st))) by reflexivity.
  rewrite (sessions_addPlayer now room ws r st s Hr Hs) in Hse.
  rewrite (sockets_addPlayer now room ws r st s Hr Hs) in Hso.
  destruct (slot_set r ws s Hr) as [Hslot Hother].
  split; [|split; [|split]].
  - rewrite Hse, !lookup_alter_eq, Hs. eexists. split; [reflexivity|].
    destruct Hr; subst r; repeat split; assumption.
  - intros k Hk. rewrite Hse, !lookup_alter_ne by congruence. reflexivity.
  - intros sk Hsk. rewrite Hso, !lookup_alter_eq.
    destruct (slot r s) as [old|].
    + rewrite lookup_alter. case_decide as E.
      * subst old. rewrite Hsk. eexists. split; [reflexivity|].
        destruct sk as [a [] ro se sn cc]; cbn; auto.
      * rewrite Hsk. eexists. split; [reflexivity|].
        destruct sk as [a [] ro se sn cc]; cbn; auto.
    + rewrite Hsk. eexists. split; [reflexivity|].
      destruct sk as [a [] ro se sn cc]; cbn; auto.
  - intros k Hk Hold. rewrite Hso, !lookup_alter_ne by congruence.
    destruct (slot r s) as [old|]; [|reflexivity].
    rewrite lookup_alter_ne by congruence. reflexivity.
Qed.

Lemma handleRoleMessage_accepts now ws m st r room :
  m_role m = Some r -> m_room m = Some room ->
  r = "host" \/ r = "guest" -> room <> EmptyString ->
  exists st', handleRoleMessage now ws m st = (inl tt, st') /\ joined now r room ws st st'.
Proof.
  intros Hmr Hmm Hr Hroom.
  destruct (sessions st !! room) as [s|] eqn:Hs.
  - rewrite (handleRoleMessage_joins now ws r room m st s) by assumption.
    eexists. split; [reflexivity|].
    destruct (addPlayer_joined now room ws r st s Hr Hs) as ((s' & H1 & H2 & H3 & H4) & Ho & Hsk & Hb).
    split.
    + exists s'. rewrite Hs. auto.
    + exact Ho.
    + intros sk Hk. destruct (Hsk sk Hk) as (sk' & Ha & Hb' & Hc & Hd).
      exists sk'. rewrite H1. cbn. destruct H4 as (_ & _ & _ & ->). auto.
    + intros k Hk Hold. apply Hb; [exact Hk|]. apply Hold. exact Hs.
  - set (st0 := set_sessions (insert room (new_RelaySession now room)) st).
    assert (Hs0 : sessions st0 !! room = Some (new_RelaySession now room))
      by (cbn; apply lookup_insert_eq).
    assert (Heq : handleRoleMessage now ws m st =
                  (inl tt, ws_send ws (RoleAck r room) (addPlayer now room ws r st0))).
    { assert (Hrt : truthy (Some r) = true) by (destruct Hr; subst; reflexivity).
      assert (Hrr : negb (r =? "host")%string && negb (r =? "guest")%string = false)
        by (destruct Hr; subst; reflexivity).
      unfold handleRoleMessage.
      rewrite Hmr, Hmm, (truthy_intro room Hroom), Hrt.
      change (default EmptyString (Some r)) with r.
      change (default EmptyString (Some room)) with room.
      rewrite Hrr. unfold bind, exec. cbn [negb orb andb]. cbv beta iota. rewrite Hs.
      reflexivity. }
    rewrite Heq. eexists. split; [reflexivity|].
    destruct (addPlayer_joined now room ws r st0 _ Hr Hs0)
      as ((s' & H1 & H2 & H3 & H4 & H5 & H6 & H7) & Ho & Hsk & Hb).
    split.
    + exists s'. rewrite Hs. repeat split; try assumption.
      rewrite H4. destruct Hr; subst; reflexivity.
    + intros k Hk. rewrite (Ho k Hk). cbn. apply lookup_insert_ne. congruence.
    + intros sk Hk. destruct (Hsk sk Hk) as (sk' & Ha & Hb' & Hc & Hd).
      exists sk'. rewrite H1. cbn. rewrite H7. auto.
    + intros k Hk _. apply Hb; [exact Hk|]. destruct Hr; subst; discriminate.
Qed.

Lemma joined_from now r room ws st0 st st' :
  sessions st0 = sessions st -> sockets st0 = sockets st ->
  joined now r room ws st0 st' -> joined now r room ws st st'.
Proof.
  intros Hse Hso [H1 H2 H3 H4]. split.
  - rewrite <- Hse. exact H1.
  - intros k Hk. rewrite <- Hse. apply H2, Hk.
  - intros sk Hsk. apply H3. rewrite Hso. exact Hsk.
  - intros k Hk Hold. rewrite <- Hso. apply H4; [exact Hk|].
    intros s Hs. apply Hold. rewrite <- Hse. exact Hs.
Qed.

(** A message the limiter lets through reaches the handler of its type. *)
Lemma handleMessage_dispatch now ws data m st :
  processed st (now, ws, data) -> d_json data = inr m ->
  handleMessage_try now ws data st =
  (if String.eqb (m_type m) "role" then handleRoleMessage now ws m
   else if String.eqb (m_type m) "input" then handleInputMessage now ws m
   else if String.eqb (m_type m) "state" then handleStateMessage now ws m
   else if String.eqb (m_type m) "ping" then handlePingMessage now ws
   else exec (log (WarnUnknownType (m_type m)))) (snd (checkRateLimit now ws st)).
Proof.
  intros [Hsize Hrate] Hjson.
  unfold a_now, a_ws, a_data in Hsize, Hrate. cbn [fst snd] in Hsize, Hrate.
  unfold handleMessage_try, bind, ret.
  destruct (Z.ltb_spec MAX_MESSAGE_SIZE (d_length data)); [lia|].
  destruct (checkRateLimit now ws st) as [r st1]. cbn [fst snd] in *. subst r.
  rewrite Hjson. reflexivity.
Qed.

Lemma handleMessage_returns now ws data st st1 :
  handleMessage_try now ws data st = (inl tt, st1) ->
  handleMessage now ws data st = (inl tt, st1).
Proof. intros H. unfold handleMessage. rewrite H. reflexivity. Qed.

Lemma role_message_refused now ws data st e st1 :
  handleMessage_try now ws data st = (inr e, st1) -> e <> EmptyString ->
  fst (handleMessage now ws data st) = inr e /\
  only_error_reply ws e st (snd (handleMessage now ws data st)).
Proof.
  intros Ht He.
  pose proof (handleMessage_caught now ws data st e st1 Ht He) as Hc.
  rewrite Hc. split; [reflexivity|].
  apply (caught_only_error_reply now ws data). exact Hc.
Qed.

(** X2.  A [role] message that the limiter lets through ends in one of
    three ways.  A role or a room that is missing or empty:
    [INVALID_ROLE_MESSAGE].  A role other than [host] and [guest]:
    [INVALID_ROLE].  Otherwise the sender joins: the session is created
    if the room had none, the sender takes the slot of its role and is
    labelled with role and session, the other slot and every other
    session are as they were, and the [role-ack] is written to the sender
    if its socket is still OPEN (a sender that held the slot itself was
    closed by [addPlayer]). *)
Theorem role_message_outcome now ws data m st :
  processed st (now, ws, data) -> d_json data = inr m -> m_type m = "role" ->
  role_outcome now ws m st (handleMessage now ws data st).
Proof.
  intros Hp Hjson Htype.
  pose proof (handleMessage_dispatch now ws data m st Hp Hjson) as Ht.
  rewrite Htype in Ht. cbn [String.eqb Ascii.eqb Bool.eqb] in Ht.
  destruct (checkRateLimit_frame now ws st) as (Hse & Hso & _).
  set (st1 := snd (checkRateLimit now ws st)) in *.
  unfold role_outcome.
  destruct (m_role m) as [r|] eqn:Hmr; [destruct (m_room m) as [room|] eqn:Hmm|].
  - destruct (String.eqb_spec r EmptyString) as [->|Hr0]; cbn [orb].
    { apply (role_message_refused now ws data st _ (log ErrInvalidRoleMessage st1));
        [|discriminate].
      rewrite Ht. unfold handleRoleMessage. rewrite Hmr. reflexivity. }
    destruct (String.eqb_spec room EmptyString) as [->|Hroom0].
    { apply (role_message_refused now ws data st _ (log ErrInvalidRoleMessage st1));
        [|discriminate].
      rewrite Ht. unfold handleRoleMessage. rewrite Hmr, Hmm.
      rewrite (truthy_intro r Hr0). reflexivity. }
    destruct ((r =? "host")%string || (r =? "guest")%string) eqn:Hrole.
    + assert (Hr : r = "host" \/ r = "guest").
      { apply orb_prop in Hrole. destruct Hrole as [H|H]; apply String.eqb_eq in H; auto. }
      destruct (handleRoleMessage_accepts now ws m st1 r room Hmr Hmm Hr Hroom0)
        as (st' & Heq & Hj).
      rewrite (handleMessage_returns now ws data st st') by (rewrite Ht; exact Heq).
      split; [reflexivity|]. apply (joined_from now r room ws st1); assumption.
    + apply orb_false_elim in Hrole. destruct Hrole as [Hh Hg].
      apply (role_message_refused now ws data st _ st1); [|discriminate].
      rewrite Ht. unfold handleRoleMessage. rewrite Hmr, Hmm.
      rewrite (truthy_intro r Hr0), (truthy_intro room Hroom0).
      change (default EmptyString (Some r)) with r.
      rewrite Hh, Hg. reflexivity.
  - apply (role_message_refused now ws data st _ (log ErrInvalidRoleMessage st1));
      [|discriminate].
    rewrite Ht. unfold handleRoleMessage. rewrite Hmr, Hmm.
    destruct (truthy (Some r)); reflexivity.
  - apply (role_message_refused now ws data st _ (log ErrInvalidRoleMessage st1));
      [|discriminate].
    rewrite Ht. unfold handleRoleMessage. rewrite Hmr. reflexivity.
Qed.

Lemma guest_joins_the_host :
  (processed host_and_newcomer (1, 2%positive, json (role_msg "guest" "R")) /\
   d_json (json (role_msg "guest" "R")) = inr (role_msg "guest" "R") /\
   m_type (role_msg "guest" "R") = "role") /\
  role_outcome 1 2 (role_msg "guest" "R") host_and_newcomer
    (handleMessage 1 2 (json (role_msg "guest" "R")) host_and_newcomer).
Proof.
  assert (H : processed host_and_newcomer (1, 2%positive, json (role_msg "guest" "R"))).
  { split; [unfold a_data, json, MAX_MESSAGE_SIZE; cbn; lia|vm_compute; reflexivity]. }
  split; [split; [exact H|split; reflexivity]|].
  exact (role_message_outcome 1 2 (json (role_msg "guest" "R")) _ host_and_newcomer
           H eq_refl eq_refl).
Defined.

(** **** Forwarding *)

Lemma forwardMessage_target now room ws m st s t :
  sessions st !! room = Some s ->
  (if same_socket (host s) ws then guest s else host s) = Some t ->
  ws_isOpen t st = true ->
  forwardMessage now room ws m st =
  (true, set_sessions (alter (count_forward now) room) (ws_send t (Forwarded m) st)).
Proof.
  intros Hs Ht Ho. unfold forwardMessage. rewrite Hs, Ht, Ho. reflexivity.
Qed.

Lemma handleInputMessage_forwards now ws m st sk room s t :
  sockets st !! ws = Some sk -> session sk = Some room -> room <> EmptyString ->
  sessions st !! room = Some s -> role sk = Some "guest" ->
  (if same_socket (host s) ws then guest s else host s) = Some t ->
  ws_isOpen t st = true ->
  handleInputMessage now ws m st =
  (inl tt, set_sessions (alter (count_forward now) room) (ws_send t (Forwarded m) st)).
Proof.
  intros Hsk Hsess Hroom Hs Hrole Ht Ho.
  unfold handleInputMessage, ws_session, ws_role.
  rewrite Hsk, Hsess, (truthy_intro room Hroom). simpl. rewrite Hs.
  rewrite bool_decide_eq_true_2 by exact Hrole. simpl.
  rewrite (forwardMessage_target now room ws m st s t Hs Ht Ho). reflexivity.
Qed.

Lemma handleStateMessage_forwards now ws m st sk room s t :
  sockets st !! ws = Some sk -> session sk = Some room -> room <> EmptyString ->
  sessions st !! room = Some s -> role sk = Some "host" ->
  (if same_socket (host s) ws then guest s else host s) = Some t ->
  ws_isOpen t st = true ->
  handleStateMessage now ws m st =
  (inl tt, set_sessions (alter (count_forward now) room) (ws_send t (Forwarded m) st)).
Proof.
  intros Hsk Hsess Hroom Hs Hrole Ht Ho.
  unfold handleStateMessage, ws_session, ws_role.
  rewrite Hsk, Hsess, (truthy_intro room Hroom). simpl. rewrite Hs.
  rewrite bool_decide_eq_true_2 by exact Hrole. simpl.
  rewrite (forwardMessage_target now room ws m st s t Hs Ht Ho). reflexivity.
Qed.

Lemma same_socket_false a ws x : a = Some x -> x <> ws -> same_socket a ws = false.
Proof. intros -> H. simpl. apply Pos.eqb_neq. exact H. Qed.

Lemma ws_isOpen_from st0 st ws : sockets st0 = sockets st -> ws_isOpen ws st0 = ws_isOpen ws st.
Proof. intros H. unfold ws_isOpen. rewrite H. reflexivity. Qed.

Lemma ws_isOpen_intro st ws sk :
  sockets st !! ws = Some sk -> readyState sk = OPEN -> ws_isOpen ws st = true.
Proof. intros H Ho. unfold ws_isOpen. rewrite H, Ho. reflexivity. Qed.

(** A game message of [ws], labelled [r] and in the session of [room],
    that the limiter lets through, reaches the socket [forwardMessage]
    picks. *)
Lemma game_message_delivered now ws data m st sk room s t r :
  processed st (now, ws, data) -> d_json data = inr m ->
  (m_type m = "input" /\ r = "guest") \/ (m_type m = "state" /\ r = "host") ->
  sockets st !! ws = Some sk -> session sk = Some room -> room <> EmptyString ->
  sessions st !! room = Some s -> role sk = Some r ->
  (if same_socket (host s) ws then guest s else host s) = Some t ->
  ws_isOpen t st = true ->
  delivers now ws data m room t st.
Proof.
  intros Hp Hjson Hkind Hsk Hsess Hroom Hs Hrole Ht Ho.
  pose proof (handleMessage_dispatch now ws data m st Hp Hjson) as Hd.
  destruct (checkRateLimit_frame now ws st) as (Hse & Hso & Hco).
  set (st1 := snd (checkRateLimit now ws st)) in *.
  assert (Hsk1 : sockets st1 !! ws = Some sk) by (rewrite Hso; exact Hsk).
  assert (Hs1 : sessions st1 !! room = Some s) by (rewrite Hse; exact Hs).
  assert (Ho1 : ws_isOpen t st1 = true) by (rewrite (ws_isOpen_from st1 st t Hso); exact Ho).
  exists (set_sessions (alter (count_forward now) room) (ws_send t (Forwarded m) st1)).
  split.
  - apply handleMessage_returns. rewrite Hd.
    destruct Hkind as [[Ht' ->]|[Ht' ->]]; rewrite Ht'; cbn [String.eqb Ascii.eqb Bool.eqb].
    + apply (handleInputMessage_forwards now ws m st1 sk room s t); assumption.
    + apply (handleStateMessage_forwards now ws m st1 sk room s t); assumption.
  - split; [|split]; cbn; congruence.
Qed.

(** X3.  In a session with its two players, an [input] of the guest is
    written to the host and a [state] of the host is written to the guest,
    as it came; the session counts the message and records the time; no
    other socket is written to and the handler returns without error. *)
Theorem peers_exchange now room h g data m st :
  paired room h g st -> d_json data = inr m ->
  exchange now room h g data m st.
Proof.
  intros [Hroom (s & Hs & Hh & Hg) Hne (skh & Hskh & Hrh & Hsh & Hoh)
            (skg & Hskg & Hrg & Hsg & Hog)] Hjson.
  split; intros Htype Hp.
  - apply (game_message_delivered now g data m st skg room s h "guest"); auto.
    + rewrite (same_socket_false (host s) g h Hh Hne). exact Hh.
    + apply (ws_isOpen_intro st h skh); assumption.
  - apply (game_message_delivered now h data m st skh room s g "host"); auto.
    + assert (E : same_socket (host s) h = true) by (apply same_socket_true; exact Hh).
      rewrite E. exact Hg.
    + apply (ws_isOpen_intro st g skg); assumption.
Qed.

Lemma paired_duel : paired "R" 1 2 duel.
Proof.
  split.
  - discriminate.
  - eexists. repeat split; vm_compute; reflexivity.
  - discriminate.
  - eexists. repeat split; vm_compute; reflexivity.
  - eexists. repeat split; vm_compute; reflexivity.
Qed.

Lemma duel_exchanges_input :
  (paired "R" 1 2 duel /\ d_json (json input_msg) = inr input_msg) /\
  exchange 5 "R" 1 2 (json input_msg) input_msg duel.
Proof.
  split; [split; [exact paired_duel|reflexivity]|].
  exact (peers_exchange 5 "R" 1 2 (json input_msg) input_msg duel paired_duel eq_refl).
Defined.

(** The host of the duel receives the input of the guest. *)
Example duel_input_reaches_host :
  exists sk, sockets (snd (handleMessage 5 2 (json input_msg) duel)) !! 1%positive = Some sk /\
             sent sk = [RoleAck "host" "R"; Forwarded input_msg].
Proof. eexists. split; vm_compute; reflexivity. Qed.

(** X4.  The target of a forward is found by comparing the sender with
    the host slot, not by the sender's role: a [state] of a socket that is
    labelled host but is no longer in the host slot (a host that was
    replaced and has not yet gone) is written to the socket that holds
    the host slot. *)
Theorem state_of_former_host_reaches_host now ws data m st sk room s h :
  processed st (now, ws, data) -> d_json data = inr m -> m_type m = "state" ->
  sockets st !! ws = Some sk -> session sk = Some room -> room <> EmptyString ->
  role sk = Some "host" ->
  sessions st !! room = Some s -> host s = Some h -> h <> ws ->
  ws_isOpen h st = true ->
  delivers now ws data m room h st.
Proof.
  intros Hp Hjson Htype Hsk Hsess Hroom Hrole Hs Hh Hne Ho.
  apply (game_message_delivered now ws data m st sk room s h "host"); auto.
  rewrite (same_socket_false (host s) ws h Hh Hne). exact Hh.
Qed.

Lemma replaced_host_sends_state :
  (processed rehosted (11, 1%positive, json state_msg) /\
   sockets rehosted !! 1%positive =
     Some (mkSocket "10.0.0.1" CLOSING (Some "host") (Some "R") [RoleAck "host" "R"]
             [(1000, "Replaced by new host")]) /\
   sessions rehosted !! "R" = Some (mkSession "R" (Some 3%positive) (Some 2%positive) 0 10 0) /\
   ws_isOpen 3 rehosted = true) /\
  delivers 11 1 (json state_msg) state_msg "R" 3 rehosted.
Proof.
  assert (H : processed rehosted (11, 1%positive, json state_msg) /\
   sockets rehosted !! 1%positive =
     Some (mkSocket "10.0.0.1" CLOSING (Some "host") (Some "R") [RoleAck "host" "R"]
             [(1000, "Replaced by new host")]) /\
   sessions rehosted !! "R" = Some (mkSession "R" (Some 3%positive) (Some 2%positive) 0 10 0) /\
   ws_isOpen 3 rehosted = true).
  { split; [split; [unfold a_data, json, MAX_MESSAGE_SIZE; cbn; lia|vm_compute; reflexivity]|].
    repeat split; vm_compute; reflexivity. }
  split; [exact H|]. destruct H as (H1 & H2 & H3 & H4).
  refine (state_of_former_host_reaches_host 11 1 (json state_msg) state_msg rehosted _ "R" _ 3
            H1 eq_refl eq_refl H2 eq_refl _ eq_refl H3 eq_refl _ H4); discriminate.
Defined.

(** **** The ['close'] event *)

(** The ['close'] event of a socket whose session exists. *)
Lemma onClose_member now ws st sk room s :
  sockets st !! ws = Some sk -> session sk = Some room -> room <> EmptyString ->
  sessions st !! room = Some s ->
  onClose now ws st =
  let st1 := removePlayer now room ws (set_sockets (alter mark_closed ws) st) in
  match (if same_socket (host (vacate now ws s)) ws
         then guest (vacate now ws s) else host (vacate now ws s)) with
  | Some o => if ws_isOpen o st1 then ws_send o (PlayerDisconnected (role sk)) st1 else st1
  | None => st1
  end.
Proof.
  intros Hsk Hsess Hroom Hs.
  assert (Hses : ws_session ws (set_sockets (alter mark_closed ws) st) = Some room).
  { unfold ws_session. cbn. rewrite lookup_alter_eq, Hsk. exact Hsess. }
  assert (Hrole : ws_role ws (removePlayer now room ws (set_sockets (alter mark_closed ws) st))
                  = role sk).
  { unfold ws_role. cbn. rewrite lookup_alter_eq, Hsk. reflexivity. }
  assert (Hs1 : sessions (removePlayer now room ws (set_sockets (alter mark_closed ws) st))
                !! room = Some (vacate now ws s)).
  { cbn. rewrite lookup_alter_eq, Hs. reflexivity. }
  unfold onClose. rewrite Hses, (truthy_intro room Hroom).
  change (default EmptyString (Some room)) with room.
  change (sessions (set_sockets (alter mark_closed ws) st)) with (sessions st).
  rewrite Hs, Hs1, Hrole. reflexivity.
Qed.

(** X5.  When the socket in the host slot closes, the slot is emptied
    and no socket is written to: the guest is not told.  When the socket
    in the guest slot closes, the slot is emptied and the host, if OPEN,
    is sent [player_disconnected] with the role of the socket that
    left. *)
Theorem close_notifies_host_only now ws st sk room s :
  sockets st !! ws = Some sk -> session sk = Some room -> room <> EmptyString ->
  sessions st !! room = Some s ->
  close_outcome now ws sk room s st.
Proof.
  intros Hsk Hsess Hroom Hs.
  pose proof (onClose_member now ws st sk room s Hsk Hsess Hroom Hs) as Heq.
  cbv zeta in Heq.
  assert (Hs1 : sessions (removePlayer now room ws (set_sockets (alter mark_closed ws) st))
                !! room = Some (vacate now ws s)).
  { cbn. rewrite lookup_alter_eq, Hs. reflexivity. }
  split.
  - intros Hh.
    assert (E : same_socket (host s) ws = true) by (apply same_socket_true; exact Hh).
    assert (Hv : vacate now ws s = touch now (set_host None s))
      by (unfold vacate; rewrite E; reflexivity).
    rewrite Hv in Heq, Hs1. cbn in Heq. rewrite Heq. split; [reflexivity|exact Hs1].
  - intros h Hh Hne Hg.
    assert (E : same_socket (guest s) ws = true) by (apply same_socket_true; exact Hg).
    assert (Hv : vacate now ws s = touch now (set_guest None s)).
    { unfold vacate. rewrite (same_socket_false (host s) ws h Hh Hne), E. reflexivity. }
    rewrite Hv in Heq, Hs1.
    cbn [touch set_guest host guest roomCode createdAt lastActivity messageCount] in Heq.
    rewrite (same_socket_false (host s) ws h Hh Hne), Hh in Heq.
    assert (Ho : ws_isOpen h (removePlayer now room ws (set_sockets (alter mark_closed ws) st))
                 = ws_isOpen h st).
    { unfold ws_isOpen. cbn. rewrite lookup_alter_ne by congruence. reflexivity. }
    rewrite Ho in Heq. rewrite Heq.
    destruct (ws_isOpen h st); (split; [reflexivity|exact Hs1]).
Qed.

Lemma host_of_duel_leaves :
  (sockets duel !! 1%positive =
     Some (mkSocket "10.0.0.1" OPEN (Some "host") (Some "R") [RoleAck "host" "R"] []) /\
   "R" <> EmptyString /\
   sessions duel !! "R" = Some (mkSession "R" (Some 1%positive) (Some 2%positive) 0 0 0)) /\
  close_outcome 20 1 (mkSocket "10.0.0.1" OPEN (Some "host") (Some "R") [RoleAck "host" "R"] [])
    "R" (mkSession "R" (Some 1%positive) (Some 2%positive) 0 0 0) duel.
Proof.
  assert (H : sockets duel !! 1%positive =
     Some (mkSocket "10.0.0.1" OPEN (Some "host") (Some "R") [RoleAck "host" "R"] []) /\
   "R" <> EmptyString /\
   sessions duel !! "R" = Some (mkSession "R" (Some 1%positive) (Some 2%positive) 0 0 0)).
  { split; [vm_compute; reflexivity|]. split; [discriminate|vm_compute; reflexivity]. }
  split; [exact H|]. destruct H as (H1 & H2 & H3).
  exact (close_notifies_host_only 20 1 duel _ "R" _ H1 eq_refl H2 H3).
Defined.

(** In the duel: the guest hears nothing when the host leaves, the host
    is told when the guest leaves. *)
Example duel_close_events :
  sent <$> (sockets (onClose 20 1 duel) !! 2%positive) = Some [RoleAck "guest" "R"] /\
  sent <$> (sockets (onClose 20 2 duel) !! 1%positive) =
    Some [RoleAck "host" "R"; PlayerDisconnected (Some "guest")].
Proof. split; vm_compute; reflexivity. Qed.

(** **** The sweep *)

Lemma cleanup_sessions now st k :
  sessions (cleanupExpiredSessions now st) !! k =
  match sessions st !! k with
  | Some s => if isEmpty s || isExpired now s then None else Some s
  | None => None
  end.
Proof.
  unfold cleanupExpiredSessions. cbn [sessions set_rateLimits set_sessions].
  rewrite map_lookup_filter. destruct (sessions st !! k) as [s|]; [|reflexivity].
  cbn. destruct (isEmpty s || isExpired now s); cbn.
  - rewrite option_guard_False by discriminate. reflexivity.
  - rewrite option_guard_True by reflexivity. reflexivity.
Qed.

Lemma cleanup_sockets now st : sockets (cleanupExpiredSessions now st) = sockets st.
Proof. reflexivity. Qed.

Lemma alter_absent {A} (f : A -> A) (k : string) (m : gmap string A) :
  m !! k = None -> alter f k m = m.
Proof.
  intros H. apply map_eq. intros i. rewrite lookup_alter.
  case_decide; [subst; rewrite H|]; reflexivity.
Qed.

(** A caught error, as the sender and the tables see it. *)
Lemma caught_reply now ws data st e st1 :
  handleMessage_try now ws data st = (inr e, st1) -> e <> EmptyString ->
  fst (handleMessage now ws data st) = inr e /\
  only_error_reply ws e st (snd (handleMessage now ws data st)).
Proof. apply role_message_refused. Qed.

(** X6.  Once the sweep has removed the session of a socket (the session
    was empty, or idle for more than five minutes), the socket still
    carries the session's name: its [input] and [state] are answered
    [SESSION_NOT_FOUND], and its [ping] is answered with [pong] without
    the session being created again. *)
Theorem swept_session_is_gone now now' ws data m st sk room s :
  sockets st !! ws = Some sk -> session sk = Some room -> room <> EmptyString ->
  sessions st !! room = Some s -> isEmpty s || isExpired now s = true ->
  processed (cleanupExpiredSessions now st) (now', ws, data) -> d_json data = inr m ->
  session_gone now' ws data m room (cleanupExpiredSessions now st).
Proof.
  intros Hsk Hsess Hroom Hs Hdead Hp Hjson.
  set (st2 := cleanupExpiredSessions now st) in *.
  assert (Hgone : sessions st2 !! room = None).
  { unfold st2. rewrite cleanup_sessions, Hs, Hdead. reflexivity. }
  pose proof (handleMessage_dispatch now' ws data m st2 Hp Hjson) as Hd.
  destruct (checkRateLimit_frame now' ws st2) as (Hse & Hso & _).
  set (st3 := snd (checkRateLimit now' ws st2)) in *.
  assert (Hses : ws_session ws st3 = Some room).
  { unfold ws_session. rewrite Hso. unfold st2. rewrite cleanup_sockets, Hsk. exact Hsess. }
  assert (Hgone3 : sessions st3 !! room = None) by (rewrite Hse; exact Hgone).
  split; [exact Hgone|]. split.
  - intros Htype. apply (caught_reply now' ws data st2 _ st3); [|discriminate].
    rewrite Hd.
    destruct Htype as [Ht|Ht]; rewrite Ht; cbn [String.eqb Ascii.eqb Bool.eqb].
    + unfold handleInputMessage. rewrite Hses, (truthy_intro room Hroom).
      cbn [negb default from_option]. change (id room) with room. rewrite Hgone3. reflexivity.
    + unfold handleStateMessage. rewrite Hses, (truthy_intro room Hroom).
      cbn [negb default from_option]. change (id room) with room. rewrite Hgone3. reflexivity.
  - intros Ht.
    assert (Heq : handleMessage_try now' ws data st2 = (inl tt, ws_send ws Pong st3)).
    { rewrite Hd, Ht. cbn [String.eqb Ascii.eqb Bool.eqb].
      unfold handlePingMessage, bind, exec.
      assert (Hses' : ws_session ws (ws_send ws Pong st3) = Some room).
      { unfold ws_session in *. cbn. rewrite lookup_alter_eq.
        destruct (sockets st3 !! ws) as [k|]; [|discriminate].
        cbn. rewrite <- Hses. unfold send_on. destruct (is_open (readyState k)); reflexivity. }
      rewrite Hses', (truthy_intro room Hroom).
      change (default EmptyString (Some room)) with room.
      unfold set_sessions. rewrite alter_absent by exact Hgone3.
      destruct (ws_send ws Pong st3). reflexivity. }
    rewrite (handleMessage_returns now' ws data st2 _ Heq).
    split; [reflexivity|]. split; [exact Hse|]. cbn. rewrite Hso. reflexivity.
Qed.

Lemma idle_duel_is_swept :
  (sockets duel !! 2%positive =
     Some (mkSocket "10.0.0.2" OPEN (Some "guest") (Some "R") [RoleAck "guest" "R"] []) /\
   "R" <> EmptyString /\
   sessions duel !! "R" = Some (mkSession "R" (Some 1%positive) (Some 2%positive) 0 0 0) /\
   isEmpty (mkSession "R" (Some 1%positive) (Some 2%positive) 0 0 0)
     || isExpired 400000 (mkSession "R" (Some 1%positive) (Some 2%positive) 0 0 0) = true /\
   processed (cleanupExpiredSessions 400000 duel) (400001, 2%positive, json input_msg)) /\
  session_gone 400001 2 (json input_msg) input_msg "R" (cleanupExpiredSessions 400000 duel).
Proof.
  assert (H : sockets duel !! 2%positive =
     Some (mkSocket "10.0.0.2" OPEN (Some "guest") (Some "R") [RoleAck "guest" "R"] []) /\
   "R" <> EmptyString /\
   sessions duel !! "R" = Some (mkSession "R" (Some 1%positive) (Some 2%positive) 0 0 0) /\
   isEmpty (mkSession "R" (Some 1%positive) (Some 2%positive) 0 0 0)
     || isExpired 400000 (mkSession "R" (Some 1%positive) (Some 2%positive) 0 0 0) = true /\
   processed (cleanupExpiredSessions 400000 duel) (400001, 2%positive, json input_msg)).
  { split; [vm_compute; reflexivity|]. split; [discriminate|].
    split; [vm_compute; reflexivity|]. split; [vm_compute; reflexivity|].
    split; [unfold a_data, json, MAX_MESSAGE_SIZE; cbn; lia|vm_compute; reflexivity]. }
  split; [exact H|]. destruct H as (H1 & H2 & H3 & H4 & H5).
  exact (swept_session_is_gone 400000 400001 2 (json input_msg) input_msg duel _ "R" _
           H1 eq_refl H2 H3 H4 H5 eq_refl).
Defined.

(** X7.  A [ping] keeps a session alive: the [pong] is written to the
    sender, the session of the sender records the time of the ping, and a
    sweep that comes no more than five minutes later keeps the session,
    provided one of its slots is held. *)
Theorem ping_keeps_session_alive t now ws data m st sk room s :
  processed st (t, ws, data) -> d_json data = inr m -> m_type m = "ping" ->
  sockets st !! ws = Some sk -> session sk = Some room -> room <> EmptyString ->
  sessions st !! room = Some s -> isEmpty s = false ->
  now - t <= 5 * 60 * 1000 ->
  kept_alive t now ws room s st (snd (handleMessage t ws data st)).
Proof.
  intros Hp Hjson Ht Hsk Hsess Hroom Hs Hne Hnow.
  pose proof (handleMessage_dispatch t ws data m st Hp Hjson) as Hd.
  destruct (checkRateLimit_frame t ws st) as (Hse & Hso & _).
  set (st1 := snd (checkRateLimit t ws st)) in *.
  assert (Heq : handleMessage_try t ws data st =
                (inl tt, set_sessions (alter (touch t) room) (ws_send ws Pong st1))).
  { rewrite Hd, Ht. cbn [String.eqb Ascii.eqb Bool.eqb].
    unfold handlePingMessage, bind, exec.
    assert (Hses' : ws_session ws (ws_send ws Pong st1) = Some room).
    { unfold ws_session. cbn. rewrite lookup_alter_eq, Hso, Hsk.
      cbn. unfold send_on. destruct (is_open (readyState sk)); exact Hsess. }
    rewrite Hses', (truthy_intro room Hroom). reflexivity. }
  rewrite (handleMessage_returns t ws data st _ Heq). cbn [snd].
  assert (Hs' : sessions (set_sessions (alter (touch t) room) (ws_send ws Pong st1)) !! room
                = Some (touch t s)).
  { cbn. rewrite lookup_alter_eq, Hse, Hs. reflexivity. }
  split; [cbn; rewrite Hso; reflexivity|]. split; [exact Hs'|].
  rewrite cleanup_sessions, Hs'.
  assert (He : isEmpty (touch t s) = false) by exact Hne.
  assert (Hx : isExpired now (touch t s) = false).
  { unfold isExpired. cbn. apply Z.ltb_ge. lia. }
  rewrite He, Hx. reflexivity.
Qed.

Lemma guest_of_duel_pings :
  (processed duel (1000, 2%positive, json ping_msg) /\
   sockets duel !! 2%positive =
     Some (mkSocket "10.0.0.2" OPEN (Some "guest") (Some "R") [RoleAck "guest" "R"] []) /\
   "R" <> EmptyString /\
   sessions duel !! "R" = Some (mkSession "R" (Some 1%positive) (Some 2%positive) 0 0 0) /\
   301000 - 1000 <= 5 * 60 * 1000) /\
  kept_alive 1000 301000 2 "R" (mkSession "R" (Some 1%positive) (Some 2%positive) 0 0 0)
    duel (snd (handleMessage 1000 2 (json ping_msg) duel)).
Proof.
  assert (H : processed duel (1000, 2%positive, json ping_msg) /\
   sockets duel !! 2%positive =
     Some (mkSocket "10.0.0.2" OPEN (Some "guest") (Some "R") [RoleAck "guest" "R"] []) /\
   "R" <> EmptyString /\
   sessions duel !! "R" = Some (mkSession "R" (Some 1%positive) (Some 2%positive) 0 0 0) /\
   301000 - 1000 <= 5 * 60 * 1000).
  { split; [split; [unfold a_data, json, MAX_MESSAGE_SIZE; cbn; lia|vm_compute; reflexivity]|].
    split; [vm_compute; reflexivity|]. split; [discriminate|].
    split; [vm_compute; reflexivity|lia]. }
  split; [exact H|]. destruct H as (H1 & H2 & H3 & H4 & H5).
  exact (ping_keeps_session_alive 1000 301000 2 (json ping_msg) ping_msg duel _ "R" _
           H1 eq_refl eq_refl H2 eq_refl H3 H4 eq_refl H5).
Defined.

(** Without the ping the same sweep removes the session. *)
Example duel_without_ping_is_swept :
  sessions (cleanupExpiredSessions 301000 duel) !! "R" = None.
Proof. vm_compute. reflexivity. Qed.

(** **** The limiter *)

Lemma oversized_refused now ws data st :
  MAX_MESSAGE_SIZE < d_length data ->
  handleMessage now ws data st =
  (inr "MESSAGE_TOO_LARGE",
   sendError ws "MESSAGE_TOO_LARGE" (log (ErrHandling "MESSAGE_TOO_LARGE") st)).
Proof.
  intros Hsize. apply handleMessage_caught; [|discriminate].
  unfold handleMessage_try, bind, throw.
  destruct (Z.ltb_spec MAX_MESSAGE_SIZE (d_length data)); [reflexivity|lia].
Qed.

Lemma limiter_charged now ws data st : limiter_charge now ws data st.
Proof.
  unfold limiter_charge.
  destruct (Z.ltb_spec MAX_MESSAGE_SIZE (d_length data)) as [Hbig|Hok].
  - pose proof (oversized_refused now ws data st Hbig) as Heq. rewrite Heq.
    split; [reflexivity|]. split; [cbn [snd]; rewrite sendError_rateLimits; reflexivity|].
    apply (caught_only_error_reply now ws data). exact Heq.
  - apply handleMessage_rateLimits. exact Hok.
Qed.

(** X8.  The size check comes before the limiter and the parser after
    it.  A message of more than 8192 bytes is answered
    [MESSAGE_TOO_LARGE] and is not counted by the limiter; every other
    message is counted as [checkRateLimit] counts it, whether or not it
    parses, names a known type, or is refused by its handler. *)
Theorem limiter_charges_all_but_oversized now ws data st :
  limiter_charge now ws data st.
Proof. apply limiter_charged. Qed.

(** A message of 9000 bytes is refused and not counted; a message that
    does not parse is counted. *)
Example oversized_and_malformed :
  fst (handleMessage 0 1 oversized connected) = inr "MESSAGE_TOO_LARGE" /\
  rateLimits (snd (handleMessage 0 1 oversized connected)) !! "10.0.0.1" = None /\
  fst (handleMessage 0 1 (RawData 3 (inl "Unexpected token")) connected)
    = inr "Unexpected token" /\
  messages <$> (rateLimits (snd (handleMessage 0 1 (RawData 3 (inl "Unexpected token"))
                                   connected)) !! "10.0.0.1") = Some [0].
Proof. repeat split; vm_compute; reflexivity. Qed.

Lemma checkRateLimit_bounded now ws st :
  limiter_bounded st -> limiter_bounded (snd (checkRateLimit now ws st)).
Proof.
  intros Hb ip e. unfold checkRateLimit.
  set (a := ws_remoteAddress ws st).
  set (st1 := match rateLimits st !! a with
              | Some _ => st
              | None => set_rateLimits (insert a (mkRate [] now)) st
              end).
  assert (Hb1 : limiter_bounded st1).
  { unfold st1. destruct (rateLimits st !! a); [exact Hb|].
    intros ip' e'. cbn. rewrite lookup_insert. case_decide; [|apply Hb].
    intros [= <-]. cbn. lia. }
  set (limits := default (mkRate [] now) (rateLimits st1 !! a)).
  assert (Hl : (length (messages limits) <= MAX_MESSAGES_PER_SECOND)%nat).
  { unfold limits. destruct (rateLimits st1 !! a) as [e0|] eqn:E0; [exact (Hb1 a e0 E0)|].
    cbn. lia. }
  set (limits1 := if Z.leb 1000 (now - lastReset limits) then mkRate [] now else limits).
  assert (Hl1 : (length (messages limits1) <= MAX_MESSAGES_PER_SECOND)%nat).
  { unfold limits1. destruct (Z.leb 1000 (now - lastReset limits)); [cbn; lia|exact Hl]. }
  destruct (Nat.leb_spec MAX_MESSAGES_PER_SECOND (length (messages limits1))) as [Hfull|Hroom];
    cbn [snd rateLimits set_rateLimits].
  - rewrite lookup_insert. case_decide; [intros [= <-]; exact Hl1|apply Hb1].
  - rewrite lookup_insert. case_decide.
    + intros [= <-]. cbn. rewrite length_app. cbn. lia.
    + rewrite lookup_insert_ne by assumption. apply Hb1.
Qed.

Lemma onClose_rateLimits now ws st : rateLimits (onClose now ws st) = rateLimits st.
Proof. unfold onClose. by_cases. Qed.

Lemma run_invariant (P : State -> Prop) :
  (forall st e, P st -> P (step st e)) ->
  forall evs st, P st -> P (run evs st).
Proof.
  intros Hstep evs. induction evs as [|e evs IH]; intros st H; [exact H|].
  simpl. apply IH, Hstep, H.
Qed.

Lemma step_limiter_bounded st e : limiter_bounded st -> limiter_bounded (step st e).
Proof.
  intros Hb. destruct e as [ws ip|now ws data|now ws|now]; cbn [step].
  - unfold onConnection. destruct (sockets st !! ws); exact Hb.
  - pose proof (limiter_charged now ws data st) as Hc.
    unfold limiter_charge in Hc.
    destruct (MAX_MESSAGE_SIZE <? d_length data).
    + destruct Hc as (_ & Hr & _). intros ip e. rewrite Hr. apply Hb.
    + intros ip e. rewrite Hc. apply checkRateLimit_bounded, Hb.
  - intros ip e. rewrite onClose_rateLimits. apply Hb.
  - intros ip e. unfold cleanupExpiredSessions. cbn [rateLimits set_rateLimits set_sessions].
    intros H. apply map_lookup_filter_Some in H. destruct H as [H _]. exact (Hb ip e H).
Qed.

(** X9.  Whatever connections, messages, close events and sweeps the
    server has seen, the limiter holds at most 60 time stamps for an
    address. *)
Theorem limiter_never_exceeds evs : limiter_bounded (run evs init).
Proof.
  apply run_invariant; [exact step_limiter_bounded|].
  intros ip e H. cbn in H. rewrite lookup_empty in H. discriminate.
Qed.

(** **** Sessions and labels *)

Lemma consistent_sessions f st :
  (forall k s, sessions st !! k = Some s -> roomCode s = k /\ k <> EmptyString) ->
  (forall k s, f (sessions st) !! k = Some s ->
     (exists s0, sessions st !! k = Some s0 /\ roomCode s = roomCode s0) \/
     (roomCode s = k /\ k <> EmptyString)) ->
  forall k s, sessions (set_sessions f st) !! k = Some s -> roomCode s = k /\ k <> EmptyString.
Proof.
  intros Hc Hf k s H. destruct (Hf k s H) as [(s0 & H0 & E)|E]; [|exact E].
  rewrite E. exact (Hc k s0 H0).
Qed.

Lemma consistent_alter_session f k st :
  (forall s, roomCode (f s) = roomCode s) ->
  consistent st -> consistent (set_sessions (alter f k) st).
Proof.
  intros Hf [Hk Hl Hu]. split; [|exact Hl|exact Hu].
  apply consistent_sessions; [exact Hk|].
  intros i s. rewrite lookup_alter. case_decide; [subst i|eauto].
  destruct (sessions st !! k) as [s0|]; [|discriminate].
  intros [= <-]. left. eauto.
Qed.

Lemma consistent_insert_session k s st :
  roomCode s = k -> k <> EmptyString ->
  consistent st -> consistent (set_sessions (insert k s) st).
Proof.
  intros Hs Hne [Hk Hl Hu]. split; [|exact Hl|exact Hu].
  apply consistent_sessions; [exact Hk|].
  intros i s'. rewrite lookup_insert. case_decide; [subst i|eauto].
  intros [= <-]. right. auto.
Qed.

Lemma consistent_alter_socket f ws st :
  (forall s, role (f s) = role s /\ session (f s) = session s) ->
  consistent st -> consistent (set_sockets (alter f ws) st).
Proof.
  intros Hf [Hk Hl Hu]. split; [exact Hk| |].
  - intros k sk room. cbn. rewrite lookup_alter. case_decide; [subst k|apply Hl].
    destruct (sockets st !! ws) as [s0|] eqn:E; [|discriminate].
    intros [= <-]. destruct (Hf s0) as [-> ->]. apply (Hl ws s0 room E).
  - intros k sk. cbn. rewrite lookup_alter. case_decide; [subst k|apply Hu].
    destruct (sockets st !! ws) as [s0|] eqn:E; [|discriminate].
    intros [= <-]. destruct (Hf s0) as [-> ->]. apply (Hu ws s0 E).
Qed.

Lemma consistent_assign r room ws st :
  r = "host" \/ r = "guest" -> room <> EmptyString ->
  consistent st -> consistent (set_sockets (alter (assign r room) ws) st).
Proof.
  intros Hr Hroom [Hk Hl Hu]. split; [exact Hk| |].
  - intros k sk room'. cbn. rewrite lookup_alter. case_decide; [subst k|apply Hl].
    destruct (sockets st !! ws) as [s0|] eqn:E; [|discriminate].
    intros [= <-]. cbn. intros [= <-]. split; [exact Hroom|].
    destruct Hr; subst; auto.
  - intros k sk. cbn. rewrite lookup_alter. case_decide; [subst k|apply Hu].
    destruct (sockets st !! ws) as [s0|] eqn:E; [|discriminate].
    intros [= <-]. cbn. discriminate.
Qed.

Lemma consistent_send ws f st : consistent st -> consistent (ws_send ws f st).
Proof.
  apply consistent_alter_socket. intros s. unfold send_on.
  destruct (is_open (readyState s)); split; reflexivity.
Qed.

Lemma consistent_close ws c r st : consistent st -> consistent (ws_close ws c r st).
Proof. apply consistent_alter_socket. intros s. split; reflexivity. Qed.

Lemma consistent_log l st : consistent st -> consistent (log l st).
Proof. intros [Hk Hl Hu]. split; assumption. Qed.

Lemma consistent_rateLimits f st : consistent st -> consistent (set_rateLimits f st).
Proof. intros [Hk Hl Hu]. split; assumption. Qed.

Lemma consistent_sendError ws c st : consistent st -> consistent (sendError ws c st).
Proof.
  intros H. unfold sendError. destruct (ws_isOpen ws st); [apply consistent_send|]; exact H.
Qed.

Lemma consistent_checkRateLimit now ws st :
  consistent st -> consistent (snd (checkRateLimit now ws st)).
Proof.
  intros H. unfold checkRateLimit.
  destruct (rateLimits st !! ws_remoteAddress ws st);
    match goal with |- context [if ?b then _ else _] => destruct b end;
    cbn [snd]; repeat apply consistent_rateLimits; exact H.
Qed.

Lemma consistent_forwardMessage now room ws m st :
  consistent st -> consistent (snd (forwardMessage now room ws m st)).
Proof.
  intros H. unfold forwardMessage.
  destruct (sessions st !! room) as [s|]; [|exact H].
  destruct (if same_socket (host s) ws then guest s else host s) as [t|]; [|exact H].
  destruct (ws_isOpen t st); [|exact H].
  cbn [snd]. apply consistent_alter_session; [reflexivity|]. apply consistent_send, H.
Qed.

Lemma consistent_addPlayer now room ws r st :
  r = "host" \/ r = "guest" ->
  consistent st -> consistent (addPlayer now room ws r st).
Proof.
  intros Hr H. unfold addPlayer.
  destruct (sessions st !! room) as [s|] eqn:Hs; [|exact H].
  destruct (c_key st H room s Hs) as [Hcode Hroom].
  apply consistent_alter_session; [reflexivity|].
  apply consistent_assign; [exact Hr|rewrite Hcode; exact Hroom|].
  destruct Hr; subst r; cbn [String.eqb Ascii.eqb Bool.eqb].
  - apply consistent_alter_session; [reflexivity|].
    destruct (host s); [apply consistent_close|]; exact H.
  - apply consistent_alter_session; [reflexivity|].
    destruct (guest s); [apply consistent_close|]; exact H.
Qed.

Lemma consistent_handleRoleMessage now ws m st :
  consistent st -> consistent (snd (handleRoleMessage now ws m st)).
Proof.
  intros H. unfold handleRoleMessage.
  destruct (negb (truthy (m_role m)) || negb (truthy (m_room m))) eqn:E;
    [apply consistent_log, H|].
  apply orb_false_elim in E. destruct E as [_ Eroom]. apply negb_false_iff in Eroom.
  destruct (negb _ && negb _) eqn:E2; [exact H|].
  assert (Hr : default EmptyString (m_role m) = "host" \/ default EmptyString (m_role m) = "guest").
  { apply andb_false_elim in E2. destruct E2 as [E2|E2]; apply negb_false_iff, String.eqb_eq in E2;
      auto. }
  assert (Hroom : default EmptyString (m_room m) <> EmptyString).
  { destruct (m_room m) as [room|]; [|discriminate]. cbn in *.
    intros ->. discriminate. }
  unfold bind, exec. cbn [snd].
  apply consistent_send, consistent_addPlayer; [exact Hr|].
  destruct (sessions st !! _); [exact H|].
  apply consistent_insert_session; [reflexivity|exact Hroom|exact H].
Qed.

Lemma consistent_handleInputMessage now ws m st :
  consistent st -> consistent (snd (handleInputMessage now ws m st)).
Proof.
  intros H. unfold handleInputMessage.
  destruct (negb (truthy (ws_session ws st))); [exact H|].
  destruct (sessions st !! _); [|exact H].
  destruct (negb (bool_decide _)); [apply consistent_log, H|].
  pose proof (consistent_forwardMessage now (default EmptyString (ws_session ws st)) ws m st H)
    as Hf.
  destruct (forwardMessage _ _ _ _ _) as [[] st']; [exact Hf|apply consistent_log, Hf].
Qed.

Lemma consistent_handleStateMessage now ws m st :
  consistent st -> consistent (snd (handleStateMessage now ws m st)).
Proof.
  intros H. unfold handleStateMessage.
  destruct (negb (truthy (ws_session ws st))); [exact H|].
  destruct (sessions st !! _); [|exact H].
  destruct (negb (bool_decide _)); [apply consistent_log, H|].
  pose proof (consistent_forwardMessage now (default EmptyString (ws_session ws st)) ws m st H)
    as Hf.
  destruct (forwardMessage _ _ _ _ _) as [[] st']; [exact Hf|apply consistent_log, Hf].
Qed.

Lemma consistent_handlePingMessage now ws st :
  consistent st -> consistent (snd (handlePingMessage now ws st)).
Proof.
  intros H. unfold handlePingMessage, bind, exec. cbn [snd].
  destruct (truthy _); [apply consistent_alter_session; [reflexivity|]|];
    apply consistent_send, H.
Qed.

Lemma consistent_handleMessage now ws data st :
  consistent st -> consistent (snd (handleMessage now ws data st)).
Proof.
  intros H.
  assert (Ht : consistent (snd (handleMessage_try now ws data st))).
  { unfold handleMessage_try, bind, ret, throw.
    destruct (MAX_MESSAGE_SIZE <? d_length data); [exact H|].
    pose proof (consistent_checkRateLimit now ws st H) as Hc.
    destruct (checkRateLimit now ws st) as [[[]|e] st1]; [|exact Hc].
    cbn [snd] in Hc.
    destruct (d_json data) as [e|m]; [exact Hc|].
    destruct (m_type m =? "role")%string; [apply consistent_handleRoleMessage, Hc|].
    destruct (m_type m =? "input")%string; [apply consistent_handleInputMessage, Hc|].
    destruct (m_type m =? "state")%string; [apply consistent_handleStateMessage, Hc|].
    destruct (m_type m =? "ping")%string; [apply consistent_handlePingMessage, Hc|].
    apply consistent_log, Hc. }
  unfold handleMessage.
  destruct (handleMessage_try now ws data st) as [[[]|e] st1]; [exact Ht|].
  cbn [snd] in *. apply consistent_sendError, consistent_log, Ht.
Qed.

Lemma consistent_onClose now ws st : consistent st -> consistent (onClose now ws st).
Proof.
  intros H. unfold onClose.
  set (st0 := set_sockets (alter mark_closed ws) st).
  assert (H0 : consistent st0).
  { apply consistent_alter_socket; [|exact H]. intros s. split; reflexivity. }
  destruct (truthy (ws_session ws st0)); [|exact H0].
  destruct (sessions st0 !! _); [|exact H0].
  set (st1 := removePlayer _ _ _ _).
  assert (H1 : consistent st1).
  { apply consistent_alter_session; [|exact H0]. intros s. unfold vacate.
    destruct (same_socket (host s) ws); [reflexivity|].
    destruct (same_socket (guest s) ws); reflexivity. }
  destruct (sessions st1 !! _) as [s|]; [|exact H1].
  destruct (if same_socket (host s) ws then guest s else host s) as [o|]; [|exact H1].
  destruct (ws_isOpen o st1); [apply consistent_send|]; exact H1.
Qed.

Lemma step_consistent st e : consistent st -> consistent (step st e).
Proof.
  intros H. destruct e as [ws ip|now ws data|now ws|now]; cbn [step].
  - unfold onConnection. destruct (sockets st !! ws) eqn:E; [exact H|].
    destruct H as [Hk Hl Hu]. split; [exact Hk| |].
    + intros k sk room. cbn. rewrite lookup_insert. case_decide; [|apply Hl].
      intros [= <-]. discriminate.
    + intros k sk. cbn. rewrite lookup_insert. case_decide; [|apply Hu].
      intros [= <-]. reflexivity.
  - apply consistent_handleMessage, H.
  - apply consistent_onClose, H.
  - unfold cleanupExpiredSessions. apply consistent_rateLimits.
    destruct H as [Hk Hl Hu]. split; [|exact Hl|exact Hu].
    intros k s. cbn. intros Hf. apply map_lookup_filter_Some in Hf. destruct Hf as [Hf _].
    exact (Hk k s Hf).
Qed.

Lemma run_consistent evs : consistent (run evs init).
Proof.
  apply run_invariant; [exact step_consistent|].
  split.
  - intros k s H. cbn in H. rewrite lookup_empty in H. discriminate.
  - intros k sk room H. cbn in H. rewrite lookup_empty in H. discriminate.
  - intros k sk H. cbn in H. rewrite lookup_empty in H. discriminate.
Qed.

(** X10.  Whatever connections, messages, close events and sweeps the
    server has seen: every session is stored under its own room code,
    which is not empty; a socket that carries a session name carries the
    role [host] or [guest]; a socket without a session name has no
    role. *)
Theorem reachable_states_consistent evs : consistent (run evs init).
Proof. apply run_consistent. Qed.

Lemma onClose_sessions_of now ws st sk :
  sockets st !! ws = Some sk ->
  sessions (onClose now ws st) = sessions st \/
  exists room, session sk = Some room /\
    sessions (onClose now ws st) = alter (vacate now ws) room (sessions st).
Proof.
  intros Hsk. unfold onClose.
  set (st0 := set_sockets _ st).
  assert (Hses : ws_session ws st0 = session sk).
  { unfold ws_session, st0. cbn. rewrite lookup_alter_eq, Hsk. reflexivity. }
  rewrite Hses.
  destruct (session sk) as [room|]; [|left; reflexivity].
  destruct (truthy (Some room)); [|left; reflexivity].
  change (default EmptyString (Some room)) with room.
  change (sessions st0) with (sessions st).
  destruct (sessions st !! room) eqn:E; [|left; reflexivity].
  right. exists room. split; [reflexivity|].
  set (st1 := removePlayer _ _ _ _).
  assert (H1 : sessions st1 = alter (vacate now ws) room (sessions st)) by reflexivity.
  destruct (sessions st1 !! _) as [s|]; [|exact H1].
  destruct (if same_socket (host s) ws then guest s else host s) as [o|]; [|exact H1].
  destruct (ws_isOpen o st1); exact H1.
Qed.

Lemma slot_not_empty r s ws : slot r s = Some ws -> isEmpty s = false.
Proof.
  unfold slot, isEmpty.
  destruct (r =? "host")%string; [intros ->; reflexivity|].
  destruct (r =? "guest")%string; [|discriminate].
  intros ->. cbn. apply andb_false_r.
Qed.

(** X11.  A socket that holds a slot of one session and joins another
    session is not taken out of the first: after the [role] message, and
    after the socket's ['close'] event, which vacates only the session the
    socket names last, the first session still has the socket in its
    slot, so that it does not count as empty. *)
Theorem moving_leaves_slot_behind now now' ws data m st sk r room r2 room2 s :
  consistent st -> sockets st !! ws = Some sk ->
  processed st (now, ws, data) -> d_json data = inr m -> m_type m = "role" ->
  m_role m = Some r2 -> m_room m = Some room2 ->
  r2 = "host" \/ r2 = "guest" -> room2 <> EmptyString -> room2 <> room ->
  sessions st !! room = Some s -> slot r s = Some ws ->
  slot_left_behind now now' ws data r room st.
Proof.
  intros Hc Hsk Hp Hjson Htype Hmr Hmm Hr2 Hroom2 Hne Hs Hslot.
  pose proof (consistent_handleMessage now ws data st Hc) as Hc'.
  pose proof (handleMessage_dispatch now ws data m st Hp Hjson) as Hd.
  rewrite Htype in Hd. cbn [String.eqb Ascii.eqb Bool.eqb] in Hd.
  destruct (checkRateLimit_frame now ws st) as (Hse & Hso & _).
  set (st1 := snd (checkRateLimit now ws st)) in *.
  destruct (handleRoleMessage_accepts now ws m st1 r2 room2 Hmr Hmm Hr2 Hroom2)
    as (st' & Heq & Hj).
  rewrite <- Hd in Heq. apply handleMessage_returns in Heq.
  unfold slot_left_behind. rewrite Heq in *. cbn [snd] in *.
  apply (joined_from now r2 room2 ws st1 st st' Hse Hso) in Hj.
  destruct Hj as [(s2 & Hs2 & _) Hothers Hsocket _].
  assert (Hs' : sessions st' !! room = Some s).
  { rewrite Hothers by congruence. exact Hs. }
  split; [exists s; split; assumption|].
  exists s. split; [|split; [exact Hslot|exact (slot_not_empty r s ws Hslot)]].
  destruct (Hsocket sk Hsk) as (sk' & Hsk' & _ & Hsess' & _).
  rewrite Hs2 in Hsess'. cbn in Hsess'.
  destruct (c_key st' Hc' room2 s2 Hs2) as [Hcode _]. rewrite Hcode in Hsess'.
  destruct (onClose_sessions_of now' ws st' sk' Hsk') as [->|(room' & Hr' & ->)];
    [exact Hs'|].
  assert (room' = room2) by congruence. subst room'.
  rewrite lookup_alter_ne by congruence. exact Hs'.
Qed.

Lemma host_moves_to_another_room :
  (consistent host_joined /\
   sockets host_joined !! 1%positive =
     Some (mkSocket "10.0.0.1" OPEN (Some "host") (Some "R") [RoleAck "host" "R"] []) /\
   processed host_joined (1, 1%positive, json (role_msg "host" "S")) /\
   sessions host_joined !! "R" = Some (mkSession "R" (Some 1%positive) None 0 0 0)) /\
  slot_left_behind 1 2 1 (json (role_msg "host" "S")) "host" "R" host_joined.
Proof.
  assert (H : consistent host_joined /\
   sockets host_joined !! 1%positive =
     Some (mkSocket "10.0.0.1" OPEN (Some "host") (Some "R") [RoleAck "host" "R"] []) /\
   processed host_joined (1, 1%positive, json (role_msg "host" "S")) /\
   sessions host_joined !! "R" = Some (mkSession "R" (Some 1%positive) None 0 0 0)).
  { split; [apply run_consistent|]. split; [vm_compute; reflexivity|].
    split; [|vm_compute; reflexivity].
    split; [unfold a_data, json, MAX_MESSAGE_SIZE; cbn; lia|vm_compute; reflexivity]. }
  split; [exact H|]. destruct H as (H1 & H2 & H3 & H4).
  refine (moving_leaves_slot_behind 1 2 1 (json (role_msg "host" "S")) (role_msg "host" "S")
            host_joined _ "host" "R" "host" "S" _ H1 H2 H3 eq_refl eq_refl eq_refl eq_refl
            _ _ _ H4 eq_refl); [left; reflexivity|discriminate|discriminate].
Defined.
End RelayTheory.

(** ** The signaling server *)
Module SignalingTheory.
Import Signaling.

(** **** Room codes *)

Lemma get_In (s : string) : forall n c,
  String.get n s = Some c -> In c (list_ascii_of_string s).
Proof.
  induction s as [|x s IH]; intros n c H; [discriminate|].
  destruct n as [|n]; simpl in *.
  - left. congruence.
  - right. eauto.
Qed.

Lemma get_Some (s : string) : forall n,
  (n < String.length s)%nat -> exists c, String.get n s = Some c.
Proof.
  induction s as [|x s IH]; intros n H; simpl in H; [lia|].
  destruct n as [|n]; simpl; [eauto|]. apply IH. lia.
Qed.

Lemma charAt_alphabet n :
  (n < 29)%nat -> exists c, charAt BASE32_ALPHABET n = String c EmptyString /\ in_alphabet c.
Proof.
  intros Hn. destruct (get_Some BASE32_ALPHABET n Hn) as [c Hc].
  exists c. unfold charAt, in_alphabet. rewrite Hc.
  split; [reflexivity|]. exact (get_In _ _ _ Hc).
Qed.

Lemma code_of_bytes_unfold bytes :
  code_of_bytes bytes =
  ((((((EmptyString +:+ charAt BASE32_ALPHABET (alphabet_index bytes 0)) +:+
        charAt BASE32_ALPHABET (alphabet_index bytes 1)) +:+
       charAt BASE32_ALPHABET (alphabet_index bytes 2)) +:+
      charAt BASE32_ALPHABET (alphabet_index bytes 3)) +:+
     charAt BASE32_ALPHABET (alphabet_index bytes 0)) +:+
    charAt BASE32_ALPHABET (alphabet_index bytes 1)).
Proof.
  unfold code_of_bytes, alphabet_index.
  change (String.length BASE32_ALPHABET) with 29%nat.
  cbn [fold_left seq].
  change (0 mod 4)%nat with 0%nat. change (1 mod 4)%nat with 1%nat.
  change (2 mod 4)%nat with 2%nat. change (3 mod 4)%nat with 3%nat.
  change (4 mod 4)%nat with 0%nat. change (5 mod 4)%nat with 1%nat.
  reflexivity.
Qed.

Lemma alphabet_index_lt bytes i : (alphabet_index bytes i < 29)%nat.
Proof. unfold alphabet_index. apply Nat.mod_upper_bound. discriminate. Qed.

Lemma code_of_bytes_shape bytes :
  exists a b c d,
    code_of_bytes bytes =
      String a (String b (String c (String d (String a (String b EmptyString))))) /\
    in_alphabet a /\ in_alphabet b /\ in_alphabet c /\ in_alphabet d.
Proof.
  rewrite code_of_bytes_unfold.
  destruct (charAt_alphabet _ (alphabet_index_lt bytes 0)) as (a & Ea & Ha).
  destruct (charAt_alphabet _ (alphabet_index_lt bytes 1)) as (b & Eb & Hb).
  destruct (charAt_alphabet _ (alphabet_index_lt bytes 2)) as (c & Ec & Hc).
  destruct (charAt_alphabet _ (alphabet_index_lt bytes 3)) as (d & Ed & Hd).
  rewrite Ea, Eb, Ec, Ed.
  exists a, b, c, d. split; [reflexivity|auto].
Qed.

Lemma code_of_bytes_well_formed bytes : well_formed_code (code_of_bytes bytes).
Proof.
  destruct (code_of_bytes_shape bytes) as (a & b & c & d & -> & Ha & Hb & Hc & Hd).
  split; [reflexivity|]. simpl.
  repeat (apply List.Forall_cons; [assumption|]). apply List.Forall_nil.
Qed.


Lemma all_codes_length : N.of_nat (length all_codes) = (29 ^ 4)%N.
Proof.
  unfold all_codes. rewrite length_map, !length_prod, length_seq.
  rewrite !Nat2N.inj_mul. reflexivity.
Qed.

Lemma code_of_bytes_listed bytes : In (code_of_bytes bytes) all_codes.
Proof.
  rewrite code_of_bytes_unfold. unfold all_codes.
  apply in_map_iff.
  exists (alphabet_index bytes 0, alphabet_index bytes 1,
          alphabet_index bytes 2, alphabet_index bytes 3).
  split; [reflexivity|].
  repeat apply in_prod; apply in_seq; pose proof (alphabet_index_lt bytes 0);
    pose proof (alphabet_index_lt bytes 1); pose proof (alphabet_index_lt bytes 2);
    pose proof (alphabet_index_lt bytes 3); lia.
Qed.

(** C10.  Every code [generateRoomCode] returns has the form [abcdab]: the
    characters at positions 4 and 5 are those at positions 0 and 1.  All
    the codes it can return are in one list of 29^4 entries. *)
Theorem room_code_repeats_first_two_characters :
  (forall st, exists a b c d st',
     generateRoomCode st =
       (inl (String a (String b (String c (String d (String a (String b EmptyString)))))),
        st')) /\
  (forall st, exists code st',
     generateRoomCode st = (inl code, st') /\
     String.get 4 code = String.get 0 code /\ String.get 5 code = String.get 1 code /\
     is_Some (String.get 0 code) /\ is_Some (String.get 1 code)) /\
  (exists l : list string,
     N.of_nat (length l) = (29 ^ 4)%N /\
     forall st, exists code st', generateRoomCode st = (inl code, st') /\ In code l).
Proof.
  split; [|split].
  - intros st. unfold generateRoomCode, bind, randomBytes, ret.
    destruct (code_of_bytes_shape (map (entropy st) (seq (drawn st) 4)))
      as (a & b & c & d & -> & _).
    exists a, b, c, d. eexists. reflexivity.
  - intros st. unfold generateRoomCode, bind, randomBytes, ret.
    destruct (code_of_bytes_shape (map (entropy st) (seq (drawn st) 4)))
      as (a & b & c & d & -> & _).
    eexists. eexists. split; [reflexivity|]. simpl. eauto.
  - exists all_codes. split; [exact all_codes_length|].
    intros st. unfold generateRoomCode, bind, randomBytes, ret.
    eexists. eexists. split; [reflexivity|]. apply code_of_bytes_listed.
Qed.


(** **** The retry loop of [handleHello] *)

Lemma candidate_shift st st1 j :
  entropy st1 = entropy st -> drawn st1 = (drawn st + 4)%nat ->
  candidate st1 j = candidate st (S j).
Proof.
  intros He Hd. unfold candidate. rewrite He, Hd.
  replace (drawn st + 4 + 4 * j)%nat with (drawn st + 4 * S j)%nat by lia. reflexivity.
Qed.

Lemma candidate_0 st : code_of_bytes (map (entropy st) (seq (drawn st) 4)) = candidate st 0.
Proof. unfold candidate. replace (drawn st + 4 * 0)%nat with (drawn st) by lia. reflexivity. Qed.

Lemma uniqueCode_O st :
  uniqueCode 0 st = (inr "ROOM_GENERATION_FAILED", draw4 st).
Proof. reflexivity. Qed.

Lemma uniqueCode_S left st :
  uniqueCode (S left) st =
  if bool_decide (is_Some (rooms st !! candidate st 0))
  then uniqueCode left (draw4 st)
  else (inl (candidate st 0), draw4 st).
Proof.
  cbn [uniqueCode]. unfold bind, generateRoomCode, bind, randomBytes, ret, gets.
  rewrite candidate_0. fold (draw4 st). change (rooms (draw4 st)) with (rooms st).
  destruct (bool_decide _); reflexivity.
Qed.

(** What the loop returns: the first of the candidates that names no live
    room, if one of the first [left] does; the tables are left alone. *)
Lemma uniqueCode_spec left : forall st r st',
  uniqueCode left st = (r, st') ->
  rooms st' = rooms st /\ rateLimits st' = rateLimits st /\
  sockets st' = sockets st /\ entropy st' = entropy st /\
  match r with
  | inl c => exists k, (k < left)%nat /\ c = candidate st k /\ rooms st !! c = None /\
               (forall j, (j < k)%nat -> is_Some (rooms st !! candidate st j)) /\
               drawn st' = (drawn st + 4 * S k)%nat
  | inr e => e = "ROOM_GENERATION_FAILED" /\
               (forall j, (j < left)%nat -> is_Some (rooms st !! candidate st j)) /\
               drawn st' = (drawn st + 4 * S left)%nat
  end.
Proof.
  induction left as [|left IH]; intros st r st' Hrun.
  - rewrite uniqueCode_O in Hrun. injection Hrun as <- <-.
    simpl. repeat split; try reflexivity; try lia.
  - rewrite uniqueCode_S in Hrun.
    destruct (bool_decide (is_Some (rooms st !! candidate st 0))) eqn:Et.
    + apply bool_decide_eq_true_1 in Et.
      destruct (IH _ _ _ Hrun) as (H1 & H2 & H3 & H4 & H5).
      repeat split; try assumption.
      assert (Hshift : forall j, candidate (draw4 st) j = candidate st (S j))
        by (intros j; apply candidate_shift; reflexivity).
      destruct r as [c|e].
      * destruct H5 as (k & Hk & Hc & Hfree & Hbusy & Hd).
        exists (S k). split; [lia|]. split; [rewrite Hc; apply Hshift|].
        split; [exact Hfree|]. split.
        -- intros [|j] Hj; [exact Et|]. rewrite <- Hshift. apply Hbusy. lia.
        -- rewrite Hd. simpl. lia.
      * destruct H5 as (He & Hbusy & Hd). split; [exact He|]. split.
        -- intros [|j] Hj; [exact Et|]. rewrite <- Hshift. apply Hbusy. lia.
        -- rewrite Hd. simpl. lia.
    + apply bool_decide_eq_false_1 in Et. injection Hrun as <- <-.
      simpl. repeat split; try reflexivity.
      exists 0%nat. split; [lia|]. split; [reflexivity|]. split.
      * destruct (rooms st !! candidate st 0) eqn:E; [|reflexivity].
        exfalso. apply Et. eauto.
      * split; [intros j Hj; lia|lia].
Qed.


(** **** [handleHello] *)

Local Arguments Nat.leb : simpl never.
Local Arguments Z.ltb : simpl never.

Lemma hello_limiter_frame now ip st :
  rooms (snd (checkRateLimit now ip st)) = rooms st /\
  sockets (snd (checkRateLimit now ip st)) = sockets st /\
  entropy (snd (checkRateLimit now ip st)) = entropy st /\
  drawn (snd (checkRateLimit now ip st)) = drawn st /\
  (forall e, fst (checkRateLimit now ip st) = inr e -> e = "RATE_LIMITED").
Proof.
  unfold checkRateLimit. cbv zeta.
  destruct (Nat.leb _ _); [|destruct (Nat.leb _ _)]; simpl;
    repeat split; try reflexivity; intros e He; congruence.
Qed.

Lemma hello_sendError_frame ws c st :
  rooms (sendError ws c st) = rooms st /\ drawn (sendError ws c st) = drawn st.
Proof. unfold sendError. destruct (ws_isOpen ws st); split; reflexivity. Qed.

Lemma handleHello_host_eq now ws m st :
  m_role m = Some "host" ->
  handleHello now ws m st =
  match checkRateLimit now (ws_remoteAddress ws st) st with
  | (inr e, st1) => (inr e, st1)
  | (inl _, st1) =>
    match uniqueCode 10 st1 with
    | (inr e, st2) => (inr e, st2)
    | (inl c, st2) => (inl tt, host_room now ws (ws_remoteAddress ws st) c st2)
    end
  end.
Proof.
  intros Hrole. unfold handleHello. unfold bind at 1. unfold gets at 1. cbv beta iota.
  unfold bind at 1.
  destruct (checkRateLimit now (ws_remoteAddress ws st) st) as [[[]|e] st1]; [|reflexivity].
  rewrite bool_decide_eq_true_2 by exact Hrole.
  unfold bind at 1.
  destruct (uniqueCode 10 st1) as [[c|e] st2]; reflexivity.
Qed.

Lemma handleHello_host now ws m st r st' :
  m_role m = Some "host" ->
  handleHello now ws m st = (r, st') ->
  host_hello_outcome now ws st r st'.
Proof.
  intros Hrole. rewrite (handleHello_host_eq now ws m st Hrole).
  destruct (hello_limiter_frame now (ws_remoteAddress ws st) st) as (Hr & Hs & He & Hd & Hcode).
  destruct (checkRateLimit now (ws_remoteAddress ws st) st) as [[[]|e] st1];
    cbn [fst snd] in *.
  2:{ intros [= <- <-]. rewrite (Hcode e eq_refl). constructor; assumption. }
  destruct (uniqueCode 10 st1) as [[c|e] st2] eqn:Eu;
    destruct (uniqueCode_spec 10 st1 _ _ Eu) as (H1 & H2 & H3 & H4 & H5);
    intros [= <- <-].
  - destruct H5 as (k & Hk & Hc & Hfree & Hbusy & Hdr).
    unfold candidate in Hc, Hbusy. rewrite He, Hd in Hc, Hbusy. rewrite Hr in Hfree, Hbusy.
    eapply (host_room_created now ws st _ k c); try assumption.
    + simpl. rewrite H1, Hr. reflexivity.
    + simpl. rewrite H3, Hs. reflexivity.
    + simpl. rewrite Hdr, Hd. reflexivity.
  - destruct H5 as (-> & Hbusy & Hdr).
    unfold candidate in Hbusy. rewrite He, Hd, Hr in Hbusy.
    constructor; [congruence|congruence|exact Hbusy|]. rewrite Hdr, Hd. reflexivity.
Qed.

Lemma handleMessage_hello now ws m st :
  m_type m = "hello" ->
  handleMessage now ws (inr m) st =
  match handleHello now ws m st with
  | (inl _, st') => (inl tt, st')
  | (inr e, st') => (inr e, sendError ws (if String.eqb e EmptyString then "INTERNAL_ERROR" else e) st')
  end.
Proof.
  intros Htype. unfold handleMessage. rewrite Htype, String.eqb_refl.
  destruct (handleHello now ws m st) as [[[]|e] st']; reflexivity.
Qed.

Lemma handleMessage_host now ws m st r st' :
  m_type m = "hello" -> m_role m = Some "host" ->
  handleMessage now ws (inr m) st = (r, st') ->
  exists st1,
    host_hello_outcome now ws st r st1 /\
    rooms st' = rooms st1 /\ drawn st' = drawn st1 /\ (r = inl tt -> st' = st1).
Proof.
  intros Htype Hrole. rewrite (handleMessage_hello now ws m st Htype).
  destruct (handleHello now ws m st) as [[[]|e] st1] eqn:Eh;
    pose proof (handleHello_host now ws m st _ _ Hrole Eh) as H;
    intros [= <- <-]; exists st1.
  - auto.
  - destruct (hello_sendError_frame ws (if (e =? EmptyString)%string then "INTERNAL_ERROR" else e) st1).
    repeat split; try assumption. discriminate.
Qed.

(** **** Room codes of [hello(role=host)] *)


(** **** Occupied slots *)

Lemma addPlayer_full now ws r rm other st :
  slot r rm = Some other -> addPlayer now ws r rm st = (inr "ROOM_FULL", st).
Proof.
  unfold slot, addPlayer.
  destruct (r =? "host")%string; [intros ->; reflexivity|].
  destruct (r =? "guest")%string; [intros ->; reflexivity|discriminate].
Qed.

Lemma handleHello_guest_full now ws m st c rm g :
  m_role m = Some "guest" -> m_room m = Some c -> c <> EmptyString ->
  rooms st !! c = Some rm -> guest rm = Some g -> isExpired now rm = false ->
  fst (checkRateLimit now (ws_remoteAddress ws st) st) = inl tt ->
  handleHello now ws m st =
  (inr "ROOM_FULL", snd (checkRateLimit now (ws_remoteAddress ws st) st)).
Proof.
  intros Hrole Hroom Hc Hrm Hg Hexp Hrate.
  unfold handleHello. unfold bind at 1. unfold gets at 1. cbv beta iota.
  unfold bind at 1.
  destruct (hello_limiter_frame now (ws_remoteAddress ws st) st) as (Hr & _).
  destruct (checkRateLimit now (ws_remoteAddress ws st) st) as [o st1].
  cbn [fst snd] in *. subst o.
  rewrite bool_decide_eq_false_2 by (rewrite Hrole; discriminate).
  rewrite bool_decide_eq_true_2 by exact Hrole.
  rewrite Hroom, (truthy_intro c Hc). cbn [negb]. cbv iota.
  change (default EmptyString (Some c)) with c.
  unfold bind at 1. unfold gets at 1. cbv beta iota. rewrite Hr, Hrm, Hexp.
  unfold bind at 1. rewrite (addPlayer_full now ws "guest" rm g st1 Hg). reflexivity.
Qed.

Lemma guest_hello_refused now ws m st c rm g :
  m_type m = "hello" -> rooms st !! c = Some rm -> c <> EmptyString ->
  m_role m = Some "guest" -> m_room m = Some c -> guest rm = Some g ->
  isExpired now rm = false ->
  fst (checkRateLimit now (ws_remoteAddress ws st) st) = inl tt ->
  exists st', handleMessage now ws (inr m) st = (inr "ROOM_FULL", st') /\
    rooms st' = rooms st /\
    forall sk, sockets st !! ws = Some sk -> readyState sk = OPEN ->
      exists sk', sockets st' !! ws = Some sk' /\
        sent sk' = (sent sk ++ [ErrorFrame "ROOM_FULL"])%list /\
        role sk' = role sk /\ room sk' = room sk.
Proof.
  intros Htype Hrm Hc Hrole Hroom Hg Hexp Hrate.
  rewrite (handleMessage_hello now ws m st Htype).
  rewrite (handleHello_guest_full now ws m st c rm g) by assumption.
  destruct (hello_limiter_frame now (ws_remoteAddress ws st) st) as (Hr & Hs & _).
  set (st1 := snd (checkRateLimit now (ws_remoteAddress ws st) st)) in *.
  eexists. split; [reflexivity|]. simpl String.eqb. cbv iota. split.
  - rewrite (proj1 (hello_sendError_frame ws "ROOM_FULL" st1)). exact Hr.
  - intros sk Hsk Hopen. unfold sendError, ws_isOpen. rewrite Hs, Hsk, Hopen. simpl.
    rewrite Hs, lookup_alter_eq, Hsk. simpl. eexists. split; [reflexivity|].
    unfold send_on. rewrite Hopen. simpl. auto.
Qed.

Lemma host_hello_never_full now ws m st c rm :
  m_type m = "hello" -> rooms st !! c = Some rm -> m_role m = Some "host" ->
  fst (handleMessage now ws (inr m) st) <> inr "ROOM_FULL" /\
  rooms (snd (handleMessage now ws (inr m) st)) !! c = Some rm.
Proof.
  intros Htype Hrm Hrole.
  destruct (handleMessage now ws (inr m) st) as [o st'] eqn:E.
  destruct (handleMessage_host now ws m st o st' Htype Hrole E) as (st1 & Hout & Hr & _).
  cbn [fst snd]. rewrite Hr.
  inversion Hout as [st0 H1 H2|st0 H1 H2 Hbusy Hdr|st0 k c' turn Hk Hc' Hfree Hbusy H1 H2 Hdr];
    subst st0.
  - split; [discriminate|]. rewrite H1. exact Hrm.
  - split; [discriminate|]. rewrite H1. exact Hrm.
  - split; [discriminate|]. rewrite H1, lookup_insert_ne; [exact Hrm|].
    intros ->. rewrite Hfree in Hrm. discriminate.
Qed.

(** C1 (as amended).  For a live room [rm] stored under [c]: a
    [hello(role=guest)] that names [c] while the guest slot of [rm] is
    taken, the room not expired and the limiter lets the hello through,
    fails with [ROOM_FULL], the sender is sent the [error] frame and the
    table of rooms is as it was; [addPlayer] refuses a host or a guest
    whose slot is taken and writes nothing; a [hello(role=host)] never
    fails with [ROOM_FULL], whatever room it names, and leaves [rm] as it
    was. *)
Theorem occupied_slot_rejected now ws m st c rm :
  m_type m = "hello" -> rooms st !! c = Some rm -> c <> EmptyString ->
  occupied_slot_policy now ws m st c rm.
Proof.
  intros Htype Hrm Hc. split; [|split].
  - intros g. apply guest_hello_refused; assumption.
  - intros r other st0. apply addPlayer_full.
  - apply host_hello_never_full; assumption.
Qed.

(** **** Runs of the server *)


(** The room of the witness is AAAAAA, and the host is told so. *)
Example first_room_is_AAAAAA :
  exists rm sk turn,
    rooms first_host !! "AAAAAA" = Some rm /\ host rm = Some 1%positive /\
    sockets first_host !! 1%positive = Some sk /\
    sent sk = [HelloAck "AAAAAA" "host" turn].
Proof. eexists. eexists. eexists. repeat split; vm_compute; reflexivity. Qed.

Lemma guest_slot_of_full_room :
  (m_type (hello "guest" (Some "AAAAAA")) = "hello" /\
   rooms full_room !! "AAAAAA" =
     Some (mkRoom "AAAAAA" (Some 1%positive) (Some 2%positive) 0 1 true) /\
   "AAAAAA" <> EmptyString) /\
  occupied_slot_policy 2 3 (hello "guest" (Some "AAAAAA")) full_room "AAAAAA"
    (mkRoom "AAAAAA" (Some 1%positive) (Some 2%positive) 0 1 true).
Proof.
  assert (H : rooms full_room !! "AAAAAA" =
              Some (mkRoom "AAAAAA" (Some 1%positive) (Some 2%positive) 0 1 true))
    by (vm_compute; reflexivity).
  split; [split; [reflexivity|split; [exact H|discriminate]]|].
  apply (occupied_slot_rejected 2 3 (hello "guest" (Some "AAAAAA")) full_room "AAAAAA" _
           eq_refl H).
  discriminate.
Defined.

(** A third socket asks for the guest slot of the full room. *)
Example third_guest_is_refused :
  exists st',
    handleMessage 2 3 (inr (hello "guest" (Some "AAAAAA"))) full_room = (inr "ROOM_FULL", st') /\
    rooms st' = rooms full_room.
Proof.
  destruct (guest_hello_refused 2 3 (hello "guest" (Some "AAAAAA")) full_room "AAAAAA"
              (mkRoom "AAAAAA" (Some 1%positive) (Some 2%positive) 0 1 true) 2%positive)
    as (st' & Heq & Hrooms & _);
    try reflexivity; try discriminate; try (vm_compute; reflexivity).
  exists st'. split; assumption.
Qed.

(** C1 as stated fails for the host role: socket 1 is the host of AAAAAA
    and socket 2 sends [hello(role=host, room=AAAAAA)].  The room named
    is not looked at: a room is created under a new code and the hello is
    acknowledged. *)
Lemma second_host_not_rejected :
  (exists rm, rooms first_host !! "AAAAAA" = Some rm /\ host rm = Some 1%positive) /\
  ~ second_host_rejected 1 2 (hello "host" (Some "AAAAAA")) first_host /\
  fst (handleMessage 1 2 (inr (hello "host" (Some "AAAAAA"))) first_host) = inl tt /\
  is_Some (rooms (snd (handleMessage 1 2 (inr (hello "host" (Some "AAAAAA"))) first_host))
           !! "BBBBBB").
Proof.
  split; [|split; [|split]].
  - eexists. vm_compute. split; reflexivity.
  - intros (st' & Heq & _). vm_compute in Heq. discriminate.
  - vm_compute. reflexivity.
  - vm_compute. eauto.
Qed.


(** **** [hello(role=guest)] *)

Lemma handleHello_guest_eq now ws m st :
  m_role m = Some "guest" ->
  handleHello now ws m st =
  match checkRateLimit now (ws_remoteAddress ws st) st with
  | (inr e, st1) => (inr e, st1)
  | (inl _, st1) =>
    if negb (truthy (m_room m)) then (inr "ROOM_CODE_REQUIRED", st1)
    else
      let c := default EmptyString (m_room m) in
      match rooms st1 !! c with
      | None => (inr "ROOM_NOT_FOUND", st1)
      | Some rm =>
        if isExpired now rm then (inr "ROOM_EXPIRED", set_rooms (delete c) st1)
        else match guest rm with
             | Some _ => (inr "ROOM_FULL", st1)
             | None => (inl tt, guest_room now ws (ws_remoteAddress ws st) c rm st1)
             end
      end
  end.
Proof.
  intros Hrole. unfold handleHello. unfold bind at 1. unfold gets at 1. cbv beta iota.
  unfold bind at 1.
  destruct (checkRateLimit now (ws_remoteAddress ws st) st) as [[[]|e] st1]; [|reflexivity].
  rewrite bool_decide_eq_false_2 by (rewrite Hrole; discriminate).
  rewrite bool_decide_eq_true_2 by exact Hrole.
  destruct (negb (truthy (m_room m))); [reflexivity|].
  cbv zeta. unfold bind at 1. unfold gets at 1. cbv beta iota.
  destruct (rooms st1 !! default EmptyString (m_room m)) as [rm|]; [|reflexivity].
  destruct (isExpired now rm); [reflexivity|].
  unfold bind at 1. unfold addPlayer. cbn [String.eqb Ascii.eqb Bool.eqb].
  destruct (guest rm); reflexivity.
Qed.

(** What the limiter leaves when it lets a handshake through. *)
Lemma checkRateLimit_admitted now ip st :
  fst (checkRateLimit now ip st) = inl tt ->
  exists l, rateLimits (snd (checkRateLimit now ip st)) !! ip = Some l /\
    last (handshakes l) = Some now /\
    (length (handshakes l) <= 30)%nat /\ (roomCount l < 5)%nat /\
    roomCount l = roomCount (default (mkLimit [] 0) (rateLimits st !! ip)) /\
    forall ip', ip' <> ip ->
      rateLimits (snd (checkRateLimit now ip st)) !! ip' = rateLimits st !! ip'.
Proof.
  unfold checkRateLimit. cbv zeta.
  set (l0 := default (mkLimit [] 0) (rateLimits st !! ip)).
  set (hs := List.filter (fun time => Z.ltb (now - time) (10 * 60 * 1000)) (handshakes l0)).
  cbn [handshakes roomCount].
  destruct (Nat.leb_spec 30 (length hs)); [discriminate|].
  destruct (Nat.leb_spec 5 (roomCount l0)); [discriminate|].
  intros _. cbn [snd rateLimits set_rateLimits]. eexists.
  rewrite lookup_insert_eq. split; [reflexivity|]. cbn [handshakes roomCount].
  split; [apply last_snoc|]. split; [rewrite length_app; cbn; lia|].
  split; [assumption|]. split; [reflexivity|].
  intros ip' Hne. rewrite !lookup_insert_ne by congruence. reflexivity.
Qed.

Lemma signaling_sendError_rateLimits ws c st : rateLimits (sendError ws c st) = rateLimits st.
Proof. unfold sendError. destruct (ws_isOpen ws st); reflexivity. Qed.

Lemma count_room_recorded now ip st :
  handshake_recorded now ip st -> handshake_recorded now ip (count_room ip st).
Proof.
  intros (l & Hl & Hlast). unfold handshake_recorded, count_room. cbn.
  rewrite lookup_alter_eq, Hl. eexists. split; [reflexivity|exact Hlast].
Qed.

Lemma guest_room_joined now ws ip c rm st st1 :
  rooms st1 = rooms st -> sockets st1 = sockets st ->
  guest_joined now ws c rm st (guest_room now ws ip c rm st1).
Proof.
  intros Hr Hs. split.
  - cbn. rewrite Hr. reflexivity.
  - intros sk Hsk. unfold guest_room. cbv zeta.
    set (turn := mkTurn _ _ _).
    exists (send_on (HelloAck c "guest" turn) (assign "guest" (code rm) sk)), turn.
    split; [cbn; rewrite !lookup_alter_eq, Hs, Hsk; reflexivity|].
    unfold send_on. cbn [readyState assign].
    destruct (is_open (readyState sk)); cbn; auto.
  - intros k Hk. cbn. rewrite !lookup_alter_ne by congruence. rewrite Hs. reflexivity.
Qed.

Lemma guest_hello_result_holds now ws m st :
  m_type m = "hello" -> m_role m = Some "guest" ->
  fst (checkRateLimit now (ws_remoteAddress ws st) st) = inl tt ->
  guest_hello_result now ws m st (handleMessage now ws (inr m) st).
Proof.
  intros Htype Hrole Hrate.
  rewrite (handleMessage_hello now ws m st Htype), (handleHello_guest_eq now ws m st Hrole).
  destruct (checkRateLimit_admitted now _ st Hrate) as (l & Hl & Hlast & _).
  assert (Hrec : handshake_recorded now (ws_remoteAddress ws st)
                   (snd (checkRateLimit now (ws_remoteAddress ws st) st))) by (exists l; auto).
  destruct (hello_limiter_frame now (ws_remoteAddress ws st) st) as (Hr & Hs & _).
  destruct (checkRateLimit now (ws_remoteAddress ws st) st) as [o st1].
  cbn [fst snd] in *. subst o. unfold guest_hello_result.
  assert (Herr : forall e st2, rateLimits st2 = rateLimits st1 ->
            handshake_recorded now (ws_remoteAddress ws st) (sendError ws e st2)).
  { intros e st2 H2. unfold handshake_recorded. rewrite signaling_sendError_rateLimits, H2. exact Hrec. }
  destruct (truthy (m_room m)); cbn [negb].
  2:{ cbn [fst snd]. split; [apply Herr; reflexivity|]. split; [reflexivity|].
      rewrite (proj1 (hello_sendError_frame ws _ st1)). exact Hr. }
  cbv zeta. rewrite Hr.
  destruct (rooms st !! default EmptyString (m_room m)) as [rm|].
  2:{ cbn [fst snd]. split; [apply Herr; reflexivity|]. split; [reflexivity|].
      rewrite (proj1 (hello_sendError_frame ws _ st1)). exact Hr. }
  destruct (isExpired now rm).
  { cbn [fst snd]. split; [apply Herr; reflexivity|]. split; [reflexivity|].
    rewrite (proj1 (hello_sendError_frame ws _ _)). cbn. rewrite Hr. reflexivity. }
  destruct (guest rm).
  { cbn [fst snd]. split; [apply Herr; reflexivity|]. split; [reflexivity|].
    rewrite (proj1 (hello_sendError_frame ws _ st1)). exact Hr. }
  cbn [fst snd]. split.
  - unfold guest_room. cbv zeta. unfold handshake_recorded. cbn [rateLimits ws_send set_sockets].
    apply count_room_recorded. exact Hrec.
  - split; [reflexivity|]. apply guest_room_joined; assumption.
Qed.

(** X12.  A [hello(role=guest)] that the limiter lets through is on the
    limiter's record, whatever comes of it, and ends in one of five ways.
    No room code: [ROOM_CODE_REQUIRED].  No room of that code:
    [ROOM_NOT_FOUND].  The room is expired: [ROOM_EXPIRED], and the room
    is deleted.  Its guest slot is taken: [ROOM_FULL].  Otherwise the
    sender joins: it takes the guest slot, is labelled and is sent the
    [hello-ack] with the credentials of the room; no other socket is
    written to, so the host is not told. *)
Theorem guest_hello_outcome now ws m st :
  m_type m = "hello" -> m_role m = Some "guest" ->
  fst (checkRateLimit now (ws_remoteAddress ws st) st) = inl tt ->
  guest_hello_result now ws m st (handleMessage now ws (inr m) st).
Proof. apply guest_hello_result_holds. Qed.

Lemma guest_joins_first_room :
  (m_type (hello "guest" (Some "AAAAAA")) = "hello" /\
   m_role (hello "guest" (Some "AAAAAA")) = Some "guest" /\
   fst (checkRateLimit 1 (ws_remoteAddress 2 first_host) first_host) = inl tt) /\
  guest_hello_result 1 2 (hello "guest" (Some "AAAAAA")) first_host
    (handleMessage 1 2 (inr (hello "guest" (Some "AAAAAA"))) first_host).
Proof.
  assert (H : fst (checkRateLimit 1 (ws_remoteAddress 2 first_host) first_host) = inl tt)
    by (vm_compute; reflexivity).
  split; [split; [reflexivity|split; [reflexivity|exact H]]|].
  exact (guest_hello_outcome 1 2 (hello "guest" (Some "AAAAAA")) first_host eq_refl eq_refl H).
Defined.

(** The guest above joins; the host has been sent nothing
    since its own [hello-ack]. *)
Example host_not_told_of_guest :
  (exists rm, rooms full_room !! "AAAAAA" = Some rm /\ guest rm = Some 2%positive) /\
  length <$> (sent <$> (sockets full_room !! 1%positive)) = Some 1%nat.
Proof. split; [eexists; split|]; vm_compute; reflexivity. Qed.

(** **** Messages that fail *)

Lemma handleHello_other_eq now ws m st :
  m_role m <> Some "host" -> m_role m <> Some "guest" ->
  handleHello now ws m st =
  match checkRateLimit now (ws_remoteAddress ws st) st with
  | (inr e, st1) => (inr e, st1)
  | (inl _, st1) => (inr "INVALID_ROLE", st1)
  end.
Proof.
  intros Hh Hg. unfold handleHello. unfold bind at 1. unfold gets at 1. cbv beta iota.
  unfold bind at 1.
  destruct (checkRateLimit now (ws_remoteAddress ws st) st) as [[[]|e] st1]; [|reflexivity].
  rewrite bool_decide_eq_false_2 by exact Hh.
  rewrite bool_decide_eq_false_2 by exact Hg. reflexivity.
Qed.

Lemma handleHello_error now ws m st e st1 :
  handleHello now ws m st = (inr e, st1) ->
  sockets st1 = sockets st /\
  (rooms st1 = rooms st \/
   e = "ROOM_EXPIRED" /\ exists c, m_room m = Some c /\ rooms st1 = delete c (rooms st)).
Proof.
  destruct (decide (m_role m = Some "host")) as [Hh|Hh].
  { intros H. pose proof (handleHello_host now ws m st _ _ Hh H) as Ho.
    inversion Ho; subst; auto. }
  destruct (hello_limiter_frame now (ws_remoteAddress ws st) st) as (Hr & Hs & _).
  destruct (decide (m_role m = Some "guest")) as [Hg|Hg].
  - rewrite (handleHello_guest_eq now ws m st Hg).
    destruct (checkRateLimit now (ws_remoteAddress ws st) st) as [[[]|e0] st0];
      cbn [snd] in Hr, Hs; [|intros [= <- <-]; auto].
    destruct (m_room m) as [c|]; [|intros [= <- <-]; auto].
    destruct (negb (truthy (Some c))); [intros [= <- <-]; auto|].
    change (default EmptyString (Some c)) with c. cbv zeta.
    destruct (rooms st0 !! c) as [rm|]; [|intros [= <- <-]; auto].
    destruct (isExpired now rm).
    + intros [= <- <-]. split; [exact Hs|]. right. split; [reflexivity|].
      exists c. split; [reflexivity|]. cbn. rewrite Hr. reflexivity.
    + destruct (guest rm); [intros [= <- <-]; auto|discriminate].
  - rewrite (handleHello_other_eq now ws m st Hh Hg).
    destruct (checkRateLimit now (ws_remoteAddress ws st) st) as [[[]|e0] st0];
      cbn [snd] in Hr, Hs; intros [= <- <-]; auto.
Qed.

Lemma handleSignal_error now ws m st e st1 :
  handleSignal now ws m st = (inr e, st1) -> st1 = st.
Proof.
  unfold handleSignal. destruct (negb (truthy (ws_room ws st))); [congruence|].
  destruct (rooms st !! _); [discriminate|congruence].
Qed.

Lemma signaling_sendError_sockets ws c st st1 :
  sockets st1 = sockets st ->
  sockets (sendError ws c st1) = sockets (sendError ws c st).
Proof.
  intros H. unfold sendError, ws_isOpen. rewrite H.
  destruct (sockets st !! ws) as [s|]; [|exact H].
  destruct (is_open (readyState s)); [|exact H].
  cbn. rewrite H. reflexivity.
Qed.

Lemma signaling_caught now ws data st e st' :
  handleMessage now ws data st = (inr e, st') ->
  exists st1, st' = sendError ws (reply_code e) st1 /\
    match data with
    | inl e0 => e = e0 /\ st1 = st
    | inr m =>
      if String.eqb (m_type m) "hello" then handleHello now ws m st = (inr e, st1)
      else handleSignal now ws m st = (inr e, st1)
    end.
Proof.
  unfold handleMessage. cbv zeta. destruct data as [e0|m].
  - unfold throw. intros [= <- <-]. eauto.
  - destruct (m_type m =? "hello")%string.
    + destruct (handleHello now ws m st) as [[[]|e0] st1]; [discriminate|].
      intros [= <- <-]. eauto.
    + destruct (m_type m =? "signal")%string.
      * destruct (handleSignal now ws m st) as [[[]|e0] st1]; [discriminate|].
        intros [= <- <-]. eauto.
      * destruct (m_type m =? "pong")%string; discriminate.
Qed.

Lemma caught_error_effect now ws data st e st' :
  handleMessage now ws data st = (inr e, st') -> error_effect ws data e st st'.
Proof.
  intros H. destruct (signaling_caught now ws data st e st' H) as (st1 & -> & Hb).
  assert (Hx : sockets st1 = sockets st /\
              (rooms st1 = rooms st \/
               e = "ROOM_EXPIRED" /\
               exists m c, data = inr m /\ m_room m = Some c /\ rooms st1 = delete c (rooms st))).
  { destruct data as [e1|m].
    - destruct Hb as [_ ->]. auto.
    - destruct (m_type m =? "hello")%string.
      + destruct (handleHello_error now ws m st _ _ Hb) as [Hs [Hr|(He & c & Hc & Hr)]];
          [auto|]. split; [exact Hs|]. right. split; [exact He|]. exists m, c. auto.
      + apply handleSignal_error in Hb. subst. auto. }
  destruct Hx as [Hs Hr]. split.
  - apply signaling_sendError_sockets. exact Hs.
  - rewrite (proj1 (hello_sendError_frame ws _ st1)). exact Hr.
Qed.

(** X13.  A message to the signaling server whose handling ends in an
    error changed no socket, but for the [error] frame written to the
    sender when it is OPEN, and no room, with one exception: the error
    [ROOM_EXPIRED] of a [hello] deletes the room the [hello] named. *)
Theorem failed_message_effect now ws data st e st' :
  handleMessage now ws data st = (inr e, st') -> error_effect ws data e st st'.
Proof. apply caught_error_effect. Qed.

Lemma signal_of_stranger_fails :
  handleMessage 0 3 (inr (signal "sdp")) lobby =
    (inr "NOT_IN_ROOM", snd (handleMessage 0 3 (inr (signal "sdp")) lobby)) /\
  error_effect 3 (inr (signal "sdp")) "NOT_IN_ROOM" lobby
    (snd (handleMessage 0 3 (inr (signal "sdp")) lobby)).
Proof.
  assert (H : handleMessage 0 3 (inr (signal "sdp")) lobby =
              (inr "NOT_IN_ROOM", snd (handleMessage 0 3 (inr (signal "sdp")) lobby)))
    by (vm_compute; reflexivity).
  split; [exact H|].
  exact (failed_message_effect 0 3 (inr (signal "sdp")) lobby _ _ H).
Defined.

(** **** Signals *)

Lemma handleMessage_signal now ws m st :
  m_type m = "signal" ->
  handleMessage now ws (inr m) st =
  match handleSignal now ws m st with
  | (inl _, st') => (inl tt, st')
  | (inr e, st') => (inr e, sendError ws (reply_code e) st')
  end.
Proof.
  intros Htype. unfold handleMessage. rewrite Htype. cbn [String.eqb Ascii.eqb Bool.eqb].
  destruct (handleSignal now ws m st) as [[[]|e] st']; reflexivity.
Qed.

Lemma handleSignal_member now ws m st sk c rm :
  sockets st !! ws = Some sk -> room sk = Some c -> c <> EmptyString ->
  rooms st !! c = Some rm ->
  handleSignal now ws m st =
  (inl tt, set_rooms (alter (touch now) c) (broadcast rm (Relayed m) (Some ws) st)).
Proof.
  intros Hsk Hroom Hc Hrm. unfold handleSignal, ws_room.
  rewrite Hsk, Hroom, (truthy_intro c Hc). cbn [negb].
  change (default EmptyString (Some c)) with c. rewrite Hrm. reflexivity.
Qed.

Lemma same_socket_spec a ws : same_socket a ws = true <-> a = Some ws.
Proof.
  destruct a as [x|]; cbn; [|split; discriminate].
  rewrite Pos.eqb_eq. split; congruence.
Qed.

(** [broadcast] with the sender excluded writes to the peer, when there is
    one and it is OPEN. *)
Lemma broadcast_to_peer rm f ws st :
  (host rm = Some ws \/ guest rm = Some ws) -> host rm <> guest rm ->
  broadcast rm f (Some ws) st =
  match peer rm ws with
  | Some p => if ws_isOpen p st then ws_send p f st else st
  | None => st
  end.
Proof.
  intros Hin Hne. unfold broadcast, peer.
  destruct (host rm) as [h|] eqn:Eh; destruct (guest rm) as [g|] eqn:Eg; cbn [same_socket].
  - assert (h <> g) by congruence.
    destruct (Pos.eqb_spec h ws) as [->|Hh].
    + rewrite (bool_decide_eq_true_2 (Some ws = Some ws)) by reflexivity. cbn [negb andb].
      rewrite (bool_decide_eq_false_2 (Some g = Some ws)) by congruence. cbn [negb andb].
      reflexivity.
    + assert (g = ws) by (destruct Hin; congruence). subst g.
      rewrite (bool_decide_eq_false_2 (Some h = Some ws)) by congruence. cbn [negb andb].
      rewrite (bool_decide_eq_true_2 (Some ws = Some ws)) by reflexivity. cbn [negb andb].
      destruct (ws_isOpen h st); reflexivity.
  - assert (h = ws) by (destruct Hin; congruence). subst h.
    rewrite Pos.eqb_refl, (bool_decide_eq_true_2 (Some ws = Some ws)) by reflexivity.
    reflexivity.
  - assert (g = ws) by (destruct Hin; congruence). subst g.
    rewrite (bool_decide_eq_true_2 (Some ws = Some ws)) by reflexivity. reflexivity.
  - destruct Hin; discriminate.
Qed.

Lemma signaling_isOpen_intro st ws sk :
  sockets st !! ws = Some sk -> readyState sk = OPEN -> ws_isOpen ws st = true.
Proof. intros H Ho. unfold ws_isOpen. rewrite H, Ho. reflexivity. Qed.

Lemma signal_relayed now c ws p m st sk rm :
  m_type m = "signal" ->
  sockets st !! ws = Some sk -> room sk = Some c -> c <> EmptyString ->
  rooms st !! c = Some rm ->
  (host rm = Some ws \/ guest rm = Some ws) -> host rm <> guest rm ->
  peer rm ws = Some p -> ws_isOpen p st = true ->
  relayed now c ws p m st.
Proof.
  intros Htype Hsk Hroom Hc Hrm Hin Hne Hp Ho. unfold relayed.
  rewrite (handleMessage_signal now ws m st Htype).
  rewrite (handleSignal_member now ws m st sk c rm Hsk Hroom Hc Hrm).
  rewrite (broadcast_to_peer rm (Relayed m) ws st Hin Hne), Hp, Ho.
  eexists. split; [reflexivity|]. split; reflexivity.
Qed.

(** X14.  In a room with its two players, a [signal] of the host is
    written to the guest and a [signal] of the guest to the host, as it
    came; the sender and every other socket are sent nothing, and the
    room records the time. *)
Theorem signals_cross_the_room now c h g m st :
  room_paired c h g st -> m_type m = "signal" ->
  signal_exchange now c h g m st.
Proof.
  intros [Hc (rm & Hrm & Hh & Hg) Hne (skh & Hskh & Hrh & Hoh) (skg & Hskg & Hrg & Hog)] Htype.
  assert (Hslots : host rm <> guest rm) by congruence.
  split.
  - apply (signal_relayed now c h g m st skh rm); auto.
    + unfold peer. rewrite Hh. cbn. rewrite Pos.eqb_refl. exact Hg.
    + apply (signaling_isOpen_intro st g skg); assumption.
  - apply (signal_relayed now c g h m st skg rm); auto.
    + unfold peer. rewrite Hh. cbn.
      destruct (Pos.eqb_spec h g); [contradiction|reflexivity].
    + apply (signaling_isOpen_intro st h skh); assumption.
Qed.

Lemma paired_full_room : room_paired "AAAAAA" 1 2 full_room.
Proof.
  split.
  - discriminate.
  - exists (mkRoom "AAAAAA" (Some 1%positive) (Some 2%positive) 0 1 true).
    split; [vm_compute; reflexivity|split; reflexivity].
  - discriminate.
  - exists first_host_socket. split; [vm_compute; reflexivity|split; reflexivity].
  - exists first_guest_socket. split; [vm_compute; reflexivity|split; reflexivity].
Qed.

Lemma full_room_exchanges_signals :
  (room_paired "AAAAAA" 1 2 full_room /\ m_type (signal "sdp") = "signal") /\
  signal_exchange 5 "AAAAAA" 1 2 (signal "sdp") full_room.
Proof.
  split; [split; [exact paired_full_room|reflexivity]|].
  exact (signals_cross_the_room 5 "AAAAAA" 1 2 (signal "sdp") full_room paired_full_room eq_refl).
Defined.

(** X15.  A [signal] of a player whose room has no other player, or whose
    peer is not OPEN, is dropped: the handler returns without error, no
    socket is written to, and the room records the time.  So an offer the
    host sends before the guest has joined is lost without notice. *)
Theorem signal_without_peer_is_dropped now c ws m st sk rm :
  m_type m = "signal" ->
  sockets st !! ws = Some sk -> room sk = Some c -> c <> EmptyString ->
  rooms st !! c = Some rm ->
  (host rm = Some ws \/ guest rm = Some ws) -> host rm <> guest rm ->
  (peer rm ws = None \/ exists p, peer rm ws = Some p /\ ws_isOpen p st = false) ->
  signal_dropped now c ws m st.
Proof.
  intros Htype Hsk Hroom Hc Hrm Hin Hne Hp. unfold signal_dropped.
  rewrite (handleMessage_signal now ws m st Htype).
  rewrite (handleSignal_member now ws m st sk c rm Hsk Hroom Hc Hrm).
  rewrite (broadcast_to_peer rm (Relayed m) ws st Hin Hne).
  destruct Hp as [->|(p & -> & ->)]; (eexists; split; [reflexivity|split; reflexivity]).
Qed.

Lemma host_signals_alone :
  (m_type (signal "offer") = "signal" /\
   sockets first_host !! 1%positive = Some first_host_socket /\
   "AAAAAA" <> EmptyString /\
   rooms first_host !! "AAAAAA" = Some (mkRoom "AAAAAA" (Some 1%positive) None 0 0 true)) /\
  signal_dropped 1 "AAAAAA" 1 (signal "offer") first_host.
Proof.
  assert (H : sockets first_host !! 1%positive = Some first_host_socket /\
   "AAAAAA" <> EmptyString /\
   rooms first_host !! "AAAAAA" = Some (mkRoom "AAAAAA" (Some 1%positive) None 0 0 true)).
  { split; [vm_compute; reflexivity|]. split; [discriminate|vm_compute; reflexivity]. }
  split; [split; [reflexivity|exact H]|]. destruct H as (H1 & H2 & H3).
  refine (signal_without_peer_is_dropped 1 "AAAAAA" 1 (signal "offer") first_host
            first_host_socket _ eq_refl H1 eq_refl H2 H3 _ _ _).
  - left. reflexivity.
  - discriminate.
  - left. reflexivity.
Defined.

(** **** What a message does to the two tables *)

Lemma handleHello_tables now ws m st r st' :
  handleHello now ws m st = (r, st') ->
  let ip := ws_remoteAddress ws st in
  let st1 := snd (checkRateLimit now ip st) in
  match r with
  | inr e =>
    rateLimits st' = rateLimits st1 /\
    (rooms st' = rooms st \/ exists c, rooms st' = delete c (rooms st))
  | inl _ =>
    fst (checkRateLimit now ip st) = inl tt /\
    rateLimits st' = rateLimits (count_room ip st1) /\
    ((exists c, well_formed_code c /\
        rooms st' = <[c := mkRoom c (Some ws) None now now true]> (rooms st)) \/
     (exists c rm, rooms st !! c = Some rm /\
        rooms st' = <[c := with_guest now ws rm]> (rooms st)))
  end.
Proof.
  cbv zeta.
  destruct (hello_limiter_frame now (ws_remoteAddress ws st) st) as (Hr & Hs & _).
  destruct (decide (m_role m = Some "host")) as [Hh|Hh];
    [|destruct (decide (m_role m = Some "guest")) as [Hg|Hg]].
  - rewrite (handleHello_host_eq now ws m st Hh).
    destruct (checkRateLimit now (ws_remoteAddress ws st) st) as [[[]|e0] st0];
      cbn [fst snd] in *; [|intros [= <- <-]; auto].
    destruct (uniqueCode 10 st0) as [[c|e] st2] eqn:Eu;
      destruct (uniqueCode_spec 10 st0 _ _ Eu) as (H1 & H2 & H3 & H4 & H5);
      intros [= <- <-].
    + split; [reflexivity|]. split; [cbn; rewrite H2; reflexivity|].
      left. exists c. destruct H5 as (k & _ & -> & _). split; [apply code_of_bytes_well_formed|].
      cbn. rewrite H1, Hr. reflexivity.
    + split; [exact H2|]. left. congruence.
  - rewrite (handleHello_guest_eq now ws m st Hg).
    destruct (checkRateLimit now (ws_remoteAddress ws st) st) as [[[]|e0] st0];
      cbn [fst snd] in *; [|intros [= <- <-]; auto].
    destruct (negb (truthy (m_room m))); [intros [= <- <-]; auto|].
    cbv zeta. rewrite Hr.
    destruct (rooms st !! default EmptyString (m_room m)) as [rm|] eqn:Erm;
      [|intros [= <- <-]; auto].
    destruct (isExpired now rm).
    { intros [= <- <-]. split; [reflexivity|]. right. eexists. cbn. rewrite Hr. reflexivity. }
    destruct (guest rm); intros [= <- <-]; [auto|].
    split; [reflexivity|]. split; [reflexivity|]. right.
    exists (default EmptyString (m_room m)), rm. split; [exact Erm|]. cbn. rewrite Hr. reflexivity.
  - rewrite (handleHello_other_eq now ws m st Hh Hg).
    destruct (checkRateLimit now (ws_remoteAddress ws st) st) as [[[]|e0] st0];
      cbn [fst snd] in *; intros [= <- <-]; auto.
Qed.

Lemma handleMessage_tables now ws data st :
  let st' := snd (handleMessage now ws data st) in
  let ip := ws_remoteAddress ws st in
  let st1 := snd (checkRateLimit now ip st) in
  (rateLimits st' = rateLimits st \/ rateLimits st' = rateLimits st1 \/
   fst (checkRateLimit now ip st) = inl tt /\ rateLimits st' = rateLimits (count_room ip st1)) /\
  (rooms st' = rooms st \/
   (exists c, rooms st' = delete c (rooms st)) \/
   (exists c, rooms st' = alter (touch now) c (rooms st)) \/
   (exists c, well_formed_code c /\
      rooms st' = <[c := mkRoom c (Some ws) None now now true]> (rooms st)) \/
   (exists c rm, rooms st !! c = Some rm /\
      rooms st' = <[c := with_guest now ws rm]> (rooms st))).
Proof.
  cbv zeta. unfold handleMessage. cbv zeta. destruct data as [e0|m].
  { unfold throw. cbn [snd].
    rewrite signaling_sendError_rateLimits, (proj1 (hello_sendError_frame ws _ st)). auto. }
  destruct (m_type m =? "hello")%string.
  { destruct (handleHello now ws m st) as [[[]|e] st'] eqn:Eh;
      pose proof (handleHello_tables now ws m st _ _ Eh) as Ht; cbv zeta in Ht; cbn [snd].
    - destruct Ht as (Ha & Hl & [Hr|Hr]); split; auto 6.
    - rewrite signaling_sendError_rateLimits, (proj1 (hello_sendError_frame ws _ st')).
      destruct Ht as (Hl & [Hr|Hr]); split; auto. }
  destruct (m_type m =? "signal")%string.
  { unfold handleSignal.
    destruct (negb (truthy (ws_room ws st))).
    - cbn [snd]. rewrite signaling_sendError_rateLimits, (proj1 (hello_sendError_frame ws _ st)).
      auto.
    - destruct (rooms st !! default EmptyString (ws_room ws st)) as [rm|].
      + cbn [snd]. split; [left|].
        * unfold broadcast. cbn.
          destruct (host rm) as [h|]; destruct (guest rm) as [g|];
            repeat match goal with |- context [if ?b then _ else _] => destruct b end;
            reflexivity.
        * right. right. left. eexists.
          cbn [rooms set_rooms]. f_equal. unfold broadcast.
          destruct (host rm) as [h|]; destruct (guest rm) as [g|];
            repeat match goal with |- context [if ?b then _ else _] => destruct b end;
            reflexivity.
      + cbn [snd]. rewrite signaling_sendError_rateLimits,
          (proj1 (hello_sendError_frame ws _ st)). auto. }
  destruct (m_type m =? "pong")%string.
  - unfold exec. cbn [snd]. destruct (truthy (ws_room ws st)); [|auto].
    split; [left; reflexivity|]. right. right. left. eexists. reflexivity.
  - unfold ret. cbn [snd]. auto.
Qed.

(** **** The ['close'] event and the sweep *)

Lemma broadcast_frame rm f x st :
  rooms (broadcast rm f x st) = rooms st /\
  rateLimits (broadcast rm f x st) = rateLimits st /\
  forall ws, remoteAddress <$> (sockets (broadcast rm f x st) !! ws) =
             remoteAddress <$> (sockets st !! ws).
Proof.
  assert (Hsend : forall p st0 ws,
            remoteAddress <$> (sockets (ws_send p f st0) !! ws) =
            remoteAddress <$> (sockets st0 !! ws)).
  { intros p st0 ws. cbn. rewrite lookup_alter. case_decide; [subst|reflexivity].
    destruct (sockets st0 !! ws) as [s|]; [|reflexivity].
    cbn. unfold send_on. destruct (is_open (readyState s)); reflexivity. }
  unfold broadcast.
  destruct (host rm) as [h|]; destruct (guest rm) as [g|];
    repeat match goal with |- context [if ?b then _ else _] => destruct b end;
    repeat split; try reflexivity; intros ws; rewrite ?Hsend; reflexivity.
Qed.

(** The ['close'] event of a socket whose room is in the table. *)
Lemma signaling_onClose_member now ws st sk c rm :
  sockets st !! ws = Some sk -> room sk = Some c -> c <> EmptyString ->
  rooms st !! c = Some rm ->
  onClose now ws st =
  let st1 := set_rooms (insert c (removePlayer now ws rm))
               (set_sockets (alter mark_closed ws) st) in
  set_rateLimits (alter release_room (remoteAddress sk))
    (broadcast (removePlayer now ws rm) (PlayerDisconnected (role sk)) None st1).
Proof.
  intros Hsk Hroom Hc Hrm. unfold onClose.
  assert (Hr0 : ws_room ws (set_sockets (alter mark_closed ws) st) = Some c).
  { unfold ws_room. cbn. rewrite lookup_alter_eq, Hsk. exact Hroom. }
  rewrite Hr0, (truthy_intro c Hc). change (default EmptyString (Some c)) with c.
  change (rooms (set_sockets (alter mark_closed ws) st)) with (rooms st). rewrite Hrm.
  cbv zeta.
  set (st1 := set_rooms _ _).
  assert (Hrole : ws_role ws st1 = role sk).
  { unfold ws_role, st1. cbn. rewrite lookup_alter_eq, Hsk. reflexivity. }
  rewrite Hrole.
  set (st2 := broadcast _ _ _ st1).
  assert (Ha : ws_remoteAddress ws st2 = remoteAddress sk).
  { destruct (broadcast_frame (removePlayer now ws rm) (PlayerDisconnected (role sk)) None st1)
      as (_ & _ & Haddr).
    specialize (Haddr ws). fold st2 in Haddr. unfold ws_remoteAddress.
    assert (H1 : sockets st1 !! ws = Some (mark_closed sk)).
    { unfold st1. cbn. rewrite lookup_alter_eq, Hsk. reflexivity. }
    rewrite H1 in Haddr.
    destruct (sockets st2 !! ws); cbn in Haddr; congruence. }
  rewrite Ha. reflexivity.
Qed.

Lemma onClose_tables now ws st :
  (rooms (onClose now ws st) = rooms st /\ rateLimits (onClose now ws st) = rateLimits st) \/
  exists c rm ip, rooms st !! c = Some rm /\
    rooms (onClose now ws st) = <[c := removePlayer now ws rm]> (rooms st) /\
    rateLimits (onClose now ws st) = alter release_room ip (rateLimits st).
Proof.
  unfold onClose.
  set (st0 := set_sockets (alter mark_closed ws) st).
  destruct (truthy (ws_room ws st0)); [|left; split; reflexivity].
  change (rooms st0) with (rooms st).
  destruct (rooms st !! default EmptyString (ws_room ws st0)) as [rm|] eqn:E;
    [|left; split; reflexivity].
  right. exists (default EmptyString (ws_room ws st0)), rm. eexists.
  split; [exact E|]. cbv zeta.
  set (st1 := set_rooms _ st0). set (f := PlayerDisconnected _).
  destruct (broadcast_frame (removePlayer now ws rm) f None st1) as (Hr & Hl & _).
  cbn [rooms rateLimits set_rateLimits]. rewrite Hr, Hl. split; reflexivity.
Qed.

Lemma cleanup_rooms now st c :
  rooms (cleanupExpiredRooms now st) !! c =
  match rooms st !! c with
  | Some rm => if isEmpty rm || isExpired now rm then None else Some rm
  | None => None
  end.
Proof.
  unfold cleanupExpiredRooms. cbn [rooms set_rateLimits set_rooms].
  rewrite map_lookup_filter. destruct (rooms st !! c) as [rm|]; [|reflexivity].
  cbn. destruct (isEmpty rm || isExpired now rm); cbn.
  - rewrite option_guard_False by discriminate. reflexivity.
  - rewrite option_guard_True by reflexivity. reflexivity.
Qed.

Lemma cleanup_rateLimits now st ip :
  rateLimits (cleanupExpiredRooms now st) !! ip =
  match rateLimits st !! ip with
  | Some l => if idle_limit (prune (now - 60 * 60 * 1000) l) then None
              else Some (prune (now - 60 * 60 * 1000) l)
  | None => None
  end.
Proof.
  unfold cleanupExpiredRooms. cbn [rateLimits set_rateLimits set_rooms].
  rewrite map_lookup_filter, lookup_fmap.
  destruct (rateLimits st !! ip) as [l|]; [|reflexivity].
  cbn. destruct (idle_limit _); cbn.
  - rewrite option_guard_False by discriminate. reflexivity.
  - rewrite option_guard_True by reflexivity. reflexivity.
Qed.

(** **** The limiter's bounds *)

Lemma signaling_run_invariant (P : State -> Prop) :
  (forall st e, P st -> P (step st e)) ->
  forall evs st, P st -> P (run evs st).
Proof.
  intros Hstep evs. induction evs as [|e evs IH]; intros st H; [exact H|].
  cbn. apply IH, Hstep, H.
Qed.

Lemma hello_limiter_bounded now ip st :
  limits_bounded st -> limits_bounded (snd (checkRateLimit now ip st)).
Proof.
  intros Hb ip' l'. unfold checkRateLimit. cbv zeta.
  set (l0 := default (mkLimit [] 0) (rateLimits st !! ip)).
  assert (H0 : (length (handshakes l0) <= 30)%nat /\ (roomCount l0 <= 5)%nat).
  { unfold l0. destruct (rateLimits st !! ip) as [l|] eqn:E; [exact (Hb ip l E)|cbn; lia]. }
  set (hs := List.filter (fun time => Z.ltb (now - time) (10 * 60 * 1000)) (handshakes l0)).
  assert (Hhs : (length hs <= 30)%nat).
  { pose proof (filter_length_le (fun time => Z.ltb (now - time) (10 * 60 * 1000))
                  (handshakes l0)). unfold hs. lia. }
  cbn [handshakes roomCount].
  destruct (Nat.leb_spec 30 (length hs));
    [|destruct (Nat.leb_spec 5 (roomCount l0))]; cbn [snd rateLimits set_rateLimits].
  - rewrite lookup_insert. case_decide; [intros [= <-]; cbn; lia|apply Hb].
  - rewrite lookup_insert. case_decide; [intros [= <-]; cbn; lia|apply Hb].
  - rewrite lookup_insert. case_decide.
    + intros [= <-]. cbn. rewrite length_app. cbn. lia.
    + rewrite lookup_insert_ne by assumption. apply Hb.
Qed.

Lemma handleMessage_bounded now ws data st :
  limits_bounded st -> limits_bounded (snd (handleMessage now ws data st)).
Proof.
  intros Hb.
  destruct (handleMessage_tables now ws data st) as [[Hl|[Hl|[Ha Hl]]] _]; cbv zeta in *;
    intros ip l; rewrite Hl.
  - apply Hb.
  - apply hello_limiter_bounded, Hb.
  - destruct (checkRateLimit_admitted now _ st Ha) as (l1 & Hl1 & _ & Hlen & Hcount & _).
    pose proof (hello_limiter_bounded now (ws_remoteAddress ws st) st Hb) as Hb1.
    unfold count_room. cbn [rateLimits set_rateLimits]. rewrite lookup_alter.
    case_decide; [subst ip|apply Hb1].
    rewrite Hl1. intros [= <-]. cbn. lia.
Qed.

Lemma step_limits_bounded st e : limits_bounded st -> limits_bounded (step st e).
Proof.
  intros Hb. destruct e as [ws ip|now ws data|now ws|now]; cbn [step].
  - unfold onConnection. destruct (sockets st !! ws); exact Hb.
  - apply handleMessage_bounded, Hb.
  - destruct (onClose_tables now ws st) as [[_ Hl]|(c & rm & ip & _ & _ & Hl)];
      intros ip' l'; rewrite Hl; [apply Hb|].
    rewrite lookup_alter. case_decide; [subst ip'|apply Hb].
    destruct (rateLimits st !! ip) as [l|] eqn:E; [|discriminate].
    intros [= <-]. destruct (Hb ip l E). cbn. lia.
  - intros ip l. rewrite cleanup_rateLimits.
    destruct (rateLimits st !! ip) as [l0|] eqn:E; [|discriminate].
    destruct (idle_limit _); [discriminate|]. intros [= <-].
    destruct (Hb ip l0 E). cbn. split; [|assumption].
    pose proof (filter_length_le (fun time => Z.ltb (now - 60 * 60 * 1000) time)
                  (handshakes l0)). lia.
Qed.

(** X16.  Whatever connections, messages, close events and sweeps the
    signaling server has seen, the limiter holds at most 30 handshakes
    and counts at most 5 rooms for an address. *)
Theorem limits_never_exceeded entropy evs : limits_bounded (run evs (init entropy)).
Proof.
  apply signaling_run_invariant; [exact step_limits_bounded|].
  intros ip l H. cbn in H. rewrite lookup_empty in H. discriminate.
Qed.

(** **** The codes of the rooms *)

Lemma step_rooms_well_formed st e : rooms_well_formed st -> rooms_well_formed (step st e).
Proof.
  intros Hw. destruct e as [ws ip|now ws data|now ws|now]; cbn [step].
  - unfold onConnection. destruct (sockets st !! ws); exact Hw.
  - destruct (handleMessage_tables now ws data st)
      as [_ [Hr|[(c & Hr)|[(c & Hr)|[(c & Hc & Hr)|(c & rm & Hrm & Hr)]]]]]; cbv zeta in *;
      intros c' rm'; rewrite Hr.
    + apply Hw.
    + rewrite lookup_delete. case_decide; [discriminate|apply Hw].
    + rewrite lookup_alter. case_decide; [subst c'|apply Hw].
      destruct (rooms st !! c) as [rm0|] eqn:E; [|discriminate].
      intros [= <-]. exact (Hw c rm0 E).
    + rewrite lookup_insert. case_decide; [subst c'|apply Hw].
      intros [= <-]. split; [reflexivity|exact Hc].
    + rewrite lookup_insert. case_decide; [subst c'|apply Hw].
      intros [= <-]. exact (Hw c rm Hrm).
  - destruct (onClose_tables now ws st) as [[Hr _]|(c & rm & ip & Hrm & Hr & _)];
      intros c' rm'; rewrite Hr; [apply Hw|].
    rewrite lookup_insert. case_decide; [subst c'|apply Hw].
    intros [= <-]. destruct (Hw c rm Hrm) as [Hcode Hwf]. split; [|exact Hwf].
    rewrite <- Hcode. unfold removePlayer.
    destruct (same_socket (host rm) ws); [reflexivity|].
    destruct (same_socket (guest rm) ws); reflexivity.
  - intros c rm. rewrite cleanup_rooms.
    destruct (rooms st !! c) as [rm0|] eqn:E; [|discriminate].
    destruct (_ || _); [discriminate|]. intros [= <-]. exact (Hw c rm0 E).
Qed.

(** X17.  Whatever connections, messages, close events and sweeps the
    signaling server has seen, every room in the table is stored under
    its own code, and the code has six characters of the alphabet. *)
Theorem rooms_keep_generated_codes entropy evs : rooms_well_formed (run evs (init entropy)).
Proof.
  apply signaling_run_invariant; [exact step_rooms_well_formed|].
  intros c rm H. cbn in H. rewrite lookup_empty in H. discriminate.
Qed.

(** **** Rooms that expire *)

Lemma sendError_other ws c st k :
  k <> ws -> sockets (sendError ws c st) !! k = sockets st !! k.
Proof.
  intros Hk. unfold sendError. destruct (ws_isOpen ws st); [|reflexivity].
  cbn. rewrite lookup_alter_ne by congruence. reflexivity.
Qed.

(** X18.  A room is expired once it was idle for more than two minutes or
    is older than thirty minutes, whoever is in it.  The
    [hello(role=guest)] that finds it so fails with [ROOM_EXPIRED] and
    deletes it; a player of the room still carries its code, and its next
    [signal] is answered [ROOM_NOT_FOUND]. *)
Theorem expired_room_strands_players now now' ws h m sig st c rm skh :
  m_type m = "hello" -> m_role m = Some "guest" -> m_room m = Some c -> c <> EmptyString ->
  fst (checkRateLimit now (ws_remoteAddress ws st) st) = inl tt ->
  rooms st !! c = Some rm -> isExpired now rm = true ->
  sockets st !! h = Some skh -> room skh = Some c -> h <> ws ->
  m_type sig = "signal" ->
  stranded now now' ws h m sig c st.
Proof.
  intros Htype Hrole Hroom Hc Hrate Hrm Hexp Hskh Hrh Hne Hsig.
  pose proof (guest_hello_result_holds now ws m st Htype Hrole Hrate) as [_ Hres].
  rewrite Hroom, (truthy_intro c Hc) in Hres.
  change (default EmptyString (Some c)) with c in Hres. cbv zeta in Hres.
  rewrite Hrm, Hexp in Hres. destruct Hres as [Hfst Hrooms].
  unfold stranded. cbv zeta.
  destruct (handleMessage now ws (inr m) st) as [o st'] eqn:Eh. cbn [fst snd] in *. subst o.
  destruct (caught_error_effect now ws (inr m) st _ _ Eh) as [Hso _].
  assert (Hgone : rooms st' !! c = None) by (rewrite Hrooms; apply lookup_delete_eq).
  split; [reflexivity|]. split; [exact Hgone|].
  rewrite (handleMessage_signal now' h sig st' Hsig).
  unfold handleSignal, ws_room. rewrite Hso, (sendError_other ws _ st h Hne), Hskh, Hrh.
  rewrite (truthy_intro c Hc). cbn [negb]. change (default EmptyString (Some c)) with c.
  rewrite Hgone. reflexivity.
Qed.

Lemma late_guest_strands_host :
  (fst (checkRateLimit late (ws_remoteAddress 3 full_room) full_room) = inl tt /\
   rooms full_room !! "AAAAAA" =
     Some (mkRoom "AAAAAA" (Some 1%positive) (Some 2%positive) 0 1 true) /\
   isExpired late (mkRoom "AAAAAA" (Some 1%positive) (Some 2%positive) 0 1 true) = true /\
   sockets full_room !! 1%positive = Some first_host_socket) /\
  stranded late (late + 1) 3 1 (hello "guest" (Some "AAAAAA")) (signal "ice") "AAAAAA" full_room.
Proof.
  assert (H : fst (checkRateLimit late (ws_remoteAddress 3 full_room) full_room) = inl tt /\
   rooms full_room !! "AAAAAA" =
     Some (mkRoom "AAAAAA" (Some 1%positive) (Some 2%positive) 0 1 true) /\
   isExpired late (mkRoom "AAAAAA" (Some 1%positive) (Some 2%positive) 0 1 true) = true /\
   sockets full_room !! 1%positive = Some first_host_socket).
  { repeat split; vm_compute; reflexivity. }
  split; [exact H|]. destruct H as (H1 & H2 & H3 & H4).
  refine (expired_room_strands_players late (late + 1) 3 1 (hello "guest" (Some "AAAAAA"))
            (signal "ice") full_room "AAAAAA" _ first_host_socket
            eq_refl eq_refl eq_refl _ H1 H2 H3 H4 eq_refl _ eq_refl); discriminate.
Defined.

(** **** Leaving a room *)

Lemma ws_isOpen_closed_other ws p st f :
  p <> ws ->
  ws_isOpen p (set_rooms f (set_sockets (alter mark_closed ws) st)) = ws_isOpen p st.
Proof.
  intros Hne. unfold ws_isOpen. cbn. rewrite lookup_alter_ne by congruence. reflexivity.
Qed.

(** X19.  When a socket whose room is in the table closes, it leaves its
    slot (the heartbeat stops with the host), its address gets one room
    back, never going below zero, and the other player, when OPEN, is
    sent [player_disconnected] with the role of the socket that left,
    whichever of the two it was. *)
Theorem player_leaves_room now ws st sk c rm :
  sockets st !! ws = Some sk -> room sk = Some c -> c <> EmptyString ->
  rooms st !! c = Some rm ->
  leave_outcome now ws sk c rm st.
Proof.
  intros Hsk Hroom Hc Hrm.
  pose proof (signaling_onClose_member now ws st sk c rm Hsk Hroom Hc Hrm) as Heq.
  cbv zeta in Heq. unfold leave_outcome. cbv zeta. rewrite Heq.
  set (rm' := removePlayer now ws rm).
  set (st1 := set_rooms (insert c rm') (set_sockets (alter mark_closed ws) st)).
  set (f := PlayerDisconnected (role sk)).
  destruct (broadcast_frame rm' f None st1) as (Hr & Hl & _).
  split; [cbn; rewrite Hr; reflexivity|]. split; [cbn; rewrite Hl; reflexivity|].
  intros p Hslots Hp. cbn [sockets set_rateLimits].
  assert (Ho : ws_isOpen p st1 = ws_isOpen p st) by (apply ws_isOpen_closed_other; exact Hp).
  assert (Hb : broadcast rm' f None st1 = if ws_isOpen p st1 then ws_send p f st1 else st1).
  { unfold broadcast, rm', removePlayer.
    destruct Hslots as [[Hh Hg]|[Hg Hh]].
    - assert (E : same_socket (host rm) ws = true) by (apply same_socket_spec; exact Hh).
      rewrite E. cbn [touch host guest code createdAt lastActivity heartbeatTimer].
      rewrite Hg. rewrite bool_decide_eq_false_2 by discriminate. reflexivity.
    - assert (E : same_socket (host rm) ws = false).
      { rewrite Hh. cbn. apply Pos.eqb_neq. exact Hp. }
      assert (E2 : same_socket (guest rm) ws = true) by (apply same_socket_spec; exact Hg).
      rewrite E, E2. cbn [touch host guest code createdAt lastActivity heartbeatTimer].
      rewrite Hh. rewrite bool_decide_eq_false_2 by discriminate. cbn [negb andb].
      destruct (ws_isOpen p st1); reflexivity. }
  rewrite Hb, Ho. destruct (ws_isOpen p st); reflexivity.
Qed.

Lemma host_leaves_full_room :
  (sockets full_room !! 1%positive = Some first_host_socket /\
   "AAAAAA" <> EmptyString /\
   rooms full_room !! "AAAAAA" =
     Some (mkRoom "AAAAAA" (Some 1%positive) (Some 2%positive) 0 1 true)) /\
  leave_outcome 9 1 first_host_socket "AAAAAA"
    (mkRoom "AAAAAA" (Some 1%positive) (Some 2%positive) 0 1 true) full_room.
Proof.
  assert (H : sockets full_room !! 1%positive = Some first_host_socket /\
   "AAAAAA" <> EmptyString /\
   rooms full_room !! "AAAAAA" =
     Some (mkRoom "AAAAAA" (Some 1%positive) (Some 2%positive) 0 1 true)).
  { split; [vm_compute; reflexivity|]. split; [discriminate|vm_compute; reflexivity]. }
  split; [exact H|]. destruct H as (H1 & H2 & H3).
  exact (player_leaves_room 9 1 full_room first_host_socket "AAAAAA" _ H1 eq_refl H2 H3).
Defined.

(** In the full room the guest is told when the host leaves, and the
    address of the host holds no room any more. *)
Example guest_told_when_host_leaves :
  last <$> (sent <$> (sockets (onClose 9 1 full_room) !! 2%positive)) =
    Some (Some (PlayerDisconnected (Some "host"))) /\
  rooms_held "10.0.0.1" (onClose 9 1 full_room) = Some 0%nat.
Proof. split; vm_compute; reflexivity. Qed.

(** **** Rooms an address holds *)

Lemma sweep_keeps_rooms_held later ip n st :
  rooms_held ip st = Some (S n) -> rooms_held ip (cleanupExpiredRooms later st) = Some (S n).
Proof.
  unfold rooms_held. rewrite cleanup_rateLimits.
  destruct (rateLimits st !! ip) as [l|]; [|discriminate].
  cbn. intros [= Hl]. unfold idle_limit. cbn [prune roomCount]. rewrite Hl.
  rewrite andb_false_r. cbn. rewrite Hl. reflexivity.
Qed.

Lemma onClose_roomless now ws st sk c :
  sockets st !! ws = Some sk -> room sk = Some c -> rooms st !! c = None ->
  onClose now ws st = set_sockets (alter mark_closed ws) st.
Proof.
  intros Hsk Hroom Hgone. unfold onClose.
  assert (Hr0 : ws_room ws (set_sockets (alter mark_closed ws) st) = Some c).
  { unfold ws_room. cbn. rewrite lookup_alter_eq, Hsk. exact Hroom. }
  rewrite Hr0. destruct (truthy (Some c)); [|reflexivity].
  change (default EmptyString (Some c)) with c.
  change (rooms (set_sockets (alter mark_closed ws) st)) with (rooms st).
  rewrite Hgone. reflexivity.
Qed.

(** X20.  The sweep and the ['close'] event do not commute.  If the sweep
    finds the room of a socket empty or expired and removes it before the
    socket closes, the close event gives the socket's address no room
    back, and no later sweep removes the address from the limiter: the
    room stays counted.  If the socket closes first, the address gets the
    room back. *)
Theorem sweep_before_close_never_releases now now' ws st sk c rm l n :
  sockets st !! ws = Some sk -> room sk = Some c -> c <> EmptyString ->
  rooms st !! c = Some rm -> isEmpty rm || isExpired now rm = true ->
  rateLimits st !! remoteAddress sk = Some l -> roomCount l = S n ->
  room_never_released now now' ws (remoteAddress sk) n st.
Proof.
  intros Hsk Hroom Hc Hrm Hdead Hl Hn.
  assert (Hheld : rooms_held (remoteAddress sk) st = Some (S n)).
  { unfold rooms_held. rewrite Hl. cbn. rewrite Hn. reflexivity. }
  assert (Hgone : rooms (cleanupExpiredRooms now st) !! c = None).
  { rewrite cleanup_rooms, Hrm, Hdead. reflexivity. }
  assert (Hclose : rooms_held (remoteAddress sk) (onClose now' ws (cleanupExpiredRooms now st))
                   = Some (S n)).
  { rewrite (onClose_roomless now' ws (cleanupExpiredRooms now st) sk c Hsk Hroom Hgone).
    exact (sweep_keeps_rooms_held now _ n st Hheld). }
  split; [exact Hclose|]. split.
  - intros later. apply sweep_keeps_rooms_held. exact Hclose.
  - rewrite (signaling_onClose_member now' ws st sk c rm Hsk Hroom Hc Hrm). cbv zeta.
    unfold rooms_held. cbn [rateLimits set_rateLimits].
    set (st1 := set_rooms _ _).
    destruct (broadcast_frame (removePlayer now' ws rm) (PlayerDisconnected (role sk)) None st1)
      as (_ & -> & _).
    cbn. rewrite lookup_alter_eq, Hl. cbn. rewrite Hn. reflexivity.
Qed.

Lemma idle_host_is_swept_first :
  (sockets first_host !! 1%positive = Some first_host_socket /\
   "AAAAAA" <> EmptyString /\
   rooms first_host !! "AAAAAA" = Some (mkRoom "AAAAAA" (Some 1%positive) None 0 0 true) /\
   isEmpty (mkRoom "AAAAAA" (Some 1%positive) None 0 0 true)
     || isExpired 150000 (mkRoom "AAAAAA" (Some 1%positive) None 0 0 true) = true /\
   rateLimits first_host !! "10.0.0.1" = Some (mkLimit [0] 1)) /\
  room_never_released 150000 160000 1 "10.0.0.1" 0 first_host.
Proof.
  assert (H : sockets first_host !! 1%positive = Some first_host_socket /\
   "AAAAAA" <> EmptyString /\
   rooms first_host !! "AAAAAA" = Some (mkRoom "AAAAAA" (Some 1%positive) None 0 0 true) /\
   isEmpty (mkRoom "AAAAAA" (Some 1%positive) None 0 0 true)
     || isExpired 150000 (mkRoom "AAAAAA" (Some 1%positive) None 0 0 true) = true /\
   rateLimits first_host !! "10.0.0.1" = Some (mkLimit [0] 1)).
  { split; [vm_compute; reflexivity|]. split; [discriminate|].
    repeat split; vm_compute; reflexivity. }
  split; [exact H|]. destruct H as (H1 & H2 & H3 & H4 & H5).
  exact (sweep_before_close_never_releases 150000 160000 1 first_host first_host_socket
           "AAAAAA" _ _ 0 H1 eq_refl H2 H3 H4 H5 eq_refl).
Defined.

(** **** The quota of rooms *)

Lemma handleHello_limited now ws m st e :
  fst (checkRateLimit now (ws_remoteAddress ws st) st) = inr e ->
  fst (handleHello now ws m st) = inr e.
Proof.
  intros H. unfold handleHello. unfold bind at 1. unfold gets at 1. cbv beta iota.
  unfold bind at 1.
  destruct (checkRateLimit now (ws_remoteAddress ws st) st) as [[[]|e0] st1];
    cbn [fst] in *; congruence.
Qed.

Lemma checkRateLimit_quota now ip st l :
  rateLimits st !! ip = Some l -> (5 <= roomCount l)%nat ->
  fst (checkRateLimit now ip st) = inr "RATE_LIMITED".
Proof.
  intros Hl Hq. unfold checkRateLimit. cbv zeta. rewrite Hl. cbn [default from_option id].
  cbn [handshakes roomCount].
  destruct (Nat.leb _ _); [reflexivity|].
  destruct (Nat.leb_spec 5 (roomCount l)); [reflexivity|lia].
Qed.

Lemma checkRateLimit_roomCount now ip0 st ip l :
  rateLimits st !! ip = Some l ->
  exists l', rateLimits (snd (checkRateLimit now ip0 st)) !! ip = Some l' /\
             roomCount l' = roomCount l.
Proof.
  intros Hl. unfold checkRateLimit. cbv zeta.
  destruct (decide (ip0 = ip)) as [->|Hne].
  - rewrite Hl. cbn [default from_option id handshakes roomCount].
    destruct (Nat.leb _ _); [|destruct (Nat.leb _ _)]; cbn [snd rateLimits set_rateLimits];
      rewrite lookup_insert_eq; eexists; split; reflexivity.
  - destruct (Nat.leb _ _); [|destruct (Nat.leb _ _)]; cbn [snd rateLimits set_rateLimits];
      rewrite !lookup_insert_ne by assumption; eauto.
Qed.

(** X21.  While the limiter counts five rooms for an address, every
    [hello] of a socket of that address is refused with [RATE_LIMITED],
    whatever the time; and no connection, message or sweep brings the
    count down: only a ['close'] event does. *)
Theorem quota_of_five_locks_out ip st : locked_out ip st -> lock_out_persists ip st.
Proof.
  intros (l & Hl & Hq). split.
  - intros now ws m Hip Htype. rewrite (handleMessage_hello now ws m st Htype).
    pose proof (handleHello_limited now ws m st "RATE_LIMITED") as Hlim.
    rewrite Hip in Hlim. specialize (Hlim (checkRateLimit_quota now ip st l Hl Hq)).
    destruct (handleHello now ws m st) as [[[]|e] st1]; cbn [fst] in *; congruence.
  - intros e Hnc. destruct e as [ws ip0|now ws data|now ws|now]; cbn [step].
    + unfold onConnection. destruct (sockets st !! ws); exists l; auto.
    + destruct (handleMessage_tables now ws data st) as [[Hr|[Hr|[_ Hr]]] _]; cbv zeta in Hr;
        unfold locked_out; rewrite Hr.
      * exists l. auto.
      * destruct (checkRateLimit_roomCount now (ws_remoteAddress ws st) st ip l Hl)
          as (l' & Hl' & Hc). exists l'. split; [exact Hl'|lia].
      * destruct (checkRateLimit_roomCount now (ws_remoteAddress ws st) st ip l Hl)
          as (l' & Hl' & Hc).
        unfold count_room. cbn [rateLimits set_rateLimits]. rewrite lookup_alter.
        case_decide as E; [rewrite <- E in Hl'|]; rewrite Hl'; eexists;
          (split; [reflexivity|cbn; lia]).
    + destruct (Hnc now ws). reflexivity.
    + unfold locked_out. rewrite cleanup_rateLimits, Hl.
      unfold idle_limit. cbn [prune roomCount].
      destruct (Nat.eqb_spec (roomCount l) 0); [lia|]. rewrite andb_false_r.
      eexists. split; [reflexivity|exact Hq].
Qed.

Lemma five_rooms_lock_the_address :
  locked_out "10.0.0.1" five_rooms /\ lock_out_persists "10.0.0.1" five_rooms.
Proof.
  assert (H : locked_out "10.0.0.1" five_rooms).
  { exists (mkLimit [0; 0; 0; 0; 0] 5). split; [vm_compute; reflexivity|cbn; lia]. }
  split; [exact H|]. exact (quota_of_five_locks_out "10.0.0.1" five_rooms H).
Defined.

(** The five rooms of the witness, and the sixth that is refused. *)
Example five_rooms_created :
  size (rooms five_rooms) = 5%nat /\
  fst (handleMessage 1 1 (inr (hello "host" None)) five_rooms) = inr "RATE_LIMITED".
Proof. split; vm_compute; reflexivity. Qed.
End SignalingTheory.

(** ** The client *)
Module ClientTheory.
Import Client.



(** **** [ws.onclose] *)





(** **** One failed attempt *)








(** **** Reconnection of the relay *)

Local Open Scope Q_scope.





(** The delays of the witness: 1000, 2000, 4000, ... 30000, each plus 500. *)
Example delays_of_the_run :
  map (fun n => inject_Z (backoff_base n) + (1 # 2) * 1000) (seq 0 10) =
  map (fun z => inject_Z z + (1 # 2) * 1000)
    [1000; 2000; 4000; 8000; 16000; 30000; 30000; 30000; 30000; 30000]%Z.
Proof. reflexivity. Qed.

(** **** The stability timer of WebRTC *)

(** The callback of the stability timer is empty. *)
Lemma stable_timeout_does_nothing id c t :
  find_timer id c = Some t -> t_callback t = StableTimeout ->
  fire id c = clearTimeout id c.
Proof. intros Hf Hcb. unfold fire. rewrite Hf, Hcb. reflexivity. Qed.


(** **** The timeout of WebRTC *)

(** One timer, armed by a client that is on no transport and has no relay
    socket, for its own role and room: the timeout opens one socket. *)
Lemma single_timeout_opens_one_socket c ok_role ok_room :
  role (game c) = Some ok_role -> ok_role <> EmptyString ->
  roomCode (game c) = Some ok_room -> ok_room <> EmptyString ->
  connectionType (game c) = None -> wsRef (relay c) = None ->
  length (sockets (relay (run_callback (WebrtcTimeout (closure_of c)) c))) =
  S (length (sockets (relay c))).
Proof.
  intros Hr Hrne Hc Hcne Hct Hws.
  unfold run_callback, initiateRelayFallback, closure_of. cbn [cl_connectionType cl_role cl_roomCode].
  rewrite Hct, Hr, Hc, (truthy_intro _ Hrne), (truthy_intro _ Hcne).
  rewrite bool_decide_eq_false_2 by discriminate. cbn [negb orb].
  unfold connect. rewrite (truthy_intro _ Hrne), (truthy_intro _ Hcne). cbn [negb orb].
  unfold relay_is_open. rewrite Hws. cbn. rewrite length_app. cbn. lia.
Qed.



(** **** [disconnect] *)






(** **** The counter of attempts *)




(** **** The timeout of WebRTC, cancelled *)




(** **** The loss of WebRTC *)



(** **** Where an input goes *)

(** X26.  An input that is due (the client is the guest and at least
    33 ms have passed since the last one) is written to the data channel
    when that is open, and to it alone; otherwise to the current relay
    socket when that is open; otherwise to nothing.  In all three cases
    the sequence number and the time of the last input advance, so that
    an input that could not be sent is lost and the next one is throttled
    as if it had been sent. *)
Theorem due_input_is_routed now payload c :
  role (game c) = Some "guest" -> (INPUT_RATE <= now - lastInputRef (net c))%Z ->
  input_routed now payload c.
Proof.
  intros Hrole Hdue. unfold input_routed. cbv zeta. unfold sendInput.
  rewrite bool_decide_eq_true_2 by exact Hrole. cbn [negb].
  destruct (Z.ltb_spec (now - lastInputRef (net c)) INPUT_RATE); [lia|].
  unfold send_first_webrtc, webrtc_sendGameMessage, channel_open, channel_sent.
  destruct c as [g r [[[[] sent]|] st] n e];
    cbn [webrtc with_net dataChannelRef dc_open dc_sent game relay net env with_webrtc].
  - cbn. repeat split; reflexivity.
  - unfold relay_sendGameMessage, relay_is_open. cbn [relay with_net wsRef].
    destruct (wsRef r) as [ws|]; [|cbn; repeat split; reflexivity].
    destruct (sockets r !! ws) as [k|]; [|cbn; repeat split; reflexivity].
    destruct (ws_open (rs_state k)); cbn; repeat split; reflexivity.
  - unfold relay_sendGameMessage, relay_is_open. cbn [relay with_net wsRef].
    destruct (wsRef r) as [ws|]; [|cbn; repeat split; reflexivity].
    destruct (sockets r !! ws) as [k|]; [|cbn; repeat split; reflexivity].
    destruct (ws_open (rs_state k)); cbn; repeat split; reflexivity.
Qed.

Lemma first_input_of_guest0 :
  (role (game guest0) = Some "guest" /\ (INPUT_RATE <= 1000 - lastInputRef (net guest0))%Z) /\
  input_routed 1000 "left" guest0.
Proof.
  assert (H : (INPUT_RATE <= 1000 - lastInputRef (net guest0))%Z)
    by (unfold INPUT_RATE; cbn; lia).
  split; [split; [reflexivity|exact H]|].
  exact (due_input_is_routed 1000 "left" guest0 eq_refl H).
Defined.

(** The guest has no transport yet: the input is lost, and an input 20 ms
    later is throttled. *)
Example lost_input_still_throttles :
  all_sent (sendInput 1000 "left" guest0) = [] /\
  sendInput 1020 "right" (sendInput 1000 "left" guest0) = sendInput 1000 "left" guest0.
Proof. split; reflexivity. Qed.

(** **** The pace of inputs *)









(** The inputs above: the second call comes too early. *)
Example inputs_of_the_guest :
  all_sent (sendInputs [(1000, "left"); (1010, "right"); (1040, "jump")]%Z on_webrtc) =
  [mkGameMessage "input" 1 1000 "left"; mkGameMessage "input" 2 1040 "jump"].
Proof. reflexivity. Qed.
End ClientTheory.

(** ** The reducer *)
Module GameStateTheory.
Import GameStateContext.

(** The reducer of the hooks is the reducer, seen through the fields the
    hooks read. *)
Lemma hooks_see_the_reducer s a :
  seen_by_hooks (gameStateReducer s (of_hook a)) =
  Client.gameStateReducer (seen_by_hooks s) a.
Proof. destruct a as [type| |message []]; reflexivity. Qed.

Lemma reducer_coherent_from acts : forall done s,
  forallb names_transport acts = true ->
  coherent done s -> coherent (done ++ acts)%list (dispatched acts s).
Proof.
  induction acts as [|a acts IH]; intros done s Hall Hs.
  - rewrite app_nil_r. exact Hs.
  - cbn in Hall. apply andb_prop in Hall. destruct Hall as [Ha Hall].
    change (a :: acts) with ([a] ++ acts)%list. rewrite app_assoc.
    apply IH; [exact Hall|].
    destruct Hs as [Hc He]. split.
    + destruct a as [p|p| |[t|]| |p| | |m cr| |t]; cbn in *; try exact Hc; try discriminate.
      * split; eauto.
      * split; [discriminate|]. intros [x Hx]. discriminate.
      * split; [discriminate|]. intros [x Hx]. discriminate.
    + rewrite existsb_app. cbn. rewrite orb_false_r.
      destruct a as [p|p| |t| |p| | |m cr| |t]; cbn; try discriminate;
        try (intros H; rewrite (He H); reflexivity).
      destruct cr; [intros _; apply orb_true_r|].
      intros H. rewrite (He H). reflexivity.
Qed.

(** X28.  After any sequence of dispatches from the initial state in
    which every [CONNECTION_ESTABLISHED] names a transport: [isConnected]
    is true exactly when [connectionType] is set, and the game state is
    [error] only if one of the actions was a critical [SET_ERROR]. *)
Theorem reducer_keeps_state_coherent acts :
  forallb names_transport acts = true ->
  coherent acts (dispatched acts initialState).
Proof.
  intros Hall. apply (reducer_coherent_from acts [] initialState Hall).
  split.
  - cbn. split; [discriminate|]. intros [x Hx]. discriminate.
  - discriminate.
Qed.

Lemma a_session_of_the_guest :
  forallb names_transport
    [SET_ROLE (Some "guest"); SET_ROOM_CODE (Some "ABCDAB"); START_CONNECTING;
     CONNECTION_ESTABLISHED (Some "relay"); SET_ERROR (Some "Relay error: x") false;
     CONNECTION_LOST] = true /\
  coherent
    [SET_ROLE (Some "guest"); SET_ROOM_CODE (Some "ABCDAB"); START_CONNECTING;
     CONNECTION_ESTABLISHED (Some "relay"); SET_ERROR (Some "Relay error: x") false;
     CONNECTION_LOST]
    (dispatched
       [SET_ROLE (Some "guest"); SET_ROOM_CODE (Some "ABCDAB"); START_CONNECTING;
        CONNECTION_ESTABLISHED (Some "relay"); SET_ERROR (Some "Relay error: x") false;
        CONNECTION_LOST] initialState).
Proof.
  split; [reflexivity|].
  exact (reducer_keeps_state_coherent
           [SET_ROLE (Some "guest"); SET_ROOM_CODE (Some "ABCDAB"); START_CONNECTING;
            CONNECTION_ESTABLISHED (Some "relay"); SET_ERROR (Some "Relay error: x") false;
            CONNECTION_LOST] eq_refl).
Defined.

(** The session above ends in [fighting], disconnected, with the
    error of the relay still shown. *)
Example the_guest_after_the_loss :
  dispatched
    [SET_ROLE (Some "guest"); SET_ROOM_CODE (Some "ABCDAB"); START_CONNECTING;
     CONNECTION_ESTABLISHED (Some "relay"); SET_ERROR (Some "Relay error: x") false;
     CONNECTION_LOST] initialState =
  mkState FIGHTING (Some "guest") (Some "ABCDAB") false None (Some "Relay error: x") None.
Proof. reflexivity. Qed.

End GameStateTheory.
